(** * RnsMeshtasticBridge: framing, fragmentation and reassembly

    A shallow embedding of [MeshtasticInterface.py]: the encoder
    [_create_mesh_packets], the stream decoder [_decode_mesh_packets],
    the sentinel reassembly of [read_loop], [process_outgoing] and the
    reconnect loop.  Python [int]s are [Z], [bytes] are lists of
    [Byte.byte], the interface object is a record passed explicitly,
    exceptions are an [outcome], and the two unbounded loops carry fuel. *)

From Stdlib Require Import ZArith List Bool Lia.
From Stdlib.Strings Require Import Byte.
From Stdlib Require String QArith.
Import String.StringSyntax.
Delimit Scope string_scope with string.
Import ListNotations.
Open Scope Z_scope.

(** ** Python values *)

Definition bytes := list byte.

Definition len {A : Type} (l : list A) : Z := Z.of_nat (length l).

(** [b[i]] for an index that is in range: the integer value of the byte. *)
Definition int_of_byte (b : byte) : Z := Z.of_N (Byte.to_N b).

Definition byte_at (b : bytes) (i : nat) : Z := int_of_byte (nth i b x00).

(** One element of [bytes([...])]; every use below passes a value
    already masked by [& 0xFF] or a magic constant, so the [ValueError]
    of [bytes] for values outside [range(256)] does not arise. *)
Definition byte_of_int (z : Z) : byte :=
  match Byte.of_N (Z.to_N z) with
  | Some b => b
  | None => x00
  end.

(** [b[lo:hi]] for [0 <= lo]; an upper bound below [lo] gives [b'']. *)
Definition slice {A : Type} (l : list A) (lo hi : Z) : list A :=
  firstn (Z.to_nat (hi - lo)) (skipn (Z.to_nat lo) l).

(** [b[lo:]] for [0 <= lo]. *)
Definition slice_from {A : Type} (l : list A) (lo : Z) : list A :=
  skipn (Z.to_nat lo) l.

(** [b.find(x)] for an integer [x]: the least index holding that byte
    value, or [-1]. *)
Fixpoint find_from (b : bytes) (x : Z) (i : Z) : Z :=
  match b with
  | [] => -1
  | c :: rest => if int_of_byte c =? x then i else find_from rest x (i + 1)
  end.

Definition find (b : bytes) (x : Z) : Z := find_from b x 0.

Inductive exn : Type :=
| ValueError
| DecodeError
| OSError.

Inductive outcome (A : Type) : Type :=
| Returned (a : A)
| Raised (e : exn).

Arguments Returned {A} a.
Arguments Raised {A} e.

(** [range(0, stop, step)] for [0 <= stop]. *)
Definition py_range (stop step : Z) : outcome (list Z) :=
  if step =? 0 then Raised ValueError
  else if step <? 0 then Returned []
  else Returned (map (fun i => Z.of_nat i * step)
                     (seq 0 (Z.to_nat ((stop + step - 1) / step)))).

(** ** Configuration constants *)

Definition MT_MAGIC_0 : Z := 0x94.
Definition MT_MAGIC_1 : Z := 0xc3.
Definition MESH_DEST_ADDR : Z := 0xFFFFFFFF.
Definition MESH_SPECIAL_NONCE : Z := 69420.

(** ** The logical packet (the fields of [mesh_pb2] the interface touches) *)

Module mesh_pb2.

Record Data : Type := {
  portnum : Z;
  payload : bytes
}.

Record MeshPacket : Type := {
  to : Z;
  id : Z;
  channel : Z;
  want_ack : bool;
  decoded : option Data   (* [None]: [HasField('decoded')] is false *)
}.

(** [ToRadio] is a one-of: a mesh packet or a configuration request. *)
Inductive ToRadio : Type :=
| TR_packet (p : MeshPacket)
| TR_want_config_id (nonce : Z).

End mesh_pb2.
Import mesh_pb2.

(** [bytes([MT_MAGIC_0, MT_MAGIC_1, (buflen >> 8) & 0xFF, buflen & 0xFF])] *)
Definition frame_header (buflen : Z) : bytes :=
  [byte_of_int MT_MAGIC_0; byte_of_int MT_MAGIC_1;
   byte_of_int (Z.land (Z.shiftr buflen 8) 0xFF);
   byte_of_int (Z.land buflen 0xFF)].

(** The 4-byte header and the serialized message: one wire frame. *)
Definition wire_frame (packet : bytes) : bytes :=
  let buflen := len packet in
  frame_header buflen ++ packet.

(** [recvbuf[0] == MT_MAGIC_0 and recvbuf[1] == MT_MAGIC_1] *)
Definition has_magic (recvbuf : bytes) : bool :=
  (byte_at recvbuf 0 =? MT_MAGIC_0) && (byte_at recvbuf 1 =? MT_MAGIC_1).

(** [recvbuf[2] << 8 | recvbuf[3]] *)
Definition read_payload_len (recvbuf : bytes) : Z :=
  Z.lor (Z.shiftl (byte_at recvbuf 2) 8) (byte_at recvbuf 3).

(** Whether the magic pair occurs anywhere in [b]. *)
Fixpoint has_magic_pair (b : bytes) : bool :=
  match b with
  | [] => false
  | _ :: rest => has_magic b || has_magic_pair rest
  end.

(** ** The interface object *)

(** The socket as the interface sees it: the bytes written so far. *)
Record Socket : Type := {
  wire : bytes
}.

Record MeshtasticInterface : Type := {
  channel : Z;
  mesh_port_num : Z;
  online : bool;
  _recvbuf : bytes;
  _recv_partial_msg : list MeshPacket;
  rxb : Z;
  txb : Z;
  _sock : Socket;
  inbound : list bytes;    (* the calls [owner.inbound(data, self)], oldest first *)
  connects : nat;          (* [socket.connect] calls made so far *)
  slept : Z;               (* total time slept, in milliseconds *)
  readers : nat            (* [read_loop] threads started by [configure_device] *)
}.

Definition set_online (self : MeshtasticInterface) (v : bool) :=
  {| channel := channel self; mesh_port_num := mesh_port_num self;
     online := v; _recvbuf := _recvbuf self;
     _recv_partial_msg := _recv_partial_msg self;
     rxb := rxb self; txb := txb self; _sock := _sock self;
     inbound := inbound self; connects := connects self;
     slept := slept self; readers := readers self |}.

Definition set_recvbuf (self : MeshtasticInterface) (v : bytes) :=
  {| channel := channel self; mesh_port_num := mesh_port_num self;
     online := online self; _recvbuf := v;
     _recv_partial_msg := _recv_partial_msg self;
     rxb := rxb self; txb := txb self; _sock := _sock self;
     inbound := inbound self; connects := connects self;
     slept := slept self; readers := readers self |}.

Definition set_recv_partial_msg (self : MeshtasticInterface)
    (v : list MeshPacket) :=
  {| channel := channel self; mesh_port_num := mesh_port_num self;
     online := online self; _recvbuf := _recvbuf self;
     _recv_partial_msg := v;
     rxb := rxb self; txb := txb self; _sock := _sock self;
     inbound := inbound self; connects := connects self;
     slept := slept self; readers := readers self |}.

Definition set_rxb (self : MeshtasticInterface) (v : Z) :=
  {| channel := channel self; mesh_port_num := mesh_port_num self;
     online := online self; _recvbuf := _recvbuf self;
     _recv_partial_msg := _recv_partial_msg self;
     rxb := v; txb := txb self; _sock := _sock self;
     inbound := inbound self; connects := connects self;
     slept := slept self; readers := readers self |}.

Definition set_txb (self : MeshtasticInterface) (v : Z) :=
  {| channel := channel self; mesh_port_num := mesh_port_num self;
     online := online self; _recvbuf := _recvbuf self;
     _recv_partial_msg := _recv_partial_msg self;
     rxb := rxb self; txb := v; _sock := _sock self;
     inbound := inbound self; connects := connects self;
     slept := slept self; readers := readers self |}.

Definition set_sock (self : MeshtasticInterface) (v : Socket) :=
  {| channel := channel self; mesh_port_num := mesh_port_num self;
     online := online self; _recvbuf := _recvbuf self;
     _recv_partial_msg := _recv_partial_msg self;
     rxb := rxb self; txb := txb self; _sock := v;
     inbound := inbound self; connects := connects self;
     slept := slept self; readers := readers self |}.

Definition set_inbound (self : MeshtasticInterface) (v : list bytes) :=
  {| channel := channel self; mesh_port_num := mesh_port_num self;
     online := online self; _recvbuf := _recvbuf self;
     _recv_partial_msg := _recv_partial_msg self;
     rxb := rxb self; txb := txb self; _sock := _sock self;
     inbound := v; connects := connects self;
     slept := slept self; readers := readers self |}.

Definition set_connects (self : MeshtasticInterface) (v : nat) :=
  {| channel := channel self; mesh_port_num := mesh_port_num self;
     online := online self; _recvbuf := _recvbuf self;
     _recv_partial_msg := _recv_partial_msg self;
     rxb := rxb self; txb := txb self; _sock := _sock self;
     inbound := inbound self; connects := v;
     slept := slept self; readers := readers self |}.

Definition set_readers (self : MeshtasticInterface) (v : nat) :=
  {| channel := channel self; mesh_port_num := mesh_port_num self;
     online := online self; _recvbuf := _recvbuf self;
     _recv_partial_msg := _recv_partial_msg self;
     rxb := rxb self; txb := txb self; _sock := _sock self;
     inbound := inbound self; connects := connects self;
     slept := slept self; readers := v |}.

(** [sleep(t)], with [t] in milliseconds. *)
Definition sleep (ms : Z) (self : MeshtasticInterface) :=
  {| channel := channel self; mesh_port_num := mesh_port_num self;
     online := online self; _recvbuf := _recvbuf self;
     _recv_partial_msg := _recv_partial_msg self;
     rxb := rxb self; txb := txb self; _sock := _sock self;
     inbound := inbound self; connects := connects self;
     slept := slept self + ms; readers := readers self |}.

(** One pass of a loop body. *)
Inductive iteration (S R : Type) : Type :=
| Continue (s : S)
| Return (r : R)
| Raise (s : S) (e : exn).

Arguments Continue {S R} s.
Arguments Return {S R} r.
Arguments Raise {S R} s e.

(** The run of a loop that need not end: it is over, or still going
    when the fuel is spent. *)
Inductive run (A : Type) : Type :=
| Done (self : MeshtasticInterface) (out : outcome A)
| Looping (self : MeshtasticInterface).

Arguments Done {A} self out.
Arguments Looping {A} self.

(** ** Exceptions of the stand-alone tools

    [meshtastic_utils.py] and [rns_over_meshtastic_bridge.py] index
    byte strings directly, and [__init__] reads a dictionary, so their
    runs can also end in [IndexError] or [KeyError]. *)

Inductive exception : Type :=
| Builtin (e : exn)
| IndexError
| KeyError.

Inductive attempt (A : Type) : Type :=
| Success (a : A)
| Failure (e : exception).

Arguments Success {A} a.
Arguments Failure {A} e.

(** [b[i]] for [0 <= i]: the byte, or [IndexError] past the end. *)
Definition getitem (b : bytes) (i : Z) : attempt Z :=
  match nth_error b (Z.to_nat i) with
  | Some c => Success (int_of_byte c)
  | None => Failure IndexError
  end.

(** The mesh packet [_create_mesh_packets] builds around one slice of
    the data: broadcast, id 0, no ack, on the interface's channel. *)
Definition fragment (self : MeshtasticInterface) (port : Z) (chunk : bytes)
    : MeshPacket :=
  {| to := MESH_DEST_ADDR;
     id := 0;
     mesh_pb2.channel := channel self;
     want_ack := false;
     decoded := Some {| portnum := port; payload := chunk |} |}.

(** The configuration of an interface as [Interface.get_config_obj]
    returns it: the value stored under a key, if any. *)
Definition ConfigObj : Type := String.string -> option String.string.

(** The attributes [__init__] sets besides the state above. *)
Record Attributes : Type := {
  name : String.string;
  host : String.string;
  port : Z;
  hw_mtu : Z;
  timeout : Z;
  bitrate : Z
}.

(** The wait for a path in [init_rns] of [meshtastic_lxmf_proxy.py]:
    the calls of [has_path] and [request_path] made so far and the
    seconds slept. *)
Record PathWait : Type := {
  polls : nat;
  path_requests : nat;
  seconds_slept : Z
}.

(** That wait when the fuel is spent, or after the loop. *)
Inductive wait : Type :=
| StillWaiting (w : PathWait)
| Exited (w : PathWait).

(** ** A small concrete instance

    A stand-in for the externally owned codec and sockets, used to run
    the interface on concrete inputs: a packet with an application
    payload is written as a tag byte, the channel, the port number on
    two bytes, and the payload; an empty message reads back as the
    default packet, as it does with protobuf.  This codec reads what it
    writes; [to_radio] and [from_radio_packet] below do not. *)

Module Sample.

Definition default_packet : MeshPacket :=
  {| to := 0; id := 0; mesh_pb2.channel := 0; want_ack := false;
     decoded := None |}.

Definition SerializeToString (m : ToRadio) : bytes :=
  match m with
  | TR_packet p =>
      match decoded p with
      | Some d =>
          [x01; byte_of_int (mesh_pb2.channel p);
           byte_of_int (portnum d / 256); byte_of_int (portnum d mod 256)]
          ++ payload d
      | None => []
      end
  | TR_want_config_id nonce =>
      [x02; byte_of_int (nonce / 256 mod 256); byte_of_int (nonce mod 256)]
  end.

Definition FromString_packet (buf : bytes) : option MeshPacket :=
  match buf with
  | [] => Some default_packet
  | x01 :: c :: h :: l :: rest =>
      Some {| to := MESH_DEST_ADDR; id := 0;
              mesh_pb2.channel := int_of_byte c; want_ack := false;
              decoded := Some {| portnum := 256 * int_of_byte h + int_of_byte l;
                                 payload := rest |} |}
  | x02 :: _ => Some default_packet
  | _ => None
  end.

(** A socket that takes every byte it is given. *)
Definition accepts (w data : bytes) : option nat := Some (length data).

(** A device that refuses the first two connections. *)
Definition connect_ok (n : nat) : bool := (2 <=? n)%nat.

(** An interface on channel 2 with port base [PRIVATE_APP] = 256. *)
Definition iface (is_online : bool) : MeshtasticInterface :=
  {| channel := 2; mesh_port_num := 256; online := is_online;
     _recvbuf := []; _recv_partial_msg := []; rxb := 0; txb := 0;
     _sock := {| wire := [] |}; inbound := []; connects := 0;
     slept := 0; readers := 0 |}.

(** A payload one byte longer than a fragment of 233 bytes. *)
Definition payload234 : bytes := repeat x41 233 ++ [x42].

(** A 600-byte payload. *)
Definition payload600 : bytes := repeat x41 600.

(** A sentinel packet of another channel. *)
Definition foreign_sentinel : MeshPacket :=
  {| to := MESH_DEST_ADDR; id := 0; mesh_pb2.channel := 5; want_ack := false;
     decoded := Some {| portnum := 257; payload := [x41] |} |}.

(** The final fragment carrying the single byte 0x41 on channel 2. *)
Definition last_fragment : MeshPacket := fragment (iface true) 257 [x41].

(** A second codec that also writes the packet id, on four bytes. *)
Definition SerializeToString_id (m : ToRadio) : bytes :=
  match m with
  | TR_packet p =>
      match decoded p with
      | Some d =>
          [x01; byte_of_int (mesh_pb2.channel p);
           byte_of_int (portnum d / 256); byte_of_int (portnum d mod 256);
           byte_of_int (id p / 16777216 mod 256);
           byte_of_int (id p / 65536 mod 256);
           byte_of_int (id p / 256 mod 256); byte_of_int (id p mod 256)]
          ++ payload d
      | None => []
      end
  | TR_want_config_id nonce =>
      [x02; byte_of_int (nonce / 256 mod 256); byte_of_int (nonce mod 256)]
  end.

Definition FromString_packet_id (buf : bytes) : option MeshPacket :=
  match buf with
  | [] => Some default_packet
  | x01 :: c :: h :: l :: i3 :: i2 :: i1 :: i0 :: rest =>
      Some {| to := MESH_DEST_ADDR;
              id := 16777216 * int_of_byte i3 + 65536 * int_of_byte i2
                    + 256 * int_of_byte i1 + int_of_byte i0;
              mesh_pb2.channel := int_of_byte c; want_ack := false;
              decoded := Some {| portnum := 256 * int_of_byte h + int_of_byte l;
                                 payload := rest |} |}
  | x02 :: _ => Some default_packet
  | _ => None
  end.

(** Ids as a random generator might draw them. *)
Definition randint (n : nat) : Z := 1000003 * (Z.of_nat n + 7) mod 2147483648.

(** A device that accepts every connection. *)
Definition connect_always (n : nat) : bool := true.

(** [int] on the two numbers the sample configurations use. *)
Definition int (s : String.string) : option Z :=
  if String.eqb s "2"%string then Some 2
  else if String.eqb s "4403"%string then Some 4403
  else if String.eqb s "4404"%string then Some 4404
  else None.

(** A complete configuration without a port, and one without a host. *)
Definition ifconf (key : String.string) : option String.string :=
  if String.eqb key "name"%string then Some "mesh"%string
  else if String.eqb key "host"%string then Some "10.0.0.235"%string
  else if String.eqb key "channel"%string then Some "2"%string
  else None.

Definition ifconf_no_host (key : String.string) : option String.string :=
  if String.eqb key "name"%string then Some "mesh"%string
  else if String.eqb key "channel"%string then Some "2"%string
  else None.

(** A path that is known from the 701st poll on. *)
Definition has_path (n : nat) : bool := (700 <=? n)%nat.

(** The inner message of [last_fragment] and its frame. *)
Definition last_inner : bytes := SerializeToString (TR_packet last_fragment).

Definition last_frame : bytes := wire_frame last_inner.

(** A stand-in for UTF-8 on the texts of the examples: the bytes of the
    string, and back. *)
Definition encode_utf8 (text : String.string) : bytes :=
  String.list_byte_of_string text.

Definition decode_utf8 (payload : bytes) : String.string :=
  String.string_of_list_byte payload.

(** A codec that keeps the two message types of the device protocol
    apart: a [ToRadio] message holds its packet under the tag 0x0a and
    a [FromRadio] message holds it under the tag 0x12, and a reader
    that does not find its own tag returns the default packet.  The
    packet itself is written as the channel, the port number on two
    bytes, the id on four bytes, and the payload. *)
Definition packet_body (p : MeshPacket) : bytes :=
  match decoded p with
  | Some d =>
      [byte_of_int (mesh_pb2.channel p);
       byte_of_int (portnum d / 256); byte_of_int (portnum d mod 256);
       byte_of_int (id p / 16777216 mod 256);
       byte_of_int (id p / 65536 mod 256);
       byte_of_int (id p / 256 mod 256); byte_of_int (id p mod 256)]
      ++ payload d
  | None => []
  end.

Definition to_radio (m : ToRadio) : bytes :=
  match m with
  | TR_packet p => x0a :: packet_body p
  | TR_want_config_id nonce =>
      [x18; byte_of_int (nonce / 256 mod 256); byte_of_int (nonce mod 256)]
  end.

Definition from_radio_packet (buf : bytes) : option MeshPacket :=
  match buf with
  | x12 :: c :: h :: l :: i3 :: i2 :: i1 :: i0 :: rest =>
      Some {| to := MESH_DEST_ADDR;
              id := 16777216 * int_of_byte i3 + 65536 * int_of_byte i2
                    + 256 * int_of_byte i1 + int_of_byte i0;
              mesh_pb2.channel := int_of_byte c; want_ack := false;
              decoded := Some {| portnum := 256 * int_of_byte h + int_of_byte l;
                                 payload := rest |} |}
  | x12 :: _ :: _ => None
  | _ => Some default_packet
  end.

(** The packet as the receiving device hands it over, with an id of the
    device's own, and the [FromRadio] message the device writes for
    it. *)
Definition heard (p : MeshPacket) : MeshPacket :=
  {| to := to p; id := 4660; mesh_pb2.channel := mesh_pb2.channel p;
     want_ack := want_ack p; decoded := decoded p |}.

Definition from_radio (p : MeshPacket) : bytes := x12 :: packet_body (heard p).

End Sample.

Section Interface.

(** The externally owned parts: the hardware constant
    [Constants.DATA_PAYLOAD_LEN], the protobuf codec, and the
    behaviour of the operating system's sockets. *)
Variable DATA_PAYLOAD_LEN : Z.

(** [to_radio.SerializeToString()] *)
Variable SerializeToString : ToRadio -> bytes.

(** [FromRadio.FromString(buf).packet]; [None] when [FromString]
    raises [DecodeError]. *)
Variable FromString_packet : bytes -> option MeshPacket.

(** [sock.send(data)] on a socket that has written [w] so far: how
    many leading bytes of [data] the kernel takes, or [None] when the
    call raises [OSError]. *)
Variable accepts : bytes -> bytes -> option nat.

(** Whether the [n]-th [socket.connect] of this interface succeeds. *)
Variable connect_ok : nat -> bool.

(** *** Sending *)

Definition MAX_LEN : Z := DATA_PAYLOAD_LEN - 4.

(** The [mesh_packet] of the loop iteration that starts at
    [start_byte], as it is when it is serialized. *)
Definition mesh_packet_at (self : MeshtasticInterface) (data : bytes)
    (start_byte : Z) : MeshPacket :=
  fragment self
    (if len data <=? start_byte + MAX_LEN
     then mesh_port_num self + 1 else mesh_port_num self)
    (slice data start_byte (start_byte + MAX_LEN)).

(** The bytes appended to [result] for one mesh packet. *)
Definition frame_of (p : MeshPacket) : bytes :=
  wire_frame (SerializeToString (TR_packet p)).

Definition _create_mesh_packets (self : MeshtasticInterface)
    (data : bytes) : outcome (list bytes) :=
  match py_range (len data) MAX_LEN with
  | Raised e => Raised e
  | Returned starts =>
      Returned
        (map (fun start_byte => frame_of (mesh_packet_at self data start_byte))
             starts)
  end.

(** The mesh packets behind the frames of [_create_mesh_packets]. *)
Definition fragment_packets (self : MeshtasticInterface) (data : bytes)
    : list MeshPacket :=
  match py_range (len data) MAX_LEN with
  | Raised e => []
  | Returned starts => map (mesh_packet_at self data) starts
  end.

(** [self.txb += self._sock.send(packet)] *)
Definition sock_send (self : MeshtasticInterface) (data : bytes)
    : outcome (MeshtasticInterface * Z) :=
  match accepts (wire (_sock self)) data with
  | None => Raised OSError
  | Some n =>
      let taken := firstn n data in
      Returned
        (set_sock self {| wire := wire (_sock self) ++ taken |}, len taken)
  end.

(** The [for packet in ...] loop of [process_outgoing]; an exception
    leaves the state as it was when the exception was raised. *)
Fixpoint send_packets (self : MeshtasticInterface) (packets : list bytes)
    : MeshtasticInterface * outcome unit :=
  match packets with
  | [] => (self, Returned tt)
  | packet :: rest =>
      match sock_send self packet with
      | Raised e => (self, Raised e)
      | Returned (self1, sent) =>
          send_packets (set_txb self1 (txb self1 + sent)) rest
      end
  end.

Definition process_outgoing (self : MeshtasticInterface) (data : bytes)
    : MeshtasticInterface * outcome unit :=
  if online self then
    match _create_mesh_packets self data with
    | Raised e => (self, Raised e)
    | Returned packets => send_packets self packets
    end
  else (self, Returned tt).

(** *** Receiving *)

(** The body of [while len(self._recvbuf) > 4], on the buffer and the
    [result] list; entered only with more than 4 bytes buffered. *)
Definition decode_iteration (recvbuf : bytes) (result : list MeshPacket)
    : iteration (bytes * list MeshPacket) (list MeshPacket) :=
  if has_magic recvbuf then
    let payload_len := read_payload_len recvbuf in
    let start_packet_idx := 4 in
    let end_packet_idx := start_packet_idx + payload_len in
    if len recvbuf <? end_packet_idx then Return result
    else
      let packet_buf := slice recvbuf start_packet_idx end_packet_idx in
      match FromString_packet packet_buf with
      | None => Raise (recvbuf, result) DecodeError
      | Some packet =>
          Continue (slice_from recvbuf end_packet_idx, result ++ [packet])
      end
  else Continue (slice_from recvbuf 1, result).

(** The [while] loop; [None] when the fuel runs out first. *)
Fixpoint decode_loop (fuel : nat) (recvbuf : bytes)
    (result : list MeshPacket)
    : option (bytes * outcome (list MeshPacket)) :=
  match fuel with
  | O => None
  | S fuel' =>
      if 4 <? len recvbuf then
        match decode_iteration recvbuf result with
        | Continue (recvbuf', result') => decode_loop fuel' recvbuf' result'
        | Return r => Some (recvbuf, Returned r)
        | Raise (recvbuf', _) e => Some (recvbuf', Raised e)
        end
      else Some (recvbuf, Returned result)
  end.

(** The buffer on which the [while] loop starts, when a magic-0 byte
    was found. *)
Definition resync (recvbuf : bytes) (first_magic_idx : Z) : bytes :=
  if 0 <? first_magic_idx then slice_from recvbuf first_magic_idx
  else recvbuf.

Definition _decode_mesh_packets (self : MeshtasticInterface) (data : bytes)
    : MeshtasticInterface * outcome (list MeshPacket) :=
  let recvbuf := _recvbuf self ++ data in
  let first_magic_idx := find recvbuf MT_MAGIC_0 in
  if first_magic_idx <? 0 then (set_recvbuf self [], Returned [])
  else
    let recvbuf := resync recvbuf first_magic_idx in
    (* the fuel is never short: [decode_loop_fuel] *)
    match decode_loop (S (length recvbuf)) recvbuf [] with
    | Some (recvbuf', out) => (set_recvbuf self recvbuf', out)
    | None => (set_recvbuf self recvbuf, Returned [])
    end.

Definition process_incoming (self : MeshtasticInterface) (data : bytes)
    : MeshtasticInterface :=
  let self := set_rxb self (rxb self + len data) in
  set_inbound self (inbound self ++ [data]).

(** [x.decoded.payload]; an unset [decoded] reads as the empty default. *)
Definition decoded_payload (x : MeshPacket) : bytes :=
  match decoded x with
  | Some d => payload d
  | None => []
  end.

(** The body of [for packet in packets] in [read_loop]. *)
Definition accept_packet (self : MeshtasticInterface) (packet : MeshPacket)
    : MeshtasticInterface :=
  match decoded packet with
  | Some d =>
      if mesh_pb2.channel packet =? channel self then
        let self :=
          set_recv_partial_msg self (_recv_partial_msg self ++ [packet]) in
        if portnum d =? mesh_port_num self + 1 then
          let r_packet :=
            concat (map decoded_payload (_recv_partial_msg self)) in
          let self := process_incoming self r_packet in
          set_recv_partial_msg self []
        else self
      else self
  | None => self
  end.

(** One pass of [while True] in [read_loop] after the [sleep], on the
    bytes [recv] gave. *)
Definition read_iteration (self : MeshtasticInterface) (buf : bytes)
    : iteration MeshtasticInterface MeshtasticInterface :=
  if len buf =? 0 then Return self
  else
    match _decode_mesh_packets self buf with
    | (self, Raised e) => Raise self e
    | (self, Returned packets) =>
        Continue (fold_left accept_packet packets self)
    end.

(** *** Connection life cycle *)

Definition _request_mesh_config_info_packet : bytes :=
  wire_frame (SerializeToString (TR_want_config_id MESH_SPECIAL_NONCE)).

Definition open_port (self : MeshtasticInterface)
    : MeshtasticInterface * outcome unit :=
  let n := connects self in
  let self := set_connects self (S n) in
  if connect_ok n then
    match accepts [] _request_mesh_config_info_packet with
    | None => (self, Raised OSError)
    | Some k =>
        (set_sock self
           {| wire := firstn k _request_mesh_config_info_packet |},
         Returned tt)
    end
  else (self, Raised OSError).

Definition configure_device (self : MeshtasticInterface)
    : MeshtasticInterface :=
  let self := sleep 500 self in
  let self := set_readers self (S (readers self)) in
  set_online self true.

(** The [try] block of [reconnect_port]. *)
Definition reconnect_attempt (self : MeshtasticInterface)
    : MeshtasticInterface * outcome unit :=
  let self := sleep 5000 self in
  match open_port self with
  | (self, Raised e) => (self, Raised e)
  | (self, Returned _) => (configure_device self, Returned tt)
  end.

Fixpoint reconnect_port (fuel : nat) (self : MeshtasticInterface)
    : run unit :=
  match fuel with
  | O => Looping self
  | S fuel' =>
      if negb (online self) then
        match reconnect_attempt self with
        | (self, Raised e) =>      (* except Exception: logged *)
            reconnect_port fuel' self
        | (self, Returned _) => reconnect_port fuel' self
        end
      else Done self (Returned tt)
  end.

(** [read_loop] on the successive results of [recv]; when they are
    used up the thread has slept once more and is blocked in [recv]. *)
Fixpoint read_loop (fuel : nat) (self : MeshtasticInterface)
    (reads : list bytes) : run unit :=
  let self := sleep 50 self in
  match reads with
  | [] => Looping self
  | buf :: reads' =>
      match read_iteration self buf with
      | Continue self => read_loop fuel self reads'
      | Raise self e => Done self (Raised e)
      | Return self =>
          let self := set_online self false in
          reconnect_port fuel self
      end
  end.

(** *** Vocabulary of the statements *)

(** The inner message [inner] of a frame that the loop decodes to [p]:
    between 1 and 65535 bytes long, and read by the codec as [p]. *)
Definition carried (inner : bytes) (p : MeshPacket) : Prop :=
  0 < len inner < 65536 /\ FromString_packet inner = Some p.

(** The number of fragments, as [range] computes it. *)
Definition fragment_count (data : bytes) : Z :=
  (len data + MAX_LEN - 1) / MAX_LEN.

(** A packet of the subscribed channel that carries a payload and is
    not the sentinel. *)
Definition buffered_by (rx : MeshtasticInterface) (p : MeshPacket) : Prop :=
  exists d, decoded p = Some d /\ mesh_pb2.channel p = channel rx
            /\ portnum d <> mesh_port_num rx + 1.

(** Two packets with the same channel and the same application
    payload: what a packet sent keeps on its way through the devices,
    which set the other fields as they see fit. *)
Definition same_content (p q : MeshPacket) : Prop :=
  mesh_pb2.channel p = mesh_pb2.channel q /\ decoded p = decoded q.

(** The [ToRadio] message written for [p], read as a [FromRadio]
    message, holds no application payload: the two message types do not
    keep the packet in the same field. *)
Definition read_back_empty (p : MeshPacket) : Prop :=
  exists q : MeshPacket,
    carried (SerializeToString (TR_packet p)) q /\ decoded q = None.

(** Encoding [data] at [tx], decoding the concatenated frames at [rx]
    and reassembling delivers exactly the one message [data]. *)
Definition round_trips (tx rx : MeshtasticInterface) (data : bytes) : Prop :=
  exists (frames : list bytes) (rx1 : MeshtasticInterface)
         (packets : list MeshPacket),
    _create_mesh_packets tx data = Returned frames /\
    _decode_mesh_packets rx (concat frames) = (rx1, Returned packets) /\
    inbound (fold_left accept_packet packets rx1) = inbound rx ++ [data].

(** The interface after [pieces] went out on the socket and were
    counted. *)
Definition sent_state (self : MeshtasticInterface) (pieces : list bytes)
    : MeshtasticInterface :=
  set_txb
    (set_sock self {| wire := wire (_sock self) ++ concat pieces |})
    (txb self + len (concat pieces)).

(** [pieces] are leading parts of the first packets of [packets], one
    for one and in order. *)
Definition sent_in_order (pieces packets : list bytes) : Prop :=
  Forall2 (fun piece packet => exists n, piece = firstn n packet)
          pieces (firstn (length pieces) packets).

(** Whether the [n]-th [open_port] goes through: the connection is
    made and the configuration request is sent. *)
Definition open_succeeds (n : nat) : bool :=
  connect_ok n &&
  match accepts [] _request_mesh_config_info_packet with
  | Some _ => true
  | None => false
  end.

(** The interface after [n] more attempts that failed. *)
Definition failed_attempts (n : nat) (self : MeshtasticInterface)
    : MeshtasticInterface :=
  set_connects (sleep (5000 * Z.of_nat n) self) (connects self + n).

(** The interface after a further attempt that went through. *)
Definition reconnected (self : MeshtasticInterface) (k : nat)
    : MeshtasticInterface :=
  configure_device
    (set_sock (failed_attempts 1 self)
       {| wire := firstn k _request_mesh_config_info_packet |}).

(** *** Further vocabulary *)

(** [self.HW_MTU], as [__init__] sets it. *)
Definition HW_MTU : Z := DATA_PAYLOAD_LEN - 10.

(** Successive calls of [_decode_mesh_packets], one for each chunk, as
    [read_loop] makes them, with the packets of all calls in order. *)
Fixpoint decode_chunks (self : MeshtasticInterface) (chunks : list bytes)
    : MeshtasticInterface * outcome (list MeshPacket) :=
  match chunks with
  | [] => (self, Returned [])
  | data :: chunks' =>
      match _decode_mesh_packets self data with
      | (self1, Raised e) => (self1, Raised e)
      | (self1, Returned packets) =>
          match decode_chunks self1 chunks' with
          | (self2, Raised e) => (self2, Raised e)
          | (self2, Returned packets') => (self2, Returned (packets ++ packets'))
          end
      end
  end.

(** The buffer [b] holds the beginning of the first of the frames still
    to come, and not all of it. *)
Definition pending (b : bytes) (inners : list bytes) : Prop :=
  match inners with
  | [] => b = []
  | inner :: _ =>
      exists k : nat,
        (k < length (wire_frame inner))%nat /\ b = firstn k (wire_frame inner)
  end.

(** Whether [read_loop] takes the packet up: it has an application
    payload and is on the subscribed channel. *)
Definition taken_up (rx : MeshtasticInterface) (p : MeshPacket) : bool :=
  match decoded p with
  | Some _ => mesh_pb2.channel p =? channel rx
  | None => false
  end.

(** Whether the packet is taken up and carries the sentinel port. *)
Definition is_sentinel (rx : MeshtasticInterface) (p : MeshPacket) : bool :=
  match decoded p with
  | Some d =>
      (mesh_pb2.channel p =? channel rx) && (portnum d =? mesh_port_num rx + 1)
  | None => false
  end.

(** The interface at the end of a run, or where the fuel ran out. *)
Definition run_state {A : Type} (r : run A) : MeshtasticInterface :=
  match r with
  | Done self _ => self
  | Looping self => self
  end.

(** *** [meshtastic_utils.py]: the stateless encoder and decoder

    [rns_over_meshtastic_bridge.py] has the same two functions, with
    the port number fixed to [PRIVATE_APP]. *)

(** The [n]-th value that [random.randint(0, 0x7FFFFFFF)] returns. *)
Variable randint : nat -> Z.

Definition MAX_MESH_PACKET : Z := DATA_PAYLOAD_LEN - 1.

(** The [mesh_packet] of the loop iteration that starts at
    [start_byte], when [drawn] random numbers were drawn before. *)
Definition utils_packet_at (data : bytes) (mesh_channel portnum : Z)
    (drawn : nat) (start_byte : Z) : MeshPacket :=
  {| to := MESH_DEST_ADDR;
     id := randint drawn;
     mesh_pb2.channel := mesh_channel;
     want_ack := false;
     decoded := Some
       {| portnum := portnum;
          payload := slice data start_byte (start_byte + MAX_MESH_PACKET) |} |}.

(** The [for] loop of [create_mesh_packet], with its [result += ...]. *)
Fixpoint create_mesh_packet_loop (data : bytes) (mesh_channel portnum : Z)
    (drawn : nat) (starts : list Z) (result : bytes) : bytes :=
  match starts with
  | [] => result
  | start_byte :: starts' =>
      create_mesh_packet_loop data mesh_channel portnum (S drawn) starts'
        (result
         ++ frame_of (utils_packet_at data mesh_channel portnum drawn start_byte))
  end.

(** [create_mesh_packet(data, mesh_channel, portnum)], when [drawn]
    random numbers were drawn before the call. *)
Definition create_mesh_packet (drawn : nat) (data : bytes)
    (mesh_channel portnum : Z) : outcome bytes :=
  match py_range (len data) MAX_MESH_PACKET with
  | Raised e => Raised e
  | Returned starts =>
      Returned
        (create_mesh_packet_loop data mesh_channel portnum drawn starts [])
  end.

(** The body of [while idx < len(data)] in [decode_mesh_packets]: the
    next [idx] and [result]. *)
Definition decode_mesh_packets_iteration (data : bytes) (idx : Z)
    (result : list MeshPacket) : attempt (Z * list MeshPacket) :=
  match getitem data idx with
  | Failure e => Failure e
  | Success b0 =>
      if b0 =? MT_MAGIC_0 then
        match getitem data (idx + 1) with
        | Failure e => Failure e
        | Success b1 =>
            if b1 =? MT_MAGIC_1 then
              match getitem data (idx + 2) with
              | Failure e => Failure e
              | Success b2 =>
                  match getitem data (idx + 3) with
                  | Failure e => Failure e
                  | Success b3 =>
                      let payload_len := Z.lor (Z.shiftl b2 8) b3 in
                      let start_packet_idx := idx + 4 in
                      let end_packet_idx := start_packet_idx + payload_len in
                      let packet_buf :=
                        slice data start_packet_idx end_packet_idx in
                      match FromString_packet packet_buf with
                      | None => Failure (Builtin DecodeError)
                      | Some packet =>
                          Success (end_packet_idx, result ++ [packet])
                      end
                  end
              end
            else Success (idx + 1, result)
        end
      else Success (idx + 1, result)
  end.

Fixpoint decode_mesh_packets_loop (fuel : nat) (data : bytes) (idx : Z)
    (result : list MeshPacket) : option (attempt (list MeshPacket)) :=
  match fuel with
  | O => None
  | S fuel' =>
      if idx <? len data then
        match decode_mesh_packets_iteration data idx result with
        | Failure e => Some (Failure e)
        | Success (idx', result') =>
            decode_mesh_packets_loop fuel' data idx' result'
        end
      else Some (Success result)
  end.

Definition decode_mesh_packets (data : bytes) : attempt (list MeshPacket) :=
  (* the fuel is never short: [decode_mesh_packets_fuel] *)
  match decode_mesh_packets_loop (S (length data)) data 0 [] with
  | Some r => r
  | None => Success []
  end.

(** What the bridge writes to [stdout] for the bytes of one [recv] on
    the socket: the payloads of the packets of its channel. *)
Definition bridge_stdout (data : bytes) (mesh_channel : Z) : attempt bytes :=
  match decode_mesh_packets data with
  | Failure e => Failure e
  | Success packets =>
      Success
        (concat
           (map decoded_payload
              (filter (fun packet =>
                         match decoded packet with
                         | Some _ => mesh_pb2.channel packet =? mesh_channel
                         | None => false
                         end)
                      packets)))
  end.

(** A frame the stateless decoder reads whole: its inner message fits
    the 16-bit prefix and the codec reads it as [p]. *)
Definition framed (inner : bytes) (p : MeshPacket) : Prop :=
  len inner < 65536 /\ FromString_packet inner = Some p.

(** The mesh packets behind the bytes of [create_mesh_packet]. *)
Fixpoint utils_packets_from (data : bytes) (mesh_channel portnum : Z)
    (drawn : nat) (starts : list Z) : list MeshPacket :=
  match starts with
  | [] => []
  | start_byte :: starts' =>
      utils_packet_at data mesh_channel portnum drawn start_byte
      :: utils_packets_from data mesh_channel portnum (S drawn) starts'
  end.

Definition utils_packets (drawn : nat) (data : bytes)
    (mesh_channel portnum : Z) : list MeshPacket :=
  match py_range (len data) MAX_MESH_PACKET with
  | Raised e => []
  | Returned starts =>
      utils_packets_from data mesh_channel portnum drawn starts
  end.

(** *** Construction *)

(** [int(s)] on a configuration value; [None] when it raises
    [ValueError]. *)
Variable int : String.string -> option Z.

(** [portnums_pb2.PRIVATE_APP] *)
Variable PRIVATE_APP : Z.

(** [int(ifconf[key]) if key in ifconf else default] *)
Definition int_or (ifconf : ConfigObj) (key : String.string)
    (default : option Z) : attempt (option Z) :=
  match ifconf key with
  | Some s =>
      match int s with
      | Some n => Success (Some n)
      | None => Failure (Builtin ValueError)
      end
  | None => Success default
  end.

(** [MeshtasticInterface(owner, configuration)], with the [meshtastic]
    module installed: the attributes and the interface, or the
    exception that ends the construction. *)
Definition __init__ (ifconf : ConfigObj)
    : attempt (Attributes * MeshtasticInterface) :=
  match ifconf "name"%string with
  | None => Failure KeyError
  | Some name =>
      let host := ifconf "host"%string in
      match int_or ifconf "port"%string (Some 4403) with
      | Failure e => Failure e
      | Success port =>
          match int_or ifconf "channel"%string None with
          | Failure e => Failure e
          | Success channel =>
              match host, port, channel with
              | None, _, _ => Failure (Builtin ValueError)
              | _, None, _ => Failure (Builtin ValueError)
              | _, _, None => Failure (Builtin ValueError)
              | Some host, Some port, Some channel =>
                  let self :=
                    {| channel := channel; mesh_port_num := PRIVATE_APP;
                       online := false;
                       _recvbuf := []; _recv_partial_msg := [];
                       rxb := 0; txb := 0; _sock := {| wire := [] |};
                       inbound := []; connects := 0; slept := 0;
                       readers := 0 |} in
                  let attributes :=
                    {| name := name; host := host; port := port;
                       hw_mtu := HW_MTU; timeout := 1000; bitrate := 9000 |} in
                  match open_port self with
                  | (self, Raised e) => Failure (Builtin e)
                  | (self, Returned _) =>
                      Success (attributes, configure_device self)
                  end
              end
          end
      end
  end.

(** *** [meshtastic_lxmf_proxy.py]: waiting for the path *)

Definition MAX_ROUTE_TIMEOUT_MINS : Z := 60.

(** The [n]-th answer of [RNS.Transport.has_path(recipient_hash)]. *)
Variable has_path : nat -> bool.

(** [timeout/10 < MAX_ROUTE_TIMEOUT_MINS], a true division. *)
Definition within_timeout (timeout : Z) : bool :=
  match QArith_base.Qcompare
          (QArith_base.Qdiv (QArith_base.inject_Z timeout)
                            (QArith_base.inject_Z 10))
          (QArith_base.inject_Z MAX_ROUTE_TIMEOUT_MINS) with
  | Lt => true
  | _ => false
  end.

(** The [while] loop of [init_rns]; the body does not assign
    [timeout]. *)
Fixpoint wait_for_path (fuel : nat) (timeout : Z) (w : PathWait) : wait :=
  match fuel with
  | O => StillWaiting w
  | S fuel' =>
      let polled :=
        {| polls := S (polls w); path_requests := path_requests w;
           seconds_slept := seconds_slept w |} in
      if negb (has_path (polls w)) && within_timeout timeout then
        wait_for_path fuel' timeout
          {| polls := polls polled;
             path_requests := S (path_requests polled);
             seconds_slept := seconds_slept polled + 6 |}
      else Exited polled
  end.

(** [timeout = 0] and the loop, as [init_rns] runs them. *)
Definition init_rns_wait (fuel : nat) : wait :=
  wait_for_path fuel 0
    {| polls := 0; path_requests := 0; seconds_slept := 0 |}.

(** *** [meshtastic_utils.py]: [MeshtasticHandle] *)

(** [text.encode('utf-8')] *)
Variable encode_utf8 : String.string -> bytes.

(** [payload.decode("utf-8", errors="backslashreplace")], which
    raises on no input. *)
Variable decode_utf8 : bytes -> String.string.

(** [portnums_pb2.TEXT_MESSAGE_APP] *)
Variable TEXT_MESSAGE_APP : Z.

(** What [send_text] and [send_data] hand to [sock.send], for a handle
    on [mesh_channel]. *)
Definition send_text (drawn : nat) (mesh_channel : Z) (text : String.string)
    : outcome bytes :=
  create_mesh_packet drawn (encode_utf8 text) mesh_channel TEXT_MESSAGE_APP.

Definition send_data (drawn : nat) (mesh_channel : Z) (text : String.string)
    : outcome bytes :=
  create_mesh_packet drawn (encode_utf8 text) mesh_channel PRIVATE_APP.

(** The arguments of the calls of [callback] that [_recv_loop] makes
    for the bytes of one [recv], in order. *)
Definition _recv_loop_callbacks (data : bytes) (mesh_channel : Z)
    : attempt (list String.string) :=
  match decode_mesh_packets data with
  | Failure e => Failure e
  | Success packets =>
      Success
        (map (fun packet => decode_utf8 (decoded_payload packet))
             (filter (fun packet =>
                        match decoded packet with
                        | Some _ => mesh_pb2.channel packet =? mesh_channel
                        | None => false
                        end)
                     packets))
  end.

(** ** Properties *)

(** *** Bytes, slices and the length prefix *)

Lemma int_of_byte_range (b : byte) : 0 <= int_of_byte b < 256.
Proof.
  unfold int_of_byte. pose proof (Byte.to_N_bounded b). lia.
Qed.

Lemma int_of_byte_of_int (z : Z) :
  0 <= z < 256 -> int_of_byte (byte_of_int z) = z.
Proof.
  intros Hz. unfold int_of_byte, byte_of_int.
  destruct (Byte.of_N (Z.to_N z)) as [b|] eqn:E.
  - apply Byte.to_of_N in E. rewrite E. lia.
  - apply Byte.of_N_None_iff in E. lia.
Qed.

Lemma lor_shiftl_8 (hi lo : Z) :
  0 <= lo < 256 -> Z.lor (Z.shiftl hi 8) lo = 256 * hi + lo.
Proof.
  intros Hlo.
  assert (Hdisj : Z.land (Z.shiftl hi 8) lo = 0).
  { apply Z.bits_inj'. intros i Hi.
    rewrite Z.land_spec, Z.bits_0, Z.shiftl_spec by lia.
    destruct (Z.lt_ge_cases i 8) as [Hlt | Hge].
    - rewrite Z.testbit_neg_r by lia. reflexivity.
    - assert (Hl : Z.testbit lo i = false).
      { replace lo with (lo mod 2 ^ 8) by (apply Z.mod_small; simpl; lia).
        apply Z.mod_pow2_bits_high. lia. }
      rewrite Hl. apply andb_false_r. }
  pose proof (Z.add_lor_land (Z.shiftl hi 8) lo) as Hsum.
  rewrite Hdisj in Hsum.
  rewrite (Z.shiftl_mul_pow2 hi 8) in Hsum at 2 by lia.
  change (2 ^ 8) with 256 in Hsum. lia.
Qed.

Lemma length_prefix_split (n : Z) :
  0 <= n < 65536 ->
  0 <= Z.land (Z.shiftr n 8) 0xFF < 256 /\
  0 <= Z.land n 0xFF < 256 /\
  256 * Z.land (Z.shiftr n 8) 0xFF + Z.land n 0xFF = n.
Proof.
  intros Hn.
  change 0xFF with (Z.ones 8).
  rewrite !Z.land_ones, Z.shiftr_div_pow2 by lia.
  change (2 ^ 8) with 256.
  assert (0 <= n / 256 < 256)
    by (split; [apply Z.div_pos | apply Z.div_lt_upper_bound]; lia).
  rewrite (Z.mod_small (n / 256) 256) by assumption.
  pose proof (Z.mod_pos_bound n 256 ltac:(lia)).
  pose proof (Z.div_mod n 256 ltac:(lia)).
  lia.
Qed.

Lemma len_nonneg {A : Type} (l : list A) : 0 <= len l.
Proof. unfold len. lia. Qed.

Lemma len_app {A : Type} (l1 l2 : list A) : len (l1 ++ l2) = len l1 + len l2.
Proof. unfold len. rewrite length_app. lia. Qed.

Lemma len_wire_frame (inner : bytes) : len (wire_frame inner) = 4 + len inner.
Proof. unfold wire_frame. rewrite len_app. reflexivity. Qed.

Lemma length_wire_frame (inner : bytes) :
  length (wire_frame inner) = (4 + length inner)%nat.
Proof. reflexivity. Qed.

(** The header of a frame reads back as the two magic bytes and the
    length of the inner message, for lengths that fit 16 bits. *)
Lemma frame_header_reads (n : Z) (rest : bytes) :
  0 <= n < 65536 ->
  byte_at (frame_header n ++ rest) 0 = MT_MAGIC_0 /\
  byte_at (frame_header n ++ rest) 1 = MT_MAGIC_1 /\
  Z.lor (Z.shiftl (byte_at (frame_header n ++ rest) 2) 8)
        (byte_at (frame_header n ++ rest) 3) = n.
Proof.
  intros Hn.
  destruct (length_prefix_split n Hn) as (Hhi & Hlo & Hsum).
  unfold frame_header, byte_at. cbn [app nth].
  rewrite !int_of_byte_of_int by (assumption || (unfold MT_MAGIC_0, MT_MAGIC_1; lia)).
  rewrite lor_shiftl_8 by assumption.
  auto.
Qed.

Lemma slice_frame_inner (inner rest : bytes) :
  slice (wire_frame inner ++ rest) 4 (4 + len inner) = inner.
Proof.
  unfold slice, wire_frame, frame_header.
  replace (Z.to_nat (4 + len inner - 4)) with (length inner) by (unfold len; lia).
  change (Z.to_nat 4) with 4%nat. cbn [app skipn].
  rewrite firstn_app, Nat.sub_diag, firstn_all. cbn [firstn].
  apply app_nil_r.
Qed.

Lemma slice_from_frame (inner rest : bytes) :
  slice_from (wire_frame inner ++ rest) (4 + len inner) = rest.
Proof.
  unfold slice_from.
  replace (Z.to_nat (4 + len inner)) with (length (wire_frame inner))
    by (rewrite length_wire_frame; unfold len; lia).
  rewrite skipn_app, Nat.sub_diag, skipn_all. reflexivity.
Qed.

(** *** The decoder loop *)

Lemma wire_frame_reads (inner rest : bytes) :
  len inner < 65536 ->
  has_magic (wire_frame inner ++ rest) = true /\
  read_payload_len (wire_frame inner ++ rest) = len inner.
Proof.
  intros Hlen. pose proof (len_nonneg inner) as Hpos.
  unfold wire_frame, has_magic, read_payload_len.
  cbv zeta. rewrite <- app_assoc.
  destruct (frame_header_reads (len inner) (inner ++ rest)) as (H0 & H1 & HL);
    [lia|].
  rewrite H0, H1, HL, !Z.eqb_refl. auto.
Qed.

Lemma read_payload_len_nonneg (recvbuf : bytes) : 0 <= read_payload_len recvbuf.
Proof.
  unfold read_payload_len, byte_at.
  pose proof (int_of_byte_range (nth 2 recvbuf x00)).
  pose proof (int_of_byte_range (nth 3 recvbuf x00)).
  rewrite lor_shiftl_8 by assumption. lia.
Qed.

(** A complete frame at the head of the buffer is decoded and cut off. *)
Lemma decode_iteration_frame (inner rest : bytes) (result : list MeshPacket)
    (p : MeshPacket) :
  len inner < 65536 ->
  FromString_packet inner = Some p ->
  decode_iteration (wire_frame inner ++ rest) result
  = Continue (rest, result ++ [p]).
Proof.
  intros Hlen Hp. unfold decode_iteration.
  destruct (wire_frame_reads inner rest Hlen) as (Hm & HL).
  rewrite Hm, HL. cbv zeta.
  rewrite len_app, len_wire_frame.
  pose proof (len_nonneg rest).
  destruct (Z.ltb_spec (4 + len inner + len rest) (4 + len inner)); [lia|].
  rewrite slice_frame_inner, Hp, slice_from_frame. reflexivity.
Qed.

Lemma len_skipn {A : Type} (n : nat) (l : list A) :
  (n <= length l)%nat -> len (skipn n l) = len l - Z.of_nat n.
Proof. intros Hn. unfold len. rewrite length_skipn. lia. Qed.

(** What one pass of the loop does, case by case. *)
Lemma decode_iteration_cases (recvbuf : bytes) (result : list MeshPacket) :
  4 < len recvbuf ->
  match decode_iteration recvbuf result with
  | Continue (recvbuf', result') =>
      (has_magic recvbuf = false /\
       recvbuf' = skipn 1 recvbuf /\ result' = result /\
       len recvbuf' = len recvbuf - 1)
      \/
      (has_magic recvbuf = true /\
       exists packet,
         FromString_packet (slice recvbuf 4 (4 + read_payload_len recvbuf))
         = Some packet /\
         recvbuf' = skipn (Z.to_nat (4 + read_payload_len recvbuf)) recvbuf /\
         result' = result ++ [packet] /\
         len recvbuf' = len recvbuf - (4 + read_payload_len recvbuf))
  | Return r =>
      r = result /\ has_magic recvbuf = true /\
      len recvbuf < 4 + read_payload_len recvbuf
  | Raise s e =>
      s = (recvbuf, result) /\ e = DecodeError /\ has_magic recvbuf = true /\
      FromString_packet (slice recvbuf 4 (4 + read_payload_len recvbuf)) = None
  end.
Proof.
  intros Hlen. unfold decode_iteration.
  pose proof (read_payload_len_nonneg recvbuf) as HL.
  destruct (has_magic recvbuf) eqn:Hm; cbv zeta.
  - destruct (Z.ltb_spec (len recvbuf) (4 + read_payload_len recvbuf)) as [Hlt | Hge].
    + auto.
    + destruct (FromString_packet _) as [packet|] eqn:Hp.
      * right. split; [reflexivity|]. exists packet.
        unfold slice_from. repeat split; try reflexivity.
        rewrite len_skipn by (unfold len in *; lia). lia.
      * auto.
  - left. unfold slice_from. change (Z.to_nat 1) with 1%nat.
    repeat split. rewrite len_skipn by (unfold len in *; lia). lia.
Qed.

(** Every pass that goes round again has shortened the buffer. *)
Lemma decode_iteration_shrinks (recvbuf recvbuf' : bytes)
    (result result' : list MeshPacket) :
  4 < len recvbuf ->
  decode_iteration recvbuf result = Continue (recvbuf', result') ->
  (length recvbuf' < length recvbuf)%nat.
Proof.
  intros Hlen Hit.
  pose proof (decode_iteration_cases recvbuf result Hlen) as Hc.
  pose proof (read_payload_len_nonneg recvbuf) as HL.
  rewrite Hit in Hc. unfold len in *.
  destruct Hc as [(_ & _ & _ & Hl) | (_ & packet & _ & _ & _ & Hl)]; lia.
Qed.

(** Fuel above the buffer length is always enough. *)
Lemma decode_loop_fuel (fuel : nat) :
  forall (recvbuf : bytes) (result : list MeshPacket),
    (length recvbuf < fuel)%nat ->
    exists recvbuf' out,
      decode_loop fuel recvbuf result = Some (recvbuf', out) /\
      (length recvbuf' <= length recvbuf)%nat.
Proof.
  induction fuel as [|fuel IH]; intros recvbuf result Hfuel; [lia|].
  cbn [decode_loop].
  destruct (Z.ltb_spec 4 (len recvbuf)) as [Hlen | Hlen].
  - destruct (decode_iteration recvbuf result) as [[recvbuf1 result1] | r | [b r] e] eqn:Hit.
    + pose proof (decode_iteration_shrinks _ _ _ _ Hlen Hit) as Hsh.
      destruct (IH recvbuf1 result1) as (b' & out & Hrun & Hle); [lia|].
      exists b', out. split; [assumption | lia].
    + eauto.
    + pose proof (decode_iteration_cases recvbuf result Hlen) as Hc.
      rewrite Hit in Hc. destruct Hc as (Hs & _). inversion Hs; subst. eauto.
  - eauto.
Qed.

(** Once the loop has an answer, more fuel gives the same answer. *)
Lemma decode_loop_more_fuel (fuel : nat) :
  forall (fuel' : nat) (recvbuf : bytes) (result : list MeshPacket) r,
    decode_loop fuel recvbuf result = Some r ->
    (fuel <= fuel')%nat ->
    decode_loop fuel' recvbuf result = Some r.
Proof.
  induction fuel as [|fuel IH]; intros fuel' recvbuf result r Hrun Hle;
    [discriminate|].
  destruct fuel' as [|fuel']; [lia|].
  cbn [decode_loop] in *.
  destruct (4 <? len recvbuf); [|assumption].
  destruct (decode_iteration recvbuf result) as [[recvbuf1 result1] | ? | [? ?] ?];
    try assumption.
  apply IH; [assumption | lia].
Qed.

(** A run of complete frames is decoded frame by frame, provided no
    inner message is empty or too long for the 16-bit prefix. *)
Lemma decode_loop_frames (inners : list bytes) (packets : list MeshPacket) :
  Forall2 carried inners packets ->
  forall (fuel : nat) (result : list MeshPacket),
    (length inners < fuel)%nat ->
    decode_loop fuel (concat (map wire_frame inners)) result
    = Some ([], Returned (result ++ packets)).
Proof.
  induction 1 as [| inner p inners packets [Hlen Hp] _ IH];
    intros fuel result Hfuel.
  - destruct fuel; [inversion Hfuel|]. cbn. rewrite app_nil_r. reflexivity.
  - destruct fuel as [|fuel]; [inversion Hfuel|].
    cbn [map concat decode_loop].
    rewrite len_app, len_wire_frame.
    pose proof (len_nonneg (concat (map wire_frame inners))).
    destruct (Z.ltb_spec 4 (4 + len inner + len (concat (map wire_frame inners))));
      [|lia].
    rewrite (decode_iteration_frame inner _ result p) by (lia || assumption).
    rewrite IH by (cbn in Hfuel; lia).
    rewrite <- app_assoc. reflexivity.
Qed.

Lemma length_concat_frames (inners : list bytes) :
  (length inners <= length (concat (map wire_frame inners)))%nat.
Proof.
  induction inners as [|inner inners IH]; cbn [map concat length]; [lia|].
  rewrite length_app, length_wire_frame. lia.
Qed.

Lemma find_magic_first (inner rest : bytes) :
  find (wire_frame inner ++ rest) MT_MAGIC_0 = 0.
Proof.
  unfold find, wire_frame, frame_header. cbn [app find_from].
  rewrite int_of_byte_of_int by (unfold MT_MAGIC_0; lia).
  rewrite Z.eqb_refl. reflexivity.
Qed.

Lemma decode_frames (self : MeshtasticInterface) (data : bytes)
    (inners : list bytes) (packets : list MeshPacket) :
  _recvbuf self ++ data = concat (map wire_frame inners) ->
  Forall2 carried inners packets ->
  _decode_mesh_packets self data = (set_recvbuf self [], Returned packets).
Proof.
  intros Hbuf Hall. unfold _decode_mesh_packets. rewrite Hbuf.
  destruct Hall as [| inner p inners packets Hc Hall]; [reflexivity|].
  cbn [map concat].
  rewrite find_magic_first. cbn [Z.ltb Z.compare]. unfold resync.
  cbn [Z.ltb Z.compare].
  pose proof (Forall2_cons _ _ Hc Hall) as Hall'.
  pose proof (decode_loop_frames _ _ Hall' (S (length (inner :: inners))) []
                ltac:(lia)) as Hrun.
  cbn [map concat] in Hrun.
  rewrite (decode_loop_more_fuel _ (S (length (wire_frame inner
             ++ concat (map wire_frame inners)))) _ _ _ Hrun).
  - reflexivity.
  - pose proof (length_concat_frames (inner :: inners)) as Hl.
    cbn [map concat] in Hl. lia.
Qed.

(** *** Fragments *)

Lemma firstn_add {A : Type} (a b : nat) :
  forall l : list A, firstn (a + b) l = firstn a l ++ firstn b (skipn a l).
Proof.
  induction a as [|a IH]; intros l; [reflexivity|].
  destruct l as [|x l]; cbn [Nat.add firstn skipn app].
  - rewrite firstn_nil. reflexivity.
  - rewrite IH. reflexivity.
Qed.

Lemma concat_chunks {A : Type} (m : nat) (l : list A) (n : nat) :
  forall a : nat,
    concat (map (fun i => firstn m (skipn (i * m) l)) (seq a n))
    = firstn (n * m) (skipn (a * m) l).
Proof.
  induction n as [|n IH]; intros a; [reflexivity|].
  cbn [seq map concat]. rewrite IH.
  cbn [Nat.mul]. rewrite firstn_add, skipn_skipn. reflexivity.
Qed.

Lemma slice_chunk {A : Type} (l : list A) (M : Z) (i : nat) :
  0 < M ->
  slice l (Z.of_nat i * M) (Z.of_nat i * M + M)
  = firstn (Z.to_nat M) (skipn (i * Z.to_nat M) l).
Proof.
  intros HM. unfold slice. f_equal; [f_equal; lia|].
  f_equal. rewrite Z2Nat.inj_mul, Nat2Z.id by lia. reflexivity.
Qed.

Lemma fragment_count_ceil (data : bytes) :
  0 < MAX_LEN ->
  (fragment_count data - 1) * MAX_LEN < len data
  /\ len data <= fragment_count data * MAX_LEN.
Proof.
  intros HM. unfold fragment_count.
  pose proof (Z.div_mod (len data + MAX_LEN - 1) MAX_LEN ltac:(lia)) as Hdm.
  pose proof (Z.mod_pos_bound (len data + MAX_LEN - 1) MAX_LEN HM) as Hr.
  nia.
Qed.

Lemma fragment_count_pos (data : bytes) :
  0 < MAX_LEN -> data <> [] -> 0 < fragment_count data.
Proof.
  intros HM Hne.
  destruct (fragment_count_ceil data HM) as [_ Hub].
  assert (0 < len data) by (destruct data; [congruence | unfold len; cbn; lia]).
  nia.
Qed.

Lemma fragment_packets_seq (self : MeshtasticInterface) (data : bytes) :
  0 < MAX_LEN ->
  fragment_packets self data
  = map (fun i => mesh_packet_at self data (Z.of_nat i * MAX_LEN))
        (seq 0 (Z.to_nat (fragment_count data))).
Proof.
  intros HM. unfold fragment_packets, py_range.
  destruct (Z.eqb_spec MAX_LEN 0); [lia|].
  destruct (Z.ltb_spec MAX_LEN 0); [lia|].
  rewrite map_map. reflexivity.
Qed.

Lemma create_mesh_packets_frames (self : MeshtasticInterface) (data : bytes) :
  MAX_LEN <> 0 ->
  _create_mesh_packets self data
  = Returned (map frame_of (fragment_packets self data)).
Proof.
  intros HM. unfold _create_mesh_packets, fragment_packets, py_range.
  destruct (Z.eqb_spec MAX_LEN 0); [contradiction|].
  destruct (MAX_LEN <? 0); [reflexivity|].
  rewrite !map_map. reflexivity.
Qed.

(** The [i]-th fragment: the [i]-th slice, marked final exactly when
    it is the last. *)
Lemma mesh_packet_at_index (self : MeshtasticInterface) (data : bytes)
    (i : nat) :
  0 < MAX_LEN ->
  Z.of_nat i < fragment_count data ->
  mesh_packet_at self data (Z.of_nat i * MAX_LEN)
  = fragment self
      (if Z.of_nat i =? fragment_count data - 1
       then mesh_port_num self + 1 else mesh_port_num self)
      (slice data (Z.of_nat i * MAX_LEN) (Z.of_nat i * MAX_LEN + MAX_LEN)).
Proof.
  intros HM Hi. unfold mesh_packet_at. f_equal.
  destruct (fragment_count_ceil data HM) as [Hlb Hub].
  destruct (Z.eqb_spec (Z.of_nat i) (fragment_count data - 1)) as [He | Hne];
    destruct (Z.leb_spec (len data) (Z.of_nat i * MAX_LEN + MAX_LEN));
    try reflexivity; nia.
Qed.

Lemma fragment_payloads (self : MeshtasticInterface) (data : bytes) :
  0 < MAX_LEN ->
  concat (map decoded_payload (fragment_packets self data)) = data.
Proof.
  intros HM. rewrite fragment_packets_seq by assumption.
  rewrite map_map.
  rewrite (map_ext _ (fun i => firstn (Z.to_nat MAX_LEN)
                                 (skipn (i * Z.to_nat MAX_LEN) data))).
  - rewrite concat_chunks. cbn [Nat.mul skipn].
    apply firstn_all2.
    destruct (fragment_count_ceil data HM) as [_ Hub].
    unfold len in Hub. nia.
  - intros i. unfold mesh_packet_at, decoded_payload, fragment. cbn.
    apply slice_chunk. assumption.
Qed.

(** *** Reassembly *)

Lemma accept_packet_buffers (rx : MeshtasticInterface) (p : MeshPacket) :
  buffered_by rx p ->
  accept_packet rx p
  = set_recv_partial_msg rx (_recv_partial_msg rx ++ [p]).
Proof.
  intros (d & Hd & Hch & Hport). unfold accept_packet.
  rewrite Hd, Hch, Z.eqb_refl. cbn.
  destruct (Z.eqb_spec (portnum d) (mesh_port_num rx + 1)); [contradiction|].
  reflexivity.
Qed.

Lemma accept_packets_buffer (ps : list MeshPacket) :
  forall rx : MeshtasticInterface,
    Forall (buffered_by rx) ps ->
    fold_left accept_packet ps rx
    = set_recv_partial_msg rx (_recv_partial_msg rx ++ ps).
Proof.
  induction ps as [|p ps IH]; intros rx Hall.
  - cbn. rewrite app_nil_r. destruct rx; reflexivity.
  - inversion Hall as [|? ? Hp Hps]; subst.
    cbn [fold_left]. rewrite accept_packet_buffers by assumption.
    rewrite IH.
    + unfold set_recv_partial_msg. cbn. rewrite <- app_assoc. reflexivity.
    + revert Hps. apply Forall_impl. intros q Hq. exact Hq.
Qed.

Lemma accept_packet_sentinel (rx : MeshtasticInterface) (p : MeshPacket)
    (d : Data) :
  decoded p = Some d ->
  mesh_pb2.channel p = channel rx ->
  portnum d = mesh_port_num rx + 1 ->
  accept_packet rx p
  = set_recv_partial_msg
      (process_incoming rx
         (concat (map decoded_payload (_recv_partial_msg rx ++ [p])))) [].
Proof.
  intros Hd Hch Hport. unfold accept_packet.
  rewrite Hd, Hch, Z.eqb_refl. cbn. rewrite Hport, Z.eqb_refl.
  reflexivity.
Qed.

(** A whole fragment series: buffered up to the sentinel, then
    delivered as one message and cleared. *)
Lemma accept_packets_series (rx : MeshtasticInterface)
    (body : list MeshPacket) (last : MeshPacket) (d : Data) :
  Forall (buffered_by rx) body ->
  decoded last = Some d ->
  mesh_pb2.channel last = channel rx ->
  portnum d = mesh_port_num rx + 1 ->
  fold_left accept_packet (body ++ [last]) rx
  = set_recv_partial_msg
      (process_incoming rx
         (concat (map decoded_payload
                    (_recv_partial_msg rx ++ body ++ [last])))) [].
Proof.
  intros Hbody Hd Hch Hport.
  rewrite fold_left_app, (accept_packets_buffer body rx) by assumption.
  cbn [fold_left].
  rewrite (accept_packet_sentinel _ last d) by assumption.
  cbn. rewrite <- app_assoc. reflexivity.
Qed.

(** The fragments of a non-empty payload are such a series for every
    receiver on the sender's channel and port base. *)
Lemma fragment_packets_series (tx rx : MeshtasticInterface) (data : bytes) :
  0 < MAX_LEN -> data <> [] ->
  channel rx = channel tx -> mesh_port_num rx = mesh_port_num tx ->
  exists body last d,
    fragment_packets tx data = body ++ [last] /\
    Forall (buffered_by rx) body /\
    decoded last = Some d /\ mesh_pb2.channel last = channel rx /\
    portnum d = mesh_port_num rx + 1.
Proof.
  intros HM Hne Hch Hport.
  pose proof (fragment_count_pos data HM Hne) as Hpos.
  rewrite fragment_packets_seq by assumption.
  destruct (Z.to_nat (fragment_count data)) as [|n] eqn:Hn; [lia|].
  rewrite seq_S, map_app. cbn [Nat.add map].
  eexists _, _, _. split; [reflexivity|].
  split; [|split; [|split]].
  - apply Forall_forall. intros p Hin.
    apply in_map_iff in Hin. destruct Hin as (i & <- & Hi).
    apply in_seq in Hi.
    rewrite mesh_packet_at_index by lia.
    destruct (Z.eqb_spec (Z.of_nat i) (fragment_count data - 1)); [lia|].
    eexists. split; [reflexivity|]. cbn. split; [auto|lia].
  - rewrite mesh_packet_at_index by lia. reflexivity.
  - cbn. auto.
  - cbn. destruct (Z.eqb_spec (Z.of_nat n) (fragment_count data - 1)); lia.
Qed.

(** *** Encoding *)

(** C2, as the code has it: the empty payload is encoded as no frame
    at all.  [range(0, 0, MAX_LEN)] is empty, so the loop body never
    runs and [result] is returned as it was initialised; only a zero
    fragment size makes [range] raise. *)
Theorem create_mesh_packets_empty (self : MeshtasticInterface) :
  _create_mesh_packets self []
  = if MAX_LEN =? 0 then Raised ValueError else Returned [].
Proof.
  unfold _create_mesh_packets, py_range. cbn [len length Z.of_nat].
  destruct (Z.eqb_spec MAX_LEN 0) as [HM | HM]; [reflexivity|].
  destruct (Z.ltb_spec MAX_LEN 0) as [Hneg | Hpos]; [reflexivity|].
  replace ((0 + MAX_LEN - 1) / MAX_LEN) with 0
    by (symmetry; apply Z.div_small; lia).
  reflexivity.
Qed.

(** C3: a non-empty payload is cut into [ceil(len/MAX_LEN)] fragments,
    in order; fragment [i] carries the [i]-th slice, with the port
    base on every fragment but the last and the port base plus one on
    the last.  A payload that exactly fills one fragment gives that
    single fragment, marked final, and 600 bytes cut by 200 give three
    fragments with ports base, base, base + 1. *)
Theorem create_mesh_packets_fragments (self : MeshtasticInterface)
    (data : bytes) :
  0 < MAX_LEN -> data <> [] ->
  let n := fragment_count data in
  let base := mesh_port_num self in
  exists packets : list MeshPacket,
    _create_mesh_packets self data = Returned (map frame_of packets) /\
    len packets = n /\
    (n - 1) * MAX_LEN < len data <= n * MAX_LEN /\
    (forall i : nat,
        Z.of_nat i < n ->
        nth_error packets i
        = Some (fragment self
                  (if Z.of_nat i =? n - 1 then base + 1 else base)
                  (slice data (Z.of_nat i * MAX_LEN)
                              (Z.of_nat i * MAX_LEN + MAX_LEN)))) /\
    concat (map decoded_payload packets) = data /\
    (len data = MAX_LEN -> packets = [fragment self (base + 1) data]) /\
    (len data = 600 -> MAX_LEN = 200 ->
     map (fun p => option_map portnum (decoded p)) packets
     = [Some base; Some base; Some (base + 1)]).
Proof.
  intros HM Hne n base.
  pose proof (fragment_count_ceil data HM) as Hceil.
  pose proof (fragment_count_pos data HM Hne) as Hpos.
  fold n in Hceil, Hpos.
  assert (Hlen : len (fragment_packets self data) = n).
  { rewrite fragment_packets_seq by assumption.
    unfold len. rewrite length_map, length_seq. fold n. lia. }
  assert (Hnth : forall i : nat,
             Z.of_nat i < n ->
             nth_error (fragment_packets self data) i
             = Some (fragment self
                       (if Z.of_nat i =? n - 1 then base + 1 else base)
                       (slice data (Z.of_nat i * MAX_LEN)
                                   (Z.of_nat i * MAX_LEN + MAX_LEN)))).
  { intros i Hi. rewrite fragment_packets_seq by assumption.
    rewrite nth_error_map.
    rewrite (nth_error_nth' _ 0%nat) by (rewrite length_seq; fold n; lia).
    rewrite seq_nth by (fold n; lia).
    cbn [option_map Nat.add].
    rewrite mesh_packet_at_index by (fold n; lia).
    reflexivity. }
  exists (fragment_packets self data).
  split; [apply create_mesh_packets_frames; lia|].
  split; [assumption|].
  split; [lia|].
  split; [assumption|].
  split; [apply fragment_payloads; assumption|].
  split.
  - intros Hfull.
    assert (Hn1 : n = 1) by nia.
    pose proof (Hnth 0%nat ltac:(lia)) as H0.
    rewrite Hn1 in H0, Hlen. cbn [Z.of_nat Z.eqb Z.sub Z.add Z.mul Z.opp Z.pos_sub] in H0.
    destruct (fragment_packets self data) as [|p [|q ps]];
      unfold len in Hlen; cbn [length] in Hlen; try lia.
    cbn in H0. inversion H0 as [Hp].
    unfold slice.
    replace (Z.to_nat (MAX_LEN - 0)) with (length data)
      by (unfold len in Hfull; lia).
    cbn [Z.to_nat skipn]. rewrite firstn_all. reflexivity.
  - intros H600 H200.
    assert (Hn3 : n = 3) by nia.
    pose proof (Hnth 0%nat ltac:(lia)) as H0.
    pose proof (Hnth 1%nat ltac:(lia)) as H1.
    pose proof (Hnth 2%nat ltac:(lia)) as H2.
    rewrite Hn3 in H0, H1, H2, Hlen.
    destruct (fragment_packets self data) as [|p0 [|p1 [|p2 [|p3 ps]]]];
      unfold len in Hlen; cbn [length] in Hlen; try lia.
    cbn in H0, H1, H2.
    inversion H0; inversion H1; inversion H2. reflexivity.
Qed.

(** *** Round trip *)

Lemma same_content_payloads (ps qs : list MeshPacket) :
  Forall2 same_content ps qs ->
  map decoded_payload ps = map decoded_payload qs.
Proof.
  induction 1 as [|p q ps qs [_ Hd] _ IH]; [reflexivity|].
  cbn [map]. unfold decoded_payload at 1 3. rewrite Hd, IH. reflexivity.
Qed.

Lemma set_recvbuf_same (self : MeshtasticInterface) (b : bytes) :
  _recvbuf self = b -> set_recvbuf self b = self.
Proof. intros <-. destruct self; reflexivity. Qed.

Lemma set_recv_partial_msg_same (s : MeshtasticInterface)
    (l : list MeshPacket) :
  _recv_partial_msg s = l -> set_recv_partial_msg s l = s.
Proof. intros <-. destruct s. reflexivity. Qed.

(** The reassembly looks at the channel and the application payload of
    a packet, and at nothing else in it. *)
Lemma accept_packet_same_content (s : MeshtasticInterface)
    (l : list MeshPacket) (p q : MeshPacket) :
  Forall2 same_content (_recv_partial_msg s) l -> same_content p q ->
  exists l' : list MeshPacket,
    Forall2 same_content (_recv_partial_msg (accept_packet s p)) l' /\
    accept_packet (set_recv_partial_msg s l) q
    = set_recv_partial_msg (accept_packet s p) l'.
Proof.
  intros Hl Hpq. pose proof Hpq as [Hch Hd].
  unfold accept_packet. rewrite <- Hd, <- Hch.
  destruct (decoded p) as [d|]; [|exists l; split; [assumption | reflexivity]].
  cbn [channel set_recv_partial_msg].
  destruct (mesh_pb2.channel p =? channel s);
    [|exists l; split; [assumption | reflexivity]].
  assert (Hlq : Forall2 same_content (_recv_partial_msg s ++ [p]) (l ++ [q]))
    by (apply Forall2_app; [assumption | constructor; [exact Hpq | constructor]]).
  cbn [mesh_port_num set_recv_partial_msg _recv_partial_msg].
  destruct (portnum d =? mesh_port_num s + 1).
  - exists []. split; [constructor|].
    rewrite (same_content_payloads _ _ Hlq). reflexivity.
  - exists (l ++ [q]). split; [exact Hlq | reflexivity].
Qed.

Lemma accept_packets_same_content (ps qs : list MeshPacket) :
  Forall2 same_content ps qs ->
  forall (s : MeshtasticInterface) (l : list MeshPacket),
    Forall2 same_content (_recv_partial_msg s) l ->
    exists l' : list MeshPacket,
      Forall2 same_content
        (_recv_partial_msg (fold_left accept_packet ps s)) l' /\
      fold_left accept_packet qs (set_recv_partial_msg s l)
      = set_recv_partial_msg (fold_left accept_packet ps s) l'.
Proof.
  induction 1 as [|p q ps qs Hpq _ IH]; intros s l Hl.
  - exists l. split; [assumption | reflexivity].
  - cbn [fold_left].
    destruct (accept_packet_same_content s l p q Hl Hpq) as (l1 & Hl1 & ->).
    apply IH. exact Hl1.
Qed.

(** Packets with the content of [ps], reassembled from an empty
    fragment list, leave the interface as [ps] do when no fragment is
    left waiting. *)
Lemma accept_packets_received (ps qs : list MeshPacket)
    (s : MeshtasticInterface) :
  Forall2 same_content ps qs ->
  _recv_partial_msg s = [] ->
  _recv_partial_msg (fold_left accept_packet ps s) = [] ->
  fold_left accept_packet qs s = fold_left accept_packet ps s.
Proof.
  intros Hall Hs Hend.
  destruct (accept_packets_same_content ps qs Hall s [])
    as (l' & Hl' & Hrun); [rewrite Hs; constructor|].
  rewrite (set_recv_partial_msg_same s []) in Hrun by assumption.
  rewrite Hend in Hl'. inversion Hl'; subst l'.
  rewrite Hrun. apply set_recv_partial_msg_same. assumption.
Qed.

Lemma len_frames_pos (inner : bytes) (inners : list bytes) :
  (len (concat (map wire_frame (inner :: inners))) =? 0) = false.
Proof.
  cbn [map concat]. rewrite len_app, len_wire_frame.
  pose proof (len_nonneg inner).
  pose proof (len_nonneg (concat (map wire_frame inners))).
  apply Z.eqb_neq. lia.
Qed.

(** C1, for the payloads the code sends and the frames the code reads:
    the fragments of every non-empty payload, so in particular of one
    of length 1, [MAX_LEN - 1] (when that is not 0), [MAX_LEN],
    [MAX_LEN + 1] or [3 * MAX_LEN], are delivered as exactly one
    message equal to the payload, and both receive buffers are left
    empty, when they reach a fresh decoder and reassembly on the same
    channel and port base as one concatenated read of frames that
    carry them: frames whose inner messages, of 1 to 65535 bytes, the
    codec reads as packets with the channel and the application
    payload of the fragments.  The encoder's own frames hold [ToRadio]
    messages and the decoder reads [FromRadio] messages, so they are
    such frames only for a codec that reads the one as the other. *)
Theorem roundtrip_nonempty_payload (tx rx : MeshtasticInterface)
    (data : bytes) (inners : list bytes) (received : list MeshPacket) :
  0 < MAX_LEN -> data <> [] ->
  Forall2 carried inners received ->
  Forall2 same_content (fragment_packets tx data) received ->
  channel rx = channel tx -> mesh_port_num rx = mesh_port_num tx ->
  _recvbuf rx = [] -> _recv_partial_msg rx = [] ->
  let stream := concat (map wire_frame inners) in
  let rx' := process_incoming rx data in
  _create_mesh_packets tx data
  = Returned (map frame_of (fragment_packets tx data)) /\
  _decode_mesh_packets rx stream = (set_recvbuf rx [], Returned received) /\
  fold_left accept_packet received (set_recvbuf rx []) = rx' /\
  read_iteration rx stream = Continue rx' /\
  inbound rx' = inbound rx ++ [data] /\
  _recvbuf rx' = [] /\ _recv_partial_msg rx' = [].
Proof.
  intros HM Hne Hcar Hsame Hch Hport Hbuf Hpart stream rx'.
  assert (Hdec : _decode_mesh_packets rx stream
                 = (set_recvbuf rx [], Returned received))
    by (apply (decode_frames rx stream inners received);
        [rewrite Hbuf; reflexivity | exact Hcar]).
  assert (Hsent : fold_left accept_packet (fragment_packets tx data) rx = rx').
  { pose proof (fragment_payloads tx data HM) as Hdata.
    destruct (fragment_packets_series tx rx data HM Hne Hch Hport)
      as (body & last & d & Hsplit & Hbody & Hd & Hlc & Hlp).
    rewrite Hsplit in *.
    rewrite (accept_packets_series rx body last d) by assumption.
    rewrite Hpart. cbn [app]. rewrite Hdata.
    unfold rx'. destruct rx; cbn in *; subst; reflexivity. }
  assert (Hacc : fold_left accept_packet received (set_recvbuf rx []) = rx').
  { rewrite (set_recvbuf_same rx []) by assumption.
    rewrite (accept_packets_received (fragment_packets tx data) received rx
               Hsame Hpart); rewrite Hsent; [reflexivity | exact Hpart]. }
  split; [apply create_mesh_packets_frames; lia|].
  split; [exact Hdec|]. split; [exact Hacc|].
  split.
  - unfold read_iteration. rewrite Hdec, Hacc.
    destruct (fragment_packets_series tx rx data HM Hne Hch Hport)
      as (body & last & d & Hsplit & _).
    rewrite Hsplit in Hsame.
    destruct inners as [|inner inners'].
    + inversion Hcar; subst received. inversion Hsame.
      destruct body; discriminate.
    + unfold stream. rewrite len_frames_pos. reflexivity.
  - unfold rx'. cbn. auto.
Qed.

(** *** Partial frames and resynchronisation *)

Lemma int_of_byte_inj (a b : byte) : int_of_byte a = int_of_byte b -> a = b.
Proof.
  unfold int_of_byte. intros H. apply N2Z.inj in H.
  pose proof (Byte.of_to_N a) as Ha. rewrite H, Byte.of_to_N in Ha.
  congruence.
Qed.

Lemma has_magic_cons2 (c1 c2 : byte) (rest : bytes) :
  has_magic (c1 :: c2 :: rest) = true <-> c1 = x94 /\ c2 = xc3.
Proof.
  unfold has_magic, byte_at. cbn [nth].
  rewrite andb_true_iff, !Z.eqb_eq. split.
  - intros [H1 H2]. split; apply int_of_byte_inj; assumption.
  - intros [-> ->]. split; reflexivity.
Qed.

Lemma has_magic_short (c : byte) : has_magic [c] = false.
Proof. unfold has_magic, byte_at. cbn [nth]. apply andb_false_r. Qed.

(** [has_magic_pair] is the occurrence of 0x94 followed by 0xC3. *)
Lemma has_magic_pair_spec (b : bytes) :
  has_magic_pair b = true <-> exists pre post, b = pre ++ x94 :: xc3 :: post.
Proof.
  induction b as [|c1 b IH].
  - split; [discriminate|]. intros (pre & post & H).
    destruct pre; discriminate.
  - cbn [has_magic_pair]. rewrite orb_true_iff, IH. split.
    + intros [Hm | (pre & post & ->)].
      * destruct b as [|c2 rest]; [rewrite has_magic_short in Hm; discriminate|].
        apply has_magic_cons2 in Hm. destruct Hm as [-> ->].
        exists [], rest. reflexivity.
      * exists (c1 :: pre), post. reflexivity.
    + intros (pre & post & H). destruct pre as [|c pre]; cbn [app] in H.
      * inversion H; subst. left. apply has_magic_cons2. auto.
      * inversion H; subst. right. eauto.
Qed.

Lemma has_magic_pair_skipn (k : nat) :
  forall b : bytes, has_magic_pair b = false -> has_magic_pair (skipn k b) = false.
Proof.
  induction k as [|k IH]; intros b Hb; [assumption|].
  destruct b as [|c b]; [reflexivity|].
  cbn [skipn]. apply IH. cbn [has_magic_pair] in Hb.
  apply orb_false_iff in Hb. apply Hb.
Qed.

(** Without a magic pair the loop only drops bytes, down to four. *)
Lemma decode_loop_no_pair (fuel : nat) :
  forall (recvbuf : bytes) (result : list MeshPacket),
    has_magic_pair recvbuf = false ->
    (length recvbuf < fuel)%nat ->
    decode_loop fuel recvbuf result
    = Some (skipn (length recvbuf - 4) recvbuf, Returned result).
Proof.
  induction fuel as [|fuel IH]; intros recvbuf result Hpair Hfuel; [lia|].
  cbn [decode_loop]. unfold len.
  destruct (Z.ltb_spec 4 (Z.of_nat (length recvbuf))) as [Hlen | Hlen].
  - destruct recvbuf as [|c recvbuf]; [cbn in Hlen; lia|].
    cbn [has_magic_pair] in Hpair. apply orb_false_iff in Hpair.
    destruct Hpair as [Hm Hrest].
    unfold decode_iteration. rewrite Hm.
    change (slice_from (c :: recvbuf) 1) with recvbuf.
    rewrite IH by (assumption || (cbn in Hfuel; lia)).
    cbn [length] in *.
    replace (S (length recvbuf) - 4)%nat with (S (length recvbuf - 4))
      by lia.
    reflexivity.
  - replace (length recvbuf - 4)%nat with 0%nat by lia. reflexivity.
Qed.

Lemma has_magic_firstn (k : nat) (b : bytes) :
  (1 < k)%nat -> has_magic (firstn k b) = has_magic b.
Proof.
  intros Hk. unfold has_magic, byte_at. rewrite !nth_firstn.
  destruct (Nat.ltb_spec 0 k); [|lia].
  destruct (Nat.ltb_spec 1 k); [|lia].
  reflexivity.
Qed.

Lemma read_payload_len_firstn (k : nat) (b : bytes) :
  (3 < k)%nat -> read_payload_len (firstn k b) = read_payload_len b.
Proof.
  intros Hk. unfold read_payload_len, byte_at. rewrite !nth_firstn.
  destruct (Nat.ltb_spec 2 k); [|lia].
  destruct (Nat.ltb_spec 3 k); [|lia].
  reflexivity.
Qed.

Lemma find_magic_prefix (k : nat) (inner : bytes) :
  find (firstn (S k) (wire_frame inner)) MT_MAGIC_0 = 0.
Proof.
  unfold find, wire_frame, frame_header. cbn [app firstn find_from].
  rewrite int_of_byte_of_int by (unfold MT_MAGIC_0; lia).
  rewrite Z.eqb_refl. reflexivity.
Qed.

(** A call that ends with a proper prefix of a frame in the buffer
    returns nothing and keeps the prefix. *)
Lemma decode_partial_frame (self : MeshtasticInterface) (data inner : bytes)
    (k : nat) :
  len inner < 65536 ->
  (k < length (wire_frame inner))%nat ->
  _recvbuf self ++ data = firstn k (wire_frame inner) ->
  _decode_mesh_packets self data
  = (set_recvbuf self (firstn k (wire_frame inner)), Returned []).
Proof.
  intros Hlen Hk Hbuf. unfold _decode_mesh_packets. rewrite Hbuf.
  destruct k as [|k]; [reflexivity|].
  rewrite find_magic_prefix. cbn [Z.ltb Z.compare]. unfold resync.
  cbn [Z.ltb Z.compare decode_loop].
  set (buf := firstn (S k) (wire_frame inner)).
  assert (Hl : length buf = S k) by (apply firstn_length_le; lia).
  destruct (Z.ltb_spec 4 (len buf)) as [H4 | H4]; [|reflexivity].
  unfold len in H4. rewrite Hl in H4.
  unfold decode_iteration, buf.
  rewrite has_magic_firstn, read_payload_len_firstn by lia.
  destruct (wire_frame_reads inner [] Hlen) as (Hm & HL).
  rewrite app_nil_r in Hm, HL. rewrite Hm, HL. cbv zeta.
  fold buf. unfold len at 1. rewrite Hl.
  rewrite length_wire_frame in Hk.
  destruct (Z.ltb_spec (Z.of_nat (S k)) (4 + len inner)) as [Hlt | Hge];
    [reflexivity | unfold len in Hge; lia].
Qed.

(** *** The decoder: claims *)

(** C4, as the code has it: from an empty buffer, input without the
    magic pair decodes to nothing.  The buffer is emptied when the
    input holds no 0x94 byte at all; otherwise the bytes from the
    first 0x94 on are kept and the loop drops leading bytes only
    while more than four are buffered, so up to four trailing bytes
    of the input stay behind for the next call. *)
Theorem decode_without_magic_pair (self : MeshtasticInterface) (data : bytes) :
  _recvbuf self = [] ->
  has_magic_pair data = false ->
  let first_magic_idx := find data MT_MAGIC_0 in
  let kept := slice_from data first_magic_idx in
  let residual :=
    if first_magic_idx <? 0 then [] else skipn (length kept - 4) kept in
  _decode_mesh_packets self data = (set_recvbuf self residual, Returned []) /\
  len residual <= 4 /\
  exists dropped, data = dropped ++ residual.
Proof.
  intros Hbuf Hpair first_magic_idx kept residual.
  assert (Hres : len residual <= 4 /\ exists dropped, data = dropped ++ residual).
  { subst residual. destruct (first_magic_idx <? 0).
    - split; [cbn; lia|]. exists data. rewrite app_nil_r. reflexivity.
    - split.
      + unfold len. rewrite length_skipn. lia.
      + exists (firstn (Z.to_nat first_magic_idx) data
                ++ firstn (length kept - 4) kept).
        rewrite <- app_assoc, firstn_skipn. subst kept. unfold slice_from.
        rewrite firstn_skipn. reflexivity. }
  split; [|exact Hres].
  unfold _decode_mesh_packets. rewrite Hbuf. cbn [app].
  fold first_magic_idx. subst residual.
  destruct (Z.ltb_spec first_magic_idx 0) as [Hneg | Hpos]; [reflexivity|].
  assert (Hsync : resync data first_magic_idx = kept).
  { unfold resync. destruct (Z.ltb_spec 0 first_magic_idx); [reflexivity|].
    subst kept. replace first_magic_idx with 0 by lia. reflexivity. }
  rewrite Hsync.
  rewrite decode_loop_no_pair; [reflexivity | | lia].
  subst kept. apply has_magic_pair_skipn. assumption.
Qed.

(** C5, for frames the loop can see: one frame with a non-empty inner
    message, fed to a fresh decoder in two pieces cut at any offset
    [k], gives exactly one packet in total, the same for every [k];
    and a call that leaves only a proper prefix of the frame in the
    buffer returns nothing, raises nothing and keeps the prefix. *)
Theorem split_frame_decodes_once (self : MeshtasticInterface)
    (inner : bytes) (p : MeshPacket) (k : nat) :
  _recvbuf self = [] ->
  carried inner p ->
  (k <= length (wire_frame inner))%nat ->
  exists (self1 : MeshtasticInterface) (first second : list MeshPacket),
    _decode_mesh_packets self (firstn k (wire_frame inner))
    = (self1, Returned first) /\
    _decode_mesh_packets self1 (skipn k (wire_frame inner))
    = (set_recvbuf self [], Returned second) /\
    first ++ second = [p] /\
    ((k < length (wire_frame inner))%nat ->
     first = [] /\ _recvbuf self1 = firstn k (wire_frame inner)).
Proof.
  intros Hbuf Hc Hk.
  assert (Hone : Forall2 carried [inner] [p])
    by (constructor; [exact Hc | constructor]).
  destruct Hc as [Hlen Hp].
  destruct (Nat.eq_dec k (length (wire_frame inner))) as [-> | Hlt].
  - exists (set_recvbuf self []), [p], [].
    rewrite firstn_all, skipn_all.
    split; [|split; [|split]].
    + apply decode_frames with (inners := [inner]); [|assumption].
      rewrite Hbuf. cbn. rewrite app_nil_r. reflexivity.
    + apply (decode_frames (set_recvbuf self []) [] [] []); [reflexivity|constructor].
    + reflexivity.
    + lia.
  - exists (set_recvbuf self (firstn k (wire_frame inner))), [], [p].
    split; [|split; [|split]].
    + apply decode_partial_frame; [lia | lia | rewrite Hbuf; reflexivity].
    + replace (set_recvbuf self [])
        with (set_recvbuf (set_recvbuf self (firstn k (wire_frame inner))) [])
        by reflexivity.
      apply decode_frames with (inners := [inner]); [|assumption].
      cbn [_recvbuf set_recvbuf map concat].
      rewrite firstn_skipn, app_nil_r. reflexivity.
    + reflexivity.
    + auto.
Qed.


(** C10: when a call ends with exactly the four bytes of a complete
    frame with an empty inner message in the buffer, that call does
    not return its packet, and neither does a later call that brings
    no byte; the packet comes out in the first pass of the loop once
    one more byte is buffered. *)
Theorem empty_frame_waits_for_next_byte (self : MeshtasticInterface)
    (data : bytes) (p : MeshPacket) :
  _recvbuf self ++ data = wire_frame [] ->
  FromString_packet [] = Some p ->
  let self1 := set_recvbuf self (wire_frame []) in
  _decode_mesh_packets self data = (self1, Returned []) /\
  (forall (fuel : nat) (result : list MeshPacket),
      decode_loop (S fuel) (wire_frame []) result
      = Some (wire_frame [], Returned result)) /\
  _decode_mesh_packets self1 [] = (self1, Returned []) /\
  (forall (x : byte) (rest : bytes) (result : list MeshPacket),
      decode_iteration (wire_frame [] ++ x :: rest) result
      = Continue (x :: rest, result ++ [p])) /\
  (forall x : byte,
      _decode_mesh_packets self1 [x] = (set_recvbuf self [x], Returned [p])).
Proof.
  intros Hbuf Hp self1.
  assert (Hsmall : len (@nil byte) < 65536) by (cbn; lia).
  split; [|split; [|split; [|split]]].
  - unfold _decode_mesh_packets. rewrite Hbuf. reflexivity.
  - reflexivity.
  - reflexivity.
  - intros x rest result.
    apply decode_iteration_frame; assumption.
  - intros x. unfold _decode_mesh_packets, self1.
    cbn [_recvbuf set_recvbuf].
    rewrite find_magic_first. cbn [Z.ltb Z.compare]. unfold resync.
    cbn [Z.ltb Z.compare].
    change (length (wire_frame [] ++ [x])) with 5%nat.
    cbn [decode_loop].
    change (4 <? len (wire_frame [] ++ [x])) with true. cbv iota.
    rewrite (decode_iteration_frame [] [x] [] p Hsmall Hp).
    reflexivity.
Qed.

(** C7: a packet without an application payload, or on another
    channel than the subscribed one, leaves the whole interface state
    as it was, whatever its port number: nothing is buffered and
    nothing is delivered.  The same holds for a whole list of such
    packets. *)
Theorem accept_packet_filters (self : MeshtasticInterface) (p : MeshPacket) :
  decoded p = None \/ mesh_pb2.channel p <> channel self ->
  accept_packet self p = self /\
  forall packets : list MeshPacket,
    Forall (fun q => decoded q = None \/ mesh_pb2.channel q <> channel self)
           packets ->
    fold_left accept_packet packets self = self.
Proof.
  assert (Hone : forall q,
             decoded q = None \/ mesh_pb2.channel q <> channel self ->
             accept_packet self q = self).
  { intros q Hq. unfold accept_packet.
    destruct (decoded q) as [d|]; [|reflexivity].
    destruct Hq as [Hq | Hq]; [discriminate|].
    destruct (Z.eqb_spec (mesh_pb2.channel q) (channel self));
      [contradiction | reflexivity]. }
  intros Hp. split; [apply Hone; assumption|].
  intros packets Hall. induction Hall as [|q packets Hq _ IH]; [reflexivity|].
  cbn [fold_left]. rewrite Hone by assumption. exact IH.
Qed.

(** *** Sending: claims *)

Lemma sent_state_nil (self : MeshtasticInterface) : sent_state self [] = self.
Proof.
  unfold sent_state. destruct self as [? ? ? ? ? ? ? [w] ? ? ? ?].
  cbn. rewrite app_nil_r, Z.add_0_r. reflexivity.
Qed.

Lemma send_packets_spec (packets : list bytes) :
  forall self : MeshtasticInterface,
  exists (pieces : list bytes) (out : outcome unit),
    send_packets self packets = (sent_state self pieces, out) /\
    sent_in_order pieces packets /\
    (out = Returned tt -> length pieces = length packets) /\
    ((forall w d, accepts w d = Some (length d)) ->
     pieces = packets /\ out = Returned tt).
Proof.
  induction packets as [|packet packets IH]; intros self.
  - exists [], (Returned tt). cbn [send_packets]. rewrite sent_state_nil.
    repeat split. constructor.
  - cbn [send_packets]. unfold sock_send.
    destruct (accepts (wire (_sock self)) packet) as [n|] eqn:Hacc.
    + destruct (IH (set_txb
                      (set_sock self
                         {| wire := wire (_sock self) ++ firstn n packet |})
                      (txb self + len (firstn n packet))))
        as (pieces & out & Hrun & Hord & Hall & Hfull).
      exists (firstn n packet :: pieces), out.
      split; [|split; [|split]].
      * cbn [txb set_sock] in *. rewrite Hrun. f_equal.
        unfold sent_state. cbn. rewrite <- app_assoc, len_app, Z.add_assoc.
        reflexivity.
      * unfold sent_in_order in *. cbn [length firstn].
        constructor; [eauto | assumption].
      * intros Hout. cbn [length]. rewrite (Hall Hout). reflexivity.
      * intros Hsock. destruct (Hfull Hsock) as [-> ->].
        split; [|reflexivity].
        rewrite Hsock in Hacc. inversion Hacc; subst.
        rewrite firstn_all. reflexivity.
    + exists [], (Raised OSError). rewrite sent_state_nil.
      split; [reflexivity|]. split; [constructor|].
      split; [discriminate|].
      intros Hsock. rewrite Hsock in Hacc. discriminate.
Qed.

(** C8: when the interface is not online, [process_outgoing] returns
    with the interface exactly as it was: nothing is written, counted
    or kept.  When it is online, the frames are handed to the socket
    one [send] each, in order; the socket's stream grows by what each
    [send] took, a leading part of each frame in turn, and [txb] grows
    by exactly that many bytes; with a socket that takes all it is
    given, the stream grows by all frames. *)
Theorem process_outgoing_online_only (self : MeshtasticInterface) (data : bytes) :
  (online self = false -> process_outgoing self data = (self, Returned tt)) /\
  (online self = true ->
   forall frames : list bytes,
     _create_mesh_packets self data = Returned frames ->
     exists (pieces : list bytes) (out : outcome unit),
       process_outgoing self data = (sent_state self pieces, out) /\
       sent_in_order pieces frames /\
       (out = Returned tt -> length pieces = length frames) /\
       ((forall w d, accepts w d = Some (length d)) ->
        pieces = frames /\ out = Returned tt)).
Proof.
  unfold process_outgoing. split; intros Hon; rewrite Hon; [reflexivity|].
  intros frames Hframes. rewrite Hframes. apply send_packets_spec.
Qed.

(** *** Reconnecting: claims *)

Lemma failed_attempts_0 (self : MeshtasticInterface) :
  failed_attempts 0 self = self.
Proof.
  unfold failed_attempts, sleep, set_connects. destruct self. cbn.
  rewrite Z.add_0_r, Nat.add_0_r. reflexivity.
Qed.

Lemma reconnect_attempt_fails (self : MeshtasticInterface) :
  open_succeeds (connects self) = false ->
  exists e, reconnect_attempt self = (failed_attempts 1 self, Raised e).
Proof.
  unfold open_succeeds, reconnect_attempt, open_port, failed_attempts.
  cbn [connects sleep]. intros Hfail. exists OSError.
  rewrite Nat.add_1_r.
  destruct (connect_ok (connects self)); [|reflexivity].
  destruct (accepts [] _request_mesh_config_info_packet); [discriminate|].
  reflexivity.
Qed.

Lemma reconnect_attempt_succeeds (self : MeshtasticInterface) (k : nat) :
  connect_ok (connects self) = true ->
  accepts [] _request_mesh_config_info_packet = Some k ->
  reconnect_attempt self = (reconnected self k, Returned tt).
Proof.
  unfold reconnect_attempt, open_port, reconnected, failed_attempts.
  cbn [connects sleep]. intros Hc Hs. rewrite Hc, Hs, Nat.add_1_r.
  reflexivity.
Qed.

Lemma reconnect_attempt_outcome (self : MeshtasticInterface) :
  (open_succeeds (connects self) = false /\
   exists e, reconnect_attempt self = (failed_attempts 1 self, Raised e))
  \/
  (open_succeeds (connects self) = true /\
   exists k, reconnect_attempt self = (reconnected self k, Returned tt)).
Proof.
  destruct (open_succeeds (connects self)) eqn:Hok.
  - right. split; [reflexivity|].
    unfold open_succeeds in Hok. apply andb_true_iff in Hok.
    destruct Hok as [Hc Hs].
    destruct (accepts [] _request_mesh_config_info_packet) as [k|] eqn:Hk;
      [|discriminate].
    exists k. apply reconnect_attempt_succeeds; assumption.
  - left. split; [reflexivity|]. apply reconnect_attempt_fails. assumption.
Qed.

Lemma failed_attempts_S (n : nat) (self : MeshtasticInterface) :
  failed_attempts n (failed_attempts 1 self) = failed_attempts (S n) self.
Proof.
  unfold failed_attempts, sleep, set_connects.
  cbn -[Z.mul Z.add Z.of_nat Nat.add].
  f_equal; lia.
Qed.

(** While every attempt fails the loop goes on. *)
Lemma reconnect_port_failing (n : nat) :
  forall self : MeshtasticInterface,
    online self = false ->
    (forall i : nat, (i < n)%nat -> open_succeeds (connects self + i) = false) ->
    forall fuel : nat,
      reconnect_port (n + fuel) self
      = reconnect_port fuel (failed_attempts n self).
Proof.
  induction n as [|n IH]; intros self Hoff Hfail fuel.
  - rewrite failed_attempts_0. reflexivity.
  - cbn [Nat.add reconnect_port]. rewrite Hoff. cbn [negb].
    destruct (reconnect_attempt_fails self) as (e & Hatt).
    { rewrite <- (Nat.add_0_r (connects self)). apply Hfail. lia. }
    rewrite Hatt, IH.
    + rewrite failed_attempts_S. reflexivity.
    + exact Hoff.
    + intros i Hi. cbn [failed_attempts connects set_connects].
      rewrite <- Nat.add_assoc. apply Hfail. lia.
Qed.

(** The loop never lets an exception out, and it is left only online,
    after an [open_port] that went through. *)
Lemma reconnect_port_done (fuel : nat) :
  forall (self st : MeshtasticInterface) (out : outcome unit),
    online self = false ->
    reconnect_port fuel self = Done st out ->
    out = Returned tt /\ online st = true /\
    (connects self < connects st)%nat /\
    open_succeeds (connects st - 1) = true.
Proof.
  induction fuel as [|fuel IH]; intros self st out Hoff Hrun; [discriminate|].
  cbn [reconnect_port] in Hrun. rewrite Hoff in Hrun. cbn [negb] in Hrun.
  destruct (reconnect_attempt_outcome self)
    as [(Hno & e & Hatt) | (Hyes & k & Hatt)]; rewrite Hatt in Hrun.
  - destruct (IH (failed_attempts 1 self) st out Hoff Hrun)
      as (Hout & Hon & Hlt & Hok).
    cbn [failed_attempts connects set_connects] in Hlt.
    repeat split; try assumption. lia.
  - destruct fuel as [|fuel]; [discriminate|].
    cbn [reconnect_port reconnected configure_device online set_online negb]
      in Hrun.
    inversion Hrun; subst.
    assert (Hn : connects (reconnected self k) = (connects self + 1)%nat)
      by reflexivity.
    rewrite Hn.
    split; [reflexivity|]. split; [reflexivity|]. split; [lia|].
    replace (connects self + 1 - 1)%nat with (connects self) by lia.
    assumption.
Qed.

(** C9: a zero-length read ends the receive loop, sets the interface
    offline and starts the reconnect loop.  That loop sleeps the fixed
    5 s and tries [open_port] again for as long as attempts fail,
    whatever their number; it is left only online, after an attempt
    that went through, which also starts a new reader; and no
    exception of an attempt comes out of it. *)
Theorem zero_length_read_reconnects (self : MeshtasticInterface) :
  let down := set_online (sleep 50 self) false in
  (forall (fuel : nat) (reads : list bytes),
      read_loop fuel self ([] :: reads) = reconnect_port fuel down) /\
  online down = false /\
  (forall n : nat,
      (forall i : nat, (i < n)%nat ->
                       open_succeeds (connects self + i) = false) ->
      reconnect_port n down = Looping (failed_attempts n down) /\
      online (failed_attempts n down) = false /\
      connects (failed_attempts n down) = (connects self + n)%nat /\
      slept (failed_attempts n down) = slept self + 50 + 5000 * Z.of_nat n) /\
  (forall n k extra : nat,
      (forall i : nat, (i < n)%nat ->
                       open_succeeds (connects self + i) = false) ->
      connect_ok (connects self + n) = true ->
      accepts [] _request_mesh_config_info_packet = Some k ->
      let up := reconnected (failed_attempts n down) k in
      reconnect_port (n + (2 + extra)) down = Done up (Returned tt) /\
      online up = true /\
      connects up = (connects self + n + 1)%nat /\
      readers up = S (readers self) /\
      slept up = slept self + 50 + 5000 * (Z.of_nat n + 1) + 500) /\
  (forall (fuel : nat) (st : MeshtasticInterface) (out : outcome unit),
      reconnect_port fuel down = Done st out ->
      out = Returned tt /\ online st = true /\
      (connects self < connects st)%nat /\
      open_succeeds (connects st - 1) = true).
Proof.
  intros down.
  assert (Hoff : online down = false) by reflexivity.
  assert (Hcon : connects down = connects self) by reflexivity.
  split; [|split; [|split; [|split]]].
  - intros fuel reads. reflexivity.
  - exact Hoff.
  - intros n Hfail.
    pose proof (reconnect_port_failing n down Hoff) as Hrun.
    rewrite Hcon in Hrun. specialize (Hrun Hfail 0%nat).
    rewrite Nat.add_0_r in Hrun.
    split; [exact Hrun|]. split; [reflexivity|]. split; [reflexivity|].
    unfold failed_attempts, down.
    cbn -[Z.mul Z.add Z.of_nat Nat.add]. lia.
  - intros n k extra Hfail Hok Hsend up.
    pose proof (reconnect_port_failing n down Hoff) as Hrun.
    rewrite Hcon in Hrun. specialize (Hrun Hfail (2 + extra)%nat).
    split; [|split; [|split; [|split]]]; try reflexivity.
    + rewrite Hrun. cbn [Nat.add reconnect_port].
      assert (Hoff' : online (failed_attempts n down) = false) by reflexivity.
      rewrite Hoff'. cbn [negb].
      rewrite (reconnect_attempt_succeeds (failed_attempts n down) k);
        [reflexivity | exact Hok | exact Hsend].
    + unfold up, reconnected, failed_attempts, down, configure_device.
      cbn -[Z.mul Z.add Z.of_nat Nat.add]. lia.
  - intros fuel st out Hrun.
    rewrite <- Hcon.
    apply (reconnect_port_done fuel down st out Hoff Hrun).
Qed.

(** ** Further properties of the interface *)

(** *** Packets within the hardware MTU *)

(** A packet that Reticulum may hand over, at most [HW_MTU] bytes and
    not empty, is never split: it leaves as one frame, whose packet
    carries all of it and the sentinel port. *)
Theorem hw_mtu_payload_single_frame (self : MeshtasticInterface)
    (data : bytes) :
  data <> [] ->
  len data <= HW_MTU ->
  _create_mesh_packets self data
  = Returned [frame_of (fragment self (mesh_port_num self + 1) data)].
Proof.
  intros Hne Hmtu.
  assert (Hpos : 0 < len data)
    by (destruct data; [congruence | unfold len; cbn [length]; lia]).
  assert (HM : 0 < MAX_LEN) by (unfold HW_MTU, MAX_LEN in *; lia).
  assert (Hfit : len data <= MAX_LEN) by (unfold HW_MTU, MAX_LEN in *; lia).
  rewrite create_mesh_packets_frames by lia.
  rewrite fragment_packets_seq by assumption.
  assert (Hone : fragment_count data = 1).
  { unfold fragment_count. symmetry.
    apply (Z.div_unique _ _ 1 (len data - 1)); lia. }
  rewrite Hone. change (Z.to_nat 1) with 1%nat. cbn [seq map].
  change (Z.of_nat 0 * MAX_LEN) with 0.
  unfold mesh_packet_at.
  destruct (Z.leb_spec (len data) (0 + MAX_LEN)); [|lia].
  unfold slice. change (Z.to_nat 0) with 0%nat. cbn [skipn].
  rewrite firstn_all2 by (unfold len in Hfit; lia).
  reflexivity.
Qed.

(** *** The length prefix *)

Lemma length_prefix_wraps (n : Z) :
  0 <= n ->
  0 <= Z.land (Z.shiftr n 8) 0xFF < 256 /\
  0 <= Z.land n 0xFF < 256 /\
  256 * Z.land (Z.shiftr n 8) 0xFF + Z.land n 0xFF = n mod 65536.
Proof.
  intros Hn.
  change 0xFF with (Z.ones 8).
  rewrite !Z.land_ones, Z.shiftr_div_pow2 by lia.
  change (2 ^ 8) with 256.
  pose proof (Z.mod_pos_bound (n / 256) 256 ltac:(lia)).
  pose proof (Z.mod_pos_bound n 256 ltac:(lia)).
  change 65536 with (256 * 256).
  rewrite Z.rem_mul_r by lia. lia.
Qed.

(** The two length bytes of a frame hold the length of the inner
    message modulo 65536: the header reads back as the magic pair and
    that residue, so it gives the true length exactly for messages
    shorter than 65536 bytes and a shorter one beyond. *)
Theorem frame_header_wraps (inner rest : bytes) :
  has_magic (wire_frame inner ++ rest) = true /\
  read_payload_len (wire_frame inner ++ rest) = len inner mod 65536 /\
  len (wire_frame inner) = 4 + len inner.
Proof.
  pose proof (len_nonneg inner) as Hpos.
  destruct (length_prefix_wraps (len inner) Hpos) as (Hhi & Hlo & Hsum).
  unfold wire_frame, frame_header, has_magic, read_payload_len, byte_at.
  cbv zeta. cbn [app nth].
  rewrite !int_of_byte_of_int
    by (assumption || (unfold MT_MAGIC_0, MT_MAGIC_1; lia)).
  rewrite lor_shiftl_8 by assumption.
  rewrite !Z.eqb_refl. repeat split; try assumption.
  unfold len. cbn [length]. lia.
Qed.

(** *** What a call leaves in the buffer *)

Lemma read_payload_len_bound (recvbuf : bytes) : read_payload_len recvbuf <= 65535.
Proof.
  unfold read_payload_len, byte_at.
  pose proof (int_of_byte_range (nth 2 recvbuf x00)).
  pose proof (int_of_byte_range (nth 3 recvbuf x00)).
  rewrite lor_shiftl_8 by assumption. lia.
Qed.

Lemma skipn_tail {A : Type} (n : nat) (l dropped l' : list A) :
  skipn n l = dropped ++ l' -> exists dropped', l = dropped' ++ l'.
Proof.
  intros H. exists (firstn n l ++ dropped).
  rewrite <- app_assoc, <- H, firstn_skipn. reflexivity.
Qed.

(** The buffer the loop stops on: a tail of the one it started on, and
    either at most four bytes or a frame that is not complete yet. *)
Lemma decode_loop_residual (fuel : nat) :
  forall (recvbuf recvbuf' : bytes) (result : list MeshPacket)
         (out : outcome (list MeshPacket)),
    decode_loop fuel recvbuf result = Some (recvbuf', out) ->
    (exists dropped, recvbuf = dropped ++ recvbuf') /\
    match out with
    | Returned r =>
        (exists new, r = result ++ new) /\
        (len recvbuf' <= 4 \/
         (has_magic recvbuf' = true /\
          len recvbuf' < 4 + read_payload_len recvbuf'))
    | Raised e =>
        e = DecodeError /\ has_magic recvbuf' = true /\
        4 + read_payload_len recvbuf' <= len recvbuf'
    end.
Proof.
  induction fuel as [|fuel IH]; intros recvbuf recvbuf' result out Hrun;
    [discriminate|].
  cbn [decode_loop] in Hrun.
  destruct (Z.ltb_spec 4 (len recvbuf)) as [Hlen | Hlen].
  - pose proof (decode_iteration_cases recvbuf result Hlen) as Hc.
    destruct (decode_iteration recvbuf result)
      as [[recvbuf1 result1] | r | [b r] e] eqn:Hit.
    + destruct (IH _ _ _ _ Hrun) as ((dropped & Hd) & Hout).
      split.
      * destruct Hc as [(_ & Hb & _) | (_ & packet & _ & Hb & _)];
          rewrite Hb in Hd; exact (skipn_tail _ _ _ _ Hd).
      * destruct out as [r | e]; [|exact Hout].
        destruct Hout as ((new & Hnew) & Hres). split; [|exact Hres].
        destruct Hc as [(_ & _ & -> & _) | (_ & packet & _ & _ & -> & _)].
        -- eauto.
        -- exists (packet :: new). rewrite Hnew, <- app_assoc. reflexivity.
    + inversion Hrun; subst. destruct Hc as (-> & Hm & Hl).
      split; [exists []; reflexivity|].
      split; [exists []; rewrite app_nil_r; reflexivity|]. auto.
    + inversion Hrun; subst. destruct Hc as (Hs & -> & Hm & Hp).
      inversion Hs; subst.
      split; [exists []; reflexivity|].
      split; [reflexivity|]. split; [assumption|].
      unfold decode_iteration in Hit. rewrite Hm in Hit. cbv zeta in Hit.
      destruct (Z.ltb_spec (len recvbuf) (4 + read_payload_len recvbuf));
        [discriminate | assumption].
  - inversion Hrun; subst.
    split; [exists []; reflexivity|].
    split; [exists []; rewrite app_nil_r; reflexivity|]. auto.
Qed.

(** After every call the buffer is a tail of the bytes the call had,
    nothing invented or reordered.  When the call returns, the buffer
    holds at most four bytes or the beginning of a frame that is not
    complete yet, so never more than 65538 bytes; when the codec
    raises, the buffer starts with the frame it refused. *)
Theorem decode_leaves_bounded_tail (self : MeshtasticInterface)
    (data : bytes) :
  exists (recvbuf' : bytes) (out : outcome (list MeshPacket)),
    _decode_mesh_packets self data = (set_recvbuf self recvbuf', out) /\
    (exists dropped, _recvbuf self ++ data = dropped ++ recvbuf') /\
    match out with
    | Returned _ =>
        (len recvbuf' <= 4 \/
         (has_magic recvbuf' = true /\
          len recvbuf' < 4 + read_payload_len recvbuf')) /\
        len recvbuf' <= 65538
    | Raised e =>
        e = DecodeError /\ has_magic recvbuf' = true /\
        4 + read_payload_len recvbuf' <= len recvbuf'
    end.
Proof.
  unfold _decode_mesh_packets.
  set (buf := _recvbuf self ++ data).
  destruct (Z.ltb_spec (find buf MT_MAGIC_0) 0) as [Hneg | Hpos].
  - exists [], (Returned []). split; [reflexivity|].
    split; [exists buf; rewrite app_nil_r; reflexivity|].
    cbn. split; [left|]; lia.
  - assert (Hsync : exists dropped,
               buf = dropped ++ resync buf (find buf MT_MAGIC_0)).
    { unfold resync. destruct (0 <? find buf MT_MAGIC_0).
      - unfold slice_from. eexists. symmetry. apply firstn_skipn.
      - exists []. reflexivity. }
    destruct Hsync as (dropped0 & Hd0).
    set (buf1 := resync buf (find buf MT_MAGIC_0)) in *.
    destruct (decode_loop_fuel (S (length buf1)) buf1 [] ltac:(lia))
      as (recvbuf' & out & Hrun & _).
    rewrite Hrun. exists recvbuf', out. split; [reflexivity|].
    destruct (decode_loop_residual _ _ _ _ _ Hrun) as ((dropped & Hd) & Hout).
    split.
    + exists (dropped0 ++ dropped). rewrite Hd0, Hd, app_assoc. reflexivity.
    + destruct out as [r | e]; [|exact Hout].
      destruct Hout as (_ & Hres). split; [exact Hres|].
      pose proof (read_payload_len_bound recvbuf').
      destruct Hres as [Hs | [_ Hs]]; lia.
Qed.

(** *** Resynchronisation in front of frames *)

Lemma find_from_hit (g : bytes) (c : byte) (rest : bytes) (x : Z) :
  int_of_byte c = x ->
  forall i : Z,
  exists k : nat,
    (k <= length g)%nat /\ find_from (g ++ c :: rest) x i = i + Z.of_nat k.
Proof.
  intros Hc. induction g as [|b g IH]; intros i; cbn [app find_from].
  - exists 0%nat. rewrite Hc, Z.eqb_refl. split; [cbn; lia | lia].
  - destruct (int_of_byte b =? x).
    + exists 0%nat. split; [cbn; lia | lia].
    + destruct (IH (i + 1)) as (k & Hk & Hf).
      exists (S k). split; [cbn; lia | rewrite Hf; lia].
Qed.

(** In front of a frame, [find] and the cut keep the frame and a tail
    of what precedes it. *)
Lemma resync_before_frame (g inner rest : bytes) :
  exists k : nat,
    (k <= length g)%nat /\
    0 <= find (g ++ wire_frame inner ++ rest) MT_MAGIC_0 /\
    resync (g ++ wire_frame inner ++ rest)
           (find (g ++ wire_frame inner ++ rest) MT_MAGIC_0)
    = skipn k g ++ wire_frame inner ++ rest.
Proof.
  unfold find, wire_frame, frame_header. cbn [app].
  destruct (find_from_hit g (byte_of_int MT_MAGIC_0)
              (byte_of_int MT_MAGIC_1
               :: byte_of_int (Z.land (Z.shiftr (len inner) 8) 255)
               :: byte_of_int (Z.land (len inner) 255) :: inner ++ rest)
              MT_MAGIC_0) with (i := 0) as (k & Hk & Hf).
  { apply int_of_byte_of_int. unfold MT_MAGIC_0. lia. }
  exists k. rewrite Hf. split; [assumption|]. split; [lia|].
  unfold resync, slice_from. cbn [Z.add].
  destruct (Z.ltb_spec 0 (Z.of_nat k)) as [Hk0 | Hk0].
  - rewrite Nat2Z.id, skipn_app.
    replace (k - length g)%nat with 0%nat by lia. reflexivity.
  - replace k with 0%nat by lia. reflexivity.
Qed.

Lemma has_magic_before_frame (c : byte) (g inner rest : bytes) :
  has_magic_pair (c :: g) = false ->
  has_magic ((c :: g) ++ wire_frame inner ++ rest) = false.
Proof.
  intros Hpair. cbn [has_magic_pair] in Hpair.
  apply orb_false_iff in Hpair. destruct Hpair as [Hm _].
  destruct g as [|c2 g].
  - unfold has_magic, byte_at, wire_frame, frame_header. cbn [app nth].
    rewrite (int_of_byte_of_int MT_MAGIC_0) by (unfold MT_MAGIC_0; lia).
    apply andb_false_r.
  - exact Hm.
Qed.

(** Bytes without the magic pair in front of a frame with a non-empty
    inner message are dropped one by one. *)
Lemma decode_loop_garbage (g : bytes) :
  forall (inner rest : bytes) (result : list MeshPacket) (fuel : nat),
    has_magic_pair g = false ->
    0 < len inner ->
    decode_loop (length g + fuel) (g ++ wire_frame inner ++ rest) result
    = decode_loop fuel (wire_frame inner ++ rest) result.
Proof.
  induction g as [|c g IH]; intros inner rest result fuel Hpair Hinner;
    [reflexivity|].
  cbn [length Nat.add decode_loop].
  assert (Hlen : 4 < len ((c :: g) ++ wire_frame inner ++ rest)).
  { rewrite !len_app, len_wire_frame.
    pose proof (len_nonneg (c :: g)). pose proof (len_nonneg rest). lia. }
  destruct (Z.ltb_spec 4 (len ((c :: g) ++ wire_frame inner ++ rest)));
    [|lia].
  unfold decode_iteration. rewrite has_magic_before_frame by assumption.
  change (slice_from ((c :: g) ++ wire_frame inner ++ rest) 1)
    with (g ++ wire_frame inner ++ rest).
  apply IH; [|assumption].
  cbn [has_magic_pair] in Hpair. apply orb_false_iff in Hpair. apply Hpair.
Qed.

(** Desync recovery: stray bytes that hold no magic pair, followed by
    complete frames with non-empty inner messages, are skipped, and the
    call returns exactly the packets of the frames and leaves the
    buffer empty. *)
Theorem decode_skips_stray_bytes (self : MeshtasticInterface)
    (stray : bytes) (inners : list bytes) (packets : list MeshPacket) :
  _recvbuf self = [] ->
  has_magic_pair stray = false ->
  inners <> [] ->
  Forall2 carried inners packets ->
  _decode_mesh_packets self (stray ++ concat (map wire_frame inners))
  = (set_recvbuf self [], Returned packets).
Proof.
  intros Hbuf Hpair Hne Hall.
  destruct Hall as [| inner p inners packets Hc Hall]; [congruence|].
  pose proof (Forall2_cons _ _ Hc Hall) as Hall'.
  unfold _decode_mesh_packets. rewrite Hbuf. cbn [app map concat].
  destruct (resync_before_frame stray inner (concat (map wire_frame inners)))
    as (k & Hk & Hfind & Hsync).
  destruct (Z.ltb_spec
              (find (stray ++ wire_frame inner ++ concat (map wire_frame inners))
                    MT_MAGIC_0) 0); [lia|].
  rewrite Hsync.
  set (frames := wire_frame inner ++ concat (map wire_frame inners)).
  replace (S (length (skipn k stray ++ frames)))
    with (length (skipn k stray) + S (length frames))%nat
    by (rewrite length_app; lia).
  unfold frames.
  rewrite decode_loop_garbage
    by (try apply has_magic_pair_skipn; try assumption; apply Hc).
  pose proof (decode_loop_frames _ _ Hall' (S (length (inner :: inners))) []
                ltac:(lia)) as Hrun.
  cbn [map concat] in Hrun.
  rewrite (decode_loop_more_fuel _ _ _ _ _ Hrun); [reflexivity|].
  pose proof (length_concat_frames (inner :: inners)) as Hl.
  cbn [map concat] in Hl. lia.
Qed.

(** *** A stream of frames cut into arbitrary chunks *)

(** A proper prefix of a frame makes the loop stop at once. *)
Lemma decode_loop_partial (inner : bytes) (k fuel : nat)
    (result : list MeshPacket) :
  len inner < 65536 ->
  (k < length (wire_frame inner))%nat ->
  decode_loop (S fuel) (firstn k (wire_frame inner)) result
  = Some (firstn k (wire_frame inner), Returned result).
Proof.
  intros Hlen Hk. cbn [decode_loop].
  set (buf := firstn k (wire_frame inner)).
  assert (Hl : length buf = k) by (apply firstn_length_le; lia).
  destruct (Z.ltb_spec 4 (len buf)) as [H4 | H4]; [|reflexivity].
  unfold len in H4. rewrite Hl in H4.
  unfold decode_iteration, buf.
  rewrite has_magic_firstn, read_payload_len_firstn by lia.
  destruct (wire_frame_reads inner [] Hlen) as (Hm & HL).
  rewrite app_nil_r in Hm, HL. rewrite Hm, HL. cbv zeta.
  fold buf. unfold len at 1. rewrite Hl.
  rewrite length_wire_frame in Hk.
  destruct (Z.ltb_spec (Z.of_nat k) (4 + len inner)) as [Hlt | Hge];
    [reflexivity | unfold len in Hge; lia].
Qed.

Lemma prefix_of_frames (buf rest frame frames : bytes) :
  buf ++ rest = frame ++ frames ->
  (exists l, buf = frame ++ l /\ l ++ rest = frames) \/
  ((length buf < length frame)%nat /\ buf = firstn (length buf) frame /\
   exists l, frame = buf ++ l /\ rest = l ++ frames).
Proof.
  intros H. apply app_eq_app in H.
  destruct H as (l & [[H1 H2] | [H1 H2]]).
  - left. exists l. auto.
  - destruct l as [|x l].
    + left. exists []. rewrite app_nil_r in H1. cbn in H2.
      subst. split; [rewrite app_nil_r|]; reflexivity.
    + right. split; [rewrite H1, length_app; cbn; lia|].
      split; [|exists (x :: l); auto].
      rewrite H1, firstn_app, Nat.sub_diag, firstn_all. cbn [firstn].
      rewrite app_nil_r. reflexivity.
Qed.

(** On any beginning of a stream of frames the loop returns the packets
    of the complete frames and keeps the begun one. *)
Lemma decode_loop_prefix (inners : list bytes) (packets : list MeshPacket) :
  Forall2 carried inners packets ->
  forall (buf rest : bytes) (fuel : nat) (result : list MeshPacket),
    buf ++ rest = concat (map wire_frame inners) ->
    (length buf < fuel)%nat ->
    exists (ps1 : list MeshPacket) (inners2 : list bytes)
           (packets2 : list MeshPacket) (buf' : bytes),
      decode_loop fuel buf result = Some (buf', Returned (result ++ ps1)) /\
      packets = ps1 ++ packets2 /\
      Forall2 carried inners2 packets2 /\
      pending buf' inners2 /\
      buf' ++ rest = concat (map wire_frame inners2).
Proof.
  induction 1 as [| inner p inners packets Hc Hall IH];
    intros buf rest fuel result Hstream Hfuel.
  - cbn [map concat] in Hstream. apply app_eq_nil in Hstream.
    destruct Hstream as [-> ->].
    destruct fuel as [|fuel]; [lia|].
    exists [], [], [], []. rewrite app_nil_r.
    repeat split; constructor.
  - cbn [map concat] in Hstream.
    destruct fuel as [|fuel]; [lia|].
    destruct (prefix_of_frames _ _ _ _ Hstream)
      as [(l & -> & Hl) | (Hshort & Hpre & l & Hframe & Hrest)].
    + cbn [decode_loop].
      assert (H4 : 4 < len (wire_frame inner ++ l)).
      { rewrite len_app, len_wire_frame. pose proof (len_nonneg l).
        destruct Hc. lia. }
      destruct (Z.ltb_spec 4 (len (wire_frame inner ++ l))); [|lia].
      rewrite (decode_iteration_frame inner l result p)
        by (destruct Hc; (lia || assumption)).
      destruct (IH l rest fuel (result ++ [p]) Hl)
        as (ps1 & inners2 & packets2 & buf' & Hrun & Hps & Hall2 & Hpend & Hs).
      { rewrite length_app, length_wire_frame in Hfuel. lia. }
      exists (p :: ps1), inners2, packets2, buf'.
      rewrite Hrun, <- app_assoc, Hps. repeat split; assumption.
    + exists [], (inner :: inners), (p :: packets), buf.
      rewrite Hpre at 1 2.
      rewrite decode_loop_partial by (destruct Hc; (lia || assumption)).
      rewrite <- Hpre, app_nil_r.
      split; [reflexivity|]. split; [reflexivity|].
      split; [constructor; assumption|].
      split; [exists (length buf); auto|].
      exact Hstream.
Qed.

(** One call on any beginning of a stream of frames. *)
Lemma decode_chunk (self : MeshtasticInterface) (data rest : bytes)
    (inners : list bytes) (packets : list MeshPacket) :
  Forall2 carried inners packets ->
  (_recvbuf self ++ data) ++ rest = concat (map wire_frame inners) ->
  exists (ps1 : list MeshPacket) (inners2 : list bytes)
         (packets2 : list MeshPacket) (buf' : bytes),
    _decode_mesh_packets self data = (set_recvbuf self buf', Returned ps1) /\
    packets = ps1 ++ packets2 /\
    Forall2 carried inners2 packets2 /\
    pending buf' inners2 /\
    buf' ++ rest = concat (map wire_frame inners2).
Proof.
  intros Hall Hstream. unfold _decode_mesh_packets.
  destruct (_recvbuf self ++ data) as [|c buf] eqn:Hbuf.
  - cbn [find find_from Z.ltb Z.compare].
    exists [], inners, packets, [].
    repeat split; try assumption.
    destruct Hall as [| inner ? ? ? ? ?]; [reflexivity|].
    exists 0%nat. split; [rewrite length_wire_frame; lia | reflexivity].
  - assert (Hfind : find (c :: buf) MT_MAGIC_0 = 0).
    { destruct Hall as [| inner p inners packets Hc Hall];
        [discriminate Hstream|].
      cbn [map concat] in Hstream. unfold wire_frame, frame_header in Hstream.
      cbn [app] in Hstream. inversion Hstream; subst c.
      unfold find. cbn [find_from].
      rewrite int_of_byte_of_int by (unfold MT_MAGIC_0; lia).
      rewrite Z.eqb_refl. reflexivity. }
    rewrite Hfind. cbn [Z.ltb Z.compare]. unfold resync.
    cbn [Z.ltb Z.compare].
    destruct (decode_loop_prefix inners packets Hall (c :: buf) rest
                (S (length (c :: buf))) [] Hstream ltac:(lia))
      as (ps1 & inners2 & packets2 & buf' & Hrun & Hrest).
    rewrite Hrun. exists ps1, inners2, packets2, buf'.
    split; [reflexivity | exact Hrest].
Qed.

Lemma pending_whole (b : bytes) (inners : list bytes) :
  pending b inners ->
  b = concat (map wire_frame inners) ->
  b = [] /\ inners = [].
Proof.
  destruct inners as [|inner inners]; cbn [pending map concat].
  - auto.
  - intros (k & Hk & Hb) Hs. exfalso.
    assert (Hl : length b = k) by (rewrite Hb; apply firstn_length_le; lia).
    rewrite Hs, length_app in Hl. lia.
Qed.

Lemma decode_chunks_pending (chunks : list bytes) :
  forall (self : MeshtasticInterface) (inners : list bytes)
         (packets : list MeshPacket),
    pending (_recvbuf self) inners ->
    Forall2 carried inners packets ->
    _recvbuf self ++ concat chunks = concat (map wire_frame inners) ->
    decode_chunks self chunks = (set_recvbuf self [], Returned packets).
Proof.
  induction chunks as [|data chunks IH]; intros self inners packets
    Hpend Hall Hstream.
  - cbn [concat] in Hstream. rewrite app_nil_r in Hstream.
    destruct (pending_whole _ _ Hpend Hstream) as [Hb ->].
    inversion Hall; subst. cbn [decode_chunks].
    rewrite set_recvbuf_same by assumption. reflexivity.
  - cbn [concat decode_chunks] in *. rewrite app_assoc in Hstream.
    destruct (decode_chunk self data (concat chunks) inners packets Hall Hstream)
      as (ps1 & inners2 & packets2 & buf' & Hrun & -> & Hall2 & Hpend2 & Hs).
    rewrite Hrun.
    rewrite (IH (set_recvbuf self buf') inners2 packets2); try assumption.
    reflexivity.
Qed.

(** Chunking independence: however the byte stream of a run of frames
    with non-empty inner messages is cut into chunks, empty ones
    included, feeding the chunks to a decoder with an empty buffer, one
    call each, returns in total exactly the packets of the frames, in
    order, raises nothing and leaves the buffer empty. *)
Theorem decode_chunks_stream (self : MeshtasticInterface)
    (chunks inners : list bytes) (packets : list MeshPacket) :
  _recvbuf self = [] ->
  Forall2 carried inners packets ->
  concat chunks = concat (map wire_frame inners) ->
  decode_chunks self chunks = (set_recvbuf self [], Returned packets).
Proof.
  intros Hbuf Hall Hstream.
  apply decode_chunks_pending with (inners := inners).
  - rewrite Hbuf. destruct inners as [|inner inners]; [reflexivity|].
    exists 0%nat. split; [rewrite length_wire_frame; lia | reflexivity].
  - assumption.
  - rewrite Hbuf. exact Hstream.
Qed.

(** *** Reassembly: what is kept, what is delivered *)

(** What one packet does to the reassembly state. *)
Lemma accept_packet_step (rx : MeshtasticInterface) (p : MeshPacket) :
  exists delivered : list bytes,
    inbound (accept_packet rx p) = inbound rx ++ delivered /\
    rxb (accept_packet rx p) = rxb rx + len (concat delivered) /\
    concat delivered
    ++ concat (map decoded_payload (_recv_partial_msg (accept_packet rx p)))
    = concat (map decoded_payload (_recv_partial_msg rx))
      ++ (if taken_up rx p then decoded_payload p else []) /\
    (Forall (fun q => is_sentinel rx q = false) (_recv_partial_msg rx) ->
     Forall (fun q => is_sentinel rx q = false)
            (_recv_partial_msg (accept_packet rx p))) /\
    channel (accept_packet rx p) = channel rx /\
    mesh_port_num (accept_packet rx p) = mesh_port_num rx /\
    _recvbuf (accept_packet rx p) = _recvbuf rx /\
    online (accept_packet rx p) = online rx /\
    txb (accept_packet rx p) = txb rx /\
    _sock (accept_packet rx p) = _sock rx.
Proof.
  unfold accept_packet, taken_up, is_sentinel.
  destruct (decoded p) as [d|] eqn:Hd.
  - destruct (Z.eqb_spec (mesh_pb2.channel p) (channel rx)) as [Hch | Hch].
    + cbn [mesh_port_num set_recv_partial_msg].
      destruct (Z.eqb_spec (portnum d) (mesh_port_num rx + 1)) as [Hs | Hs].
      * exists [concat (map decoded_payload (_recv_partial_msg rx ++ [p]))].
        cbn. rewrite !app_nil_r, map_app, concat_app. cbn.
        rewrite app_nil_r. repeat split; constructor.
      * exists []. cbn. rewrite app_nil_r, map_app, concat_app. cbn.
        rewrite app_nil_r, Z.add_0_r. repeat split.
        intros Hall. apply Forall_app. split; [assumption|].
        constructor; [|constructor].
        rewrite Hd. apply andb_false_iff. right.
        apply Z.eqb_neq. assumption.
    + exists []. cbn. rewrite !app_nil_r, Z.add_0_r. repeat split. auto.
  - exists []. cbn. rewrite !app_nil_r, Z.add_0_r. repeat split. auto.
Qed.

(** Conservation in the reassembly, for any packets at all: the
    messages delivered are appended to the earlier ones, [rxb] grows by
    their bytes, and the bytes delivered followed by the bytes still
    waiting are exactly the bytes that waited before followed by the
    payloads of the packets taken up, in order; no byte is lost,
    doubled or moved.  No sentinel packet is ever left waiting, and the
    buffer, the socket and the send counter are not touched. *)
Theorem accept_packets_conserve (packets : list MeshPacket) :
  forall rx : MeshtasticInterface,
    let rx' := fold_left accept_packet packets rx in
    exists delivered : list bytes,
      inbound rx' = inbound rx ++ delivered /\
      rxb rx' = rxb rx + len (concat delivered) /\
      concat delivered ++ concat (map decoded_payload (_recv_partial_msg rx'))
      = concat (map decoded_payload (_recv_partial_msg rx))
        ++ concat (map decoded_payload (filter (taken_up rx) packets)) /\
      (Forall (fun q => is_sentinel rx q = false) (_recv_partial_msg rx) ->
       Forall (fun q => is_sentinel rx q = false) (_recv_partial_msg rx')) /\
      channel rx' = channel rx /\ mesh_port_num rx' = mesh_port_num rx /\
      _recvbuf rx' = _recvbuf rx /\ online rx' = online rx /\
      txb rx' = txb rx /\ _sock rx' = _sock rx.
Proof.
  induction packets as [|p packets IH]; intros rx.
  - exists []. cbn. rewrite !app_nil_r, Z.add_0_r. repeat split. auto.
  - cbn [fold_left]. cbv zeta.
    destruct (accept_packet_step rx p)
      as (d1 & Hin1 & Hrx1 & Hcons1 & Hsent1 & Hch1 & Hport1 & Hbuf1 & Hon1
          & Htx1 & Hsock1).
    destruct (IH (accept_packet rx p))
      as (d2 & Hin2 & Hrx2 & Hcons2 & Hsent2 & Hch2 & Hport2 & Hbuf2 & Hon2
          & Htx2 & Hsock2).
    assert (Htaken : forall q, taken_up (accept_packet rx p) q = taken_up rx q).
    { intros q. unfold taken_up. rewrite Hch1. reflexivity. }
    assert (Hsent : forall q,
               is_sentinel (accept_packet rx p) q = is_sentinel rx q).
    { intros q. unfold is_sentinel. rewrite Hch1, Hport1. reflexivity. }
    exists (d1 ++ d2).
    split; [rewrite Hin2, Hin1, app_assoc; reflexivity|].
    split; [rewrite Hrx2, Hrx1, concat_app, len_app; lia|].
    split.
    + rewrite concat_app, <- app_assoc, Hcons2.
      rewrite (filter_ext _ _ Htaken), app_assoc, Hcons1, <- app_assoc.
      cbn [filter]. destruct (taken_up rx p); reflexivity.
    + split.
      * intros Hall.
        assert (H1 := Hsent1 Hall).
        assert (H2 : Forall (fun q => is_sentinel (accept_packet rx p) q = false)
                            (_recv_partial_msg (accept_packet rx p))).
        { revert H1. apply Forall_impl. intros q. rewrite Hsent. auto. }
        specialize (Hsent2 H2). revert Hsent2. apply Forall_impl.
        intros q. rewrite Hsent. auto.
      * repeat split; congruence.
Qed.

(** *** Messages through the receive loop *)

Lemma accept_packet_set_recvbuf (s : MeshtasticInterface) (b : bytes)
    (p : MeshPacket) :
  accept_packet (set_recvbuf s b) p = set_recvbuf (accept_packet s p) b.
Proof.
  unfold accept_packet. destruct (decoded p) as [d|]; [|reflexivity].
  cbn [channel set_recvbuf]. destruct (mesh_pb2.channel p =? channel s);
    [|reflexivity].
  cbn. destruct (portnum d =? mesh_port_num s + 1); reflexivity.
Qed.

Lemma accept_packet_sleep (s : MeshtasticInterface) (ms : Z) (p : MeshPacket) :
  accept_packet (sleep ms s) p = sleep ms (accept_packet s p).
Proof.
  unfold accept_packet. destruct (decoded p) as [d|]; [|reflexivity].
  cbn [channel sleep]. destruct (mesh_pb2.channel p =? channel s);
    [|reflexivity].
  cbn. destruct (portnum d =? mesh_port_num s + 1); reflexivity.
Qed.

Lemma accept_packets_set_recvbuf (ps : list MeshPacket) :
  forall (s : MeshtasticInterface) (b : bytes),
    fold_left accept_packet ps (set_recvbuf s b)
    = set_recvbuf (fold_left accept_packet ps s) b.
Proof.
  induction ps as [|p ps IH]; intros s b; [reflexivity|].
  cbn [fold_left]. rewrite accept_packet_set_recvbuf. apply IH.
Qed.

Lemma accept_packets_sleep (ps : list MeshPacket) :
  forall (s : MeshtasticInterface) (ms : Z),
    fold_left accept_packet ps (sleep ms s)
    = sleep ms (fold_left accept_packet ps s).
Proof.
  induction ps as [|p ps IH]; intros s ms; [reflexivity|].
  cbn [fold_left]. rewrite accept_packet_sleep. apply IH.
Qed.

Lemma sleep_sleep (s : MeshtasticInterface) (a b : Z) :
  sleep b (sleep a s) = sleep (a + b) s.
Proof. unfold sleep. cbn. rewrite Z.add_assoc. reflexivity. Qed.

Lemma sleep_0 (s : MeshtasticInterface) : sleep 0 s = s.
Proof. unfold sleep. destruct s. cbn. rewrite Z.add_0_r. reflexivity. Qed.

(** The receive loop on the chunks of a stream of frames: all packets
    are handed to the reassembly, whatever the cuts. *)
Lemma read_loop_stream (reads : list bytes) :
  forall (rx : MeshtasticInterface) (inners : list bytes)
         (packets : list MeshPacket) (fuel : nat),
    Forall (fun buf => buf <> []) reads ->
    pending (_recvbuf rx) inners ->
    Forall2 carried inners packets ->
    _recvbuf rx ++ concat reads = concat (map wire_frame inners) ->
    read_loop fuel rx reads
    = Looping (sleep (50 * Z.of_nat (S (length reads)))
                 (set_recvbuf (fold_left accept_packet packets rx) [])).
Proof.
  induction reads as [|buf reads IH]; intros rx inners packets fuel
    Hne Hpend Hall Hstream.
  - cbn [concat] in Hstream. rewrite app_nil_r in Hstream.
    destruct (pending_whole _ _ Hpend Hstream) as [Hb ->].
    inversion Hall; subst. cbn [read_loop fold_left length].
    rewrite set_recvbuf_same by assumption. reflexivity.
  - inversion Hne as [|? ? Hbuf Hne']; subst.
    cbn [concat] in Hstream. rewrite app_assoc in Hstream.
    cbn [read_loop]. unfold read_iteration.
    assert (Hlen : (len buf =? 0) = false).
    { apply Z.eqb_neq. destruct buf; [congruence|].
      unfold len. cbn [length]. lia. }
    rewrite Hlen.
    destruct (decode_chunk (sleep 50 rx) buf (concat reads) inners packets
                Hall Hstream)
      as (ps1 & inners2 & packets2 & buf' & Hrun & -> & Hall2 & Hpend2 & Hs).
    rewrite Hrun.
    rewrite (IH _ inners2 packets2); try assumption.
    + f_equal.
      rewrite accept_packets_set_recvbuf, accept_packets_sleep.
      rewrite accept_packets_set_recvbuf, accept_packets_sleep.
      rewrite fold_left_app.
      unfold sleep, set_recvbuf. cbn -[Z.mul Z.add Z.of_nat].
      f_equal. lia.
    + rewrite accept_packets_set_recvbuf. exact Hpend2.
    + rewrite accept_packets_set_recvbuf. exact Hs.
Qed.

(** The fragments of a run of non-empty messages, reassembled from an
    empty fragment list, are delivered message by message. *)
Lemma accept_packets_messages (tx : MeshtasticInterface)
    (messages : list bytes) :
  0 < MAX_LEN ->
  Forall (fun m => m <> []) messages ->
  forall rx : MeshtasticInterface,
    channel rx = channel tx -> mesh_port_num rx = mesh_port_num tx ->
    _recv_partial_msg rx = [] ->
    fold_left accept_packet (flat_map (fragment_packets tx) messages) rx
    = fold_left process_incoming messages rx.
Proof.
  intros HM Hne. induction Hne as [|m messages Hm _ IH];
    intros rx Hch Hport Hpart; [reflexivity|].
  cbn [flat_map fold_left]. rewrite fold_left_app.
  assert (Hone : fold_left accept_packet (fragment_packets tx m) rx
                 = process_incoming rx m).
  { pose proof (fragment_payloads tx m HM) as Hdata.
    destruct (fragment_packets_series tx rx m HM Hm Hch Hport)
      as (body & last & d & Hsplit & Hbody & Hd & Hlc & Hlp).
    rewrite Hsplit in *.
    rewrite (accept_packets_series rx body last d) by assumption.
    rewrite Hpart. cbn [app]. rewrite Hdata.
    destruct rx; cbn in *; subst; reflexivity. }
  rewrite Hone. apply IH; assumption.
Qed.

Lemma process_incoming_all (messages : list bytes) :
  forall rx : MeshtasticInterface,
    let rx' := fold_left process_incoming messages rx in
    inbound rx' = inbound rx ++ messages /\
    rxb rx' = rxb rx + len (concat messages) /\
    _recvbuf rx' = _recvbuf rx /\
    _recv_partial_msg rx' = _recv_partial_msg rx.
Proof.
  induction messages as [|m messages IH]; intros rx; cbv zeta.
  - cbn. rewrite app_nil_r, Z.add_0_r. auto.
  - cbn [fold_left concat].
    destruct (IH (process_incoming rx m)) as (Hi & Hr & Hb & Hp).
    rewrite Hi, Hr, Hb, Hp. cbn. rewrite <- app_assoc, len_app.
    repeat split. lia.
Qed.

(** End to end on the receiving side: frames that carry the fragments
    of any run of non-empty messages, arriving cut into non-empty reads
    at arbitrary places, are delivered upstream as exactly those
    messages, in order, [rxb] growing by their total length; the loop
    has then slept once for every read and once more, and waits in
    [recv] with both receive buffers empty.  A frame carries a fragment
    when the codec reads its inner message, of 1 to 65535 bytes, as a
    packet with the channel and the application payload of the
    fragment. *)
Theorem read_loop_delivers_messages (tx rx : MeshtasticInterface)
    (messages inners : list bytes) (received : list MeshPacket)
    (reads : list bytes) (fuel : nat) :
  0 < MAX_LEN ->
  Forall (fun m => m <> []) messages ->
  Forall2 carried inners received ->
  Forall2 same_content (flat_map (fragment_packets tx) messages) received ->
  channel rx = channel tx -> mesh_port_num rx = mesh_port_num tx ->
  _recvbuf rx = [] -> _recv_partial_msg rx = [] ->
  Forall (fun buf => buf <> []) reads ->
  concat reads = concat (map wire_frame inners) ->
  exists rx' : MeshtasticInterface,
    read_loop fuel rx reads = Looping rx' /\
    rx' = sleep (50 * Z.of_nat (S (length reads)))
            (fold_left process_incoming messages rx) /\
    inbound rx' = inbound rx ++ messages /\
    rxb rx' = rxb rx + len (concat messages) /\
    _recvbuf rx' = [] /\ _recv_partial_msg rx' = [].
Proof.
  intros HM Hne Hcar Hsame Hch Hport Hbuf Hpart Hreads Hstream.
  destruct (process_incoming_all messages rx) as (Hi & Hr & Hb & Hp).
  pose proof (accept_packets_messages tx messages HM Hne rx Hch Hport Hpart)
    as Hsent.
  assert (Hacc : fold_left accept_packet received rx
                 = fold_left process_incoming messages rx).
  { rewrite <- Hsent.
    apply accept_packets_received; [exact Hsame | exact Hpart|].
    rewrite Hsent, Hp. exact Hpart. }
  eexists. split.
  - apply (read_loop_stream reads rx inners received fuel Hreads);
      [|exact Hcar|].
    + rewrite Hbuf. destruct inners; [reflexivity|].
      exists 0%nat. split; [rewrite length_wire_frame; lia | reflexivity].
    + rewrite Hbuf. exact Hstream.
  - rewrite Hacc.
    rewrite set_recvbuf_same by (rewrite Hb; assumption).
    split; [reflexivity|].
    cbn [inbound rxb _recvbuf _recv_partial_msg sleep].
    rewrite Hi, Hr, Hb, Hp. auto.
Qed.

(** A lost sentinel: when the fragments of a message arrive without its
    last one and are followed by the fragments of a second message,
    nothing is delivered for the first, and the second sentinel
    delivers one message, the received part of the first followed by
    the second. *)
Theorem lost_sentinel_merges_messages (tx rx : MeshtasticInterface)
    (m1 m2 : bytes) :
  0 < MAX_LEN -> m1 <> [] -> m2 <> [] ->
  channel rx = channel tx -> mesh_port_num rx = mesh_port_num tx ->
  _recv_partial_msg rx = [] ->
  let received := removelast (fragment_packets tx m1) in
  fold_left accept_packet received rx
  = set_recv_partial_msg rx received /\
  fold_left accept_packet (received ++ fragment_packets tx m2) rx
  = process_incoming rx (concat (map decoded_payload received) ++ m2).
Proof.
  intros HM H1 H2 Hch Hport Hpart received.
  destruct (fragment_packets_series tx rx m1 HM H1 Hch Hport)
    as (body1 & last1 & d1 & Hsplit1 & Hbody1 & _).
  pose proof (fragment_payloads tx m2 HM) as Hdata2.
  destruct (fragment_packets_series tx rx m2 HM H2 Hch Hport)
    as (body2 & last2 & d2 & Hsplit2 & Hbody2 & Hd2 & Hlc2 & Hlp2).
  assert (Hrec : received = body1)
    by (unfold received; rewrite Hsplit1; apply removelast_last).
  rewrite Hrec, Hsplit2 in *. split.
  - rewrite accept_packets_buffer, Hpart by assumption. reflexivity.
  - rewrite app_assoc.
    rewrite (accept_packets_series rx (body1 ++ body2) last2 d2);
      try assumption; [|apply Forall_app; auto].
    rewrite Hpart. cbn [app].
    rewrite <- app_assoc, map_app, concat_app, Hdata2.
    destruct rx; cbn in *; subst; reflexivity.
Qed.

(** *** Reconnecting keeps the receive state *)

Lemma reconnect_attempt_keeps (self : MeshtasticInterface) :
  let st := fst (reconnect_attempt self) in
  _recvbuf st = _recvbuf self /\
  _recv_partial_msg st = _recv_partial_msg self /\
  rxb st = rxb self /\ txb st = txb self /\ inbound st = inbound self /\
  channel st = channel self /\ mesh_port_num st = mesh_port_num self.
Proof.
  destruct (reconnect_attempt_outcome self)
    as [(_ & e & Hatt) | (_ & k & Hatt)]; rewrite Hatt; cbn;
    repeat split; reflexivity.
Qed.

(** Neither the disconnect nor any number of reconnect attempts, failed
    or successful, resets the receive side: the accumulation buffer,
    the fragments waiting for a sentinel, both byte counters and the
    configuration stay as they were, so bytes of a frame cut off by the
    disconnect are still in the buffer when the new connection
    delivers its first bytes. *)
Theorem reconnect_keeps_receive_state (fuel : nat) :
  forall (self : MeshtasticInterface) (reads : list bytes),
    let kept (st : MeshtasticInterface) :=
      _recvbuf st = _recvbuf self /\
      _recv_partial_msg st = _recv_partial_msg self /\
      rxb st = rxb self /\ txb st = txb self /\ inbound st = inbound self /\
      channel st = channel self /\ mesh_port_num st = mesh_port_num self in
    kept (run_state (reconnect_port fuel self)) /\
    kept (run_state (read_loop fuel self ([] :: reads))).
Proof.
  assert (Hrec : forall fuel' self,
             let st := run_state (reconnect_port fuel' self) in
             _recvbuf st = _recvbuf self /\
             _recv_partial_msg st = _recv_partial_msg self /\
             rxb st = rxb self /\ txb st = txb self /\
             inbound st = inbound self /\
             channel st = channel self /\
             mesh_port_num st = mesh_port_num self).
  { induction fuel' as [|fuel' IH]; intros self; cbv zeta.
    - cbn. repeat split; reflexivity.
    - cbn [reconnect_port].
      destruct (online self); cbn [negb]; [cbn; repeat split; reflexivity|].
      pose proof (reconnect_attempt_keeps self) as Hk. cbv zeta in Hk.
      destruct (reconnect_attempt self) as [st1 [u | e]]; cbn [fst] in Hk;
        specialize (IH st1); cbv zeta in IH;
        destruct Hk as (-> & -> & -> & -> & -> & -> & ->) in IH;
        exact IH. }
  intros self reads kept. split.
  - apply Hrec.
  - unfold kept. cbn [read_loop]. unfold read_iteration.
    cbn [len length Z.of_nat Z.eqb].
    apply (Hrec fuel (set_online (sleep 50 self) false)).
Qed.

(** *** The bytes of [process_outgoing] at a receive loop *)

Lemma read_back_empty_packets (ps : list MeshPacket) :
  Forall read_back_empty ps ->
  exists qs : list MeshPacket,
    Forall2 carried (map (fun p => SerializeToString (TR_packet p)) ps) qs /\
    Forall (fun q => decoded q = None) qs.
Proof.
  induction 1 as [|p ps (q & Hq & Hnone) _ (qs & Hqs & Hall)].
  - exists []. split; constructor.
  - exists (q :: qs). split; constructor; assumption.
Qed.

Lemma len_frames_carried (inners : list bytes) (qs : list MeshPacket) :
  Forall2 carried inners qs ->
  5 * len inners <= len (concat (map wire_frame inners)).
Proof.
  induction 1 as [|inner q inners qs [Hin _] _ IH]; [cbn; lia|].
  cbn [map concat]. rewrite len_app, len_wire_frame.
  replace (len (inner :: inners)) with (1 + len inners)
    by (unfold len; cbn [length]; lia).
  lia.
Qed.

Lemma accept_packets_undecoded (qs : list MeshPacket) :
  Forall (fun q => decoded q = None) qs ->
  forall s : MeshtasticInterface, fold_left accept_packet qs s = s.
Proof.
  induction 1 as [|q qs Hq _ IH]; intros s; [reflexivity|].
  cbn [fold_left]. unfold accept_packet at 2. rewrite Hq. apply IH.
Qed.

(** What an interface sends is not what an interface reads:
    [process_outgoing] writes [ToRadio] messages and [read_loop] reads
    [FromRadio] messages.  When the codec finds no application payload
    in the messages written, the bytes that [process_outgoing] of a
    non-empty payload appends to the stream, read back by a receive
    loop with an empty accumulation buffer, are decoded and dropped
    frame by frame: nothing is delivered or kept, and the loop goes on
    to its next [recv]. *)
Theorem own_frames_deliver_nothing (tx rx : MeshtasticInterface)
    (data : bytes) :
  online tx = true ->
  (forall w d, accepts w d = Some (length d)) ->
  0 < MAX_LEN -> data <> [] ->
  Forall read_back_empty (fragment_packets tx data) ->
  _recvbuf rx = [] ->
  exists (tx' : MeshtasticInterface) (sent : bytes),
    process_outgoing tx data = (tx', Returned tt) /\
    wire (_sock tx') = wire (_sock tx) ++ sent /\
    txb tx' = txb tx + len sent /\
    4 * fragment_count data < len sent /\
    read_iteration rx sent = Continue rx /\
    forall fuel : nat, read_loop fuel rx [sent] = Looping (sleep 100 rx).
Proof.
  intros Hon Hsock HM Hne Hcodec Hbuf.
  unfold process_outgoing. rewrite Hon.
  rewrite create_mesh_packets_frames by lia.
  destruct (send_packets_spec (map frame_of (fragment_packets tx data)) tx)
    as (pieces & out & Hrun & _ & _ & Hfull).
  destruct (Hfull Hsock) as [-> ->].
  destruct (read_back_empty_packets _ Hcodec) as (qs & Hqs & Hnone).
  set (packets := fragment_packets tx data) in *.
  set (sent := concat (map frame_of packets)).
  assert (Hsent : sent = concat (map wire_frame
                    (map (fun p => SerializeToString (TR_packet p)) packets)))
    by (unfold sent, frame_of; rewrite map_map; reflexivity).
  assert (Hlen : 4 * fragment_count data < len sent).
  { assert (Hcount : len packets = fragment_count data).
    { unfold packets. rewrite fragment_packets_seq by assumption.
      pose proof (fragment_count_pos data HM Hne).
      unfold len. rewrite length_map, length_seq. lia. }
    pose proof (fragment_count_pos data HM Hne).
    pose proof (len_frames_carried _ _ Hqs) as Hfive.
    rewrite <- Hsent in Hfive. unfold len at 1 in Hfive.
    rewrite length_map in Hfive. fold (len packets) in Hfive. lia. }
  assert (Hread : forall s : MeshtasticInterface,
             _recvbuf s = [] -> read_iteration s sent = Continue s).
  { intros s Hs. unfold read_iteration.
    assert (Hz : (len sent =? 0) = false).
    { apply Z.eqb_neq. pose proof (fragment_count_pos data HM Hne). lia. }
    rewrite Hz.
    rewrite (decode_frames s sent
               (map (fun p => SerializeToString (TR_packet p)) packets) qs);
      [|rewrite Hs; exact Hsent | exact Hqs].
    rewrite (accept_packets_undecoded qs Hnone).
    rewrite set_recvbuf_same by assumption. reflexivity. }
  exists (sent_state tx (map frame_of packets)), sent.
  split; [exact Hrun|]. split; [reflexivity|]. split; [reflexivity|].
  split; [exact Hlen|]. split; [apply Hread; exact Hbuf|].
  intros fuel. cbn [read_loop].
  rewrite Hread by exact Hbuf. cbn [read_loop].
  rewrite sleep_sleep. reflexivity.
Qed.

(** ** The stateless decoder and encoder of the tools *)

Lemma getitem_app (pre l : bytes) (j : nat) :
  getitem (pre ++ l) (len pre + Z.of_nat j) = getitem l (Z.of_nat j).
Proof.
  unfold getitem, len.
  replace (Z.to_nat (Z.of_nat (length pre) + Z.of_nat j))
    with (length pre + j)%nat by lia.
  rewrite Nat2Z.id, nth_error_app2 by lia.
  replace (length pre + j - length pre)%nat with j by lia. reflexivity.
Qed.

Lemma getitem_past (b : bytes) (i : Z) :
  len b <= i -> getitem b i = Failure IndexError.
Proof.
  intros Hi. unfold getitem.
  destruct (nth_error b (Z.to_nat i)) eqn:E; [|reflexivity].
  apply nth_error_Some_lt in E || (assert (E' := nth_error_Some b (Z.to_nat i));
                                   rewrite E in E').
  all: unfold len in Hi; exfalso; try lia.
  assert (Z.to_nat i < length b)%nat by (apply E'; discriminate). lia.
Qed.

Lemma slice_middle (pre mid rest : bytes) :
  slice (pre ++ mid ++ rest) (len pre) (len pre + len mid) = mid.
Proof.
  unfold slice, len.
  replace (Z.to_nat (Z.of_nat (length pre) + Z.of_nat (length mid)
                     - Z.of_nat (length pre))) with (length mid) by lia.
  rewrite Nat2Z.id, skipn_app, Nat.sub_diag, skipn_all. cbn [app skipn].
  rewrite firstn_app, Nat.sub_diag, firstn_all. cbn [firstn].
  apply app_nil_r.
Qed.

Lemma getitem_header (n : Z) (l : bytes) :
  0 <= n < 65536 ->
  getitem (frame_header n ++ l) (Z.of_nat 0) = Success MT_MAGIC_0 /\
  getitem (frame_header n ++ l) (Z.of_nat 1) = Success MT_MAGIC_1 /\
  getitem (frame_header n ++ l) (Z.of_nat 2)
  = Success (Z.land (Z.shiftr n 8) 0xFF) /\
  getitem (frame_header n ++ l) (Z.of_nat 3) = Success (Z.land n 0xFF).
Proof.
  intros Hn.
  destruct (length_prefix_split n Hn) as (Hhi & Hlo & _).
  unfold getitem. rewrite !Nat2Z.id.
  unfold frame_header. cbn [app nth_error].
  rewrite !int_of_byte_of_int
    by (assumption || (unfold MT_MAGIC_0, MT_MAGIC_1; lia)).
  auto.
Qed.

(** A whole frame at [idx] is decoded and [idx] moves past it. *)
Lemma decode_mesh_packets_iteration_frame (pre inner rest : bytes)
    (result : list MeshPacket) (p : MeshPacket) :
  framed inner p ->
  decode_mesh_packets_iteration (pre ++ wire_frame inner ++ rest) (len pre)
    result
  = Success (len pre + 4 + len inner, result ++ [p]).
Proof.
  intros [Hlen Hp]. pose proof (len_nonneg inner) as Hpos.
  destruct (length_prefix_split (len inner) ltac:(lia)) as (Hhi & Hlo & Hsum).
  destruct (getitem_header (len inner) (inner ++ rest) ltac:(lia))
    as (H0 & H1 & H2 & H3).
  unfold decode_mesh_packets_iteration.
  rewrite <- (Z.add_0_r (len pre)) at 1.
  change 0 with (Z.of_nat 0) at 1. change 1 with (Z.of_nat 1) at 1.
  change 2 with (Z.of_nat 2) at 1. change 3 with (Z.of_nat 3) at 1.
  rewrite !getitem_app.
  unfold wire_frame. cbv zeta. rewrite <- !app_assoc.
  rewrite H0, H1, H2, H3, !Z.eqb_refl, lor_shiftl_8, Hsum by assumption.
  rewrite (app_assoc pre).
  replace (len pre + 4) with (len (pre ++ frame_header (len inner)))
    by (rewrite len_app; reflexivity).
  rewrite slice_middle, Hp.
  rewrite len_app. reflexivity.
Qed.

(** Whole frames are decoded one after the other, empty inner messages
    included, whatever follows them. *)
Lemma decode_mesh_packets_loop_frames (inners : list bytes)
    (packets : list MeshPacket) :
  Forall2 framed inners packets ->
  forall (pre tail : bytes) (fuel : nat) (result : list MeshPacket),
    decode_mesh_packets_loop (length inners + fuel)
      (pre ++ concat (map wire_frame inners) ++ tail) (len pre) result
    = decode_mesh_packets_loop fuel
        (pre ++ concat (map wire_frame inners) ++ tail)
        (len pre + len (concat (map wire_frame inners))) (result ++ packets).
Proof.
  induction 1 as [| inner p inners packets Hf Hall IH];
    intros pre tail fuel result.
  - cbn. rewrite Z.add_0_r, app_nil_r. reflexivity.
  - cbn [map concat length Nat.add decode_mesh_packets_loop].
    rewrite <- !app_assoc.
    assert (Hidx : len pre
                   < len (pre ++ wire_frame inner
                          ++ concat (map wire_frame inners) ++ tail)).
    { rewrite !len_app, len_wire_frame.
      pose proof (len_nonneg inner).
      pose proof (len_nonneg (concat (map wire_frame inners))).
      pose proof (len_nonneg tail). lia. }
    destruct (Z.ltb_spec (len pre)
                (len (pre ++ wire_frame inner
                      ++ concat (map wire_frame inners) ++ tail))); [|lia].
    rewrite (decode_mesh_packets_iteration_frame pre inner _ result p Hf).
    specialize (IH (pre ++ wire_frame inner) tail fuel (result ++ [p])).
    rewrite <- !app_assoc in IH.
    replace (len pre + 4 + len inner) with (len (pre ++ wire_frame inner))
      by (rewrite len_app, len_wire_frame; lia).
    rewrite IH. rewrite !len_app, len_wire_frame.
    f_equal. lia.
Qed.

Lemma decode_mesh_packets_iteration_advances (data : bytes) (idx idx' : Z)
    (result result' : list MeshPacket) :
  decode_mesh_packets_iteration data idx result = Success (idx', result') ->
  idx < idx'.
Proof.
  unfold decode_mesh_packets_iteration.
  destruct (getitem data idx) as [b0|]; [|discriminate].
  destruct (b0 =? MT_MAGIC_0); [|intros H; inversion H; lia].
  destruct (getitem data (idx + 1)) as [b1|]; [|discriminate].
  destruct (b1 =? MT_MAGIC_1); [|intros H; inversion H; lia].
  unfold getitem.
  destruct (nth_error data (Z.to_nat (idx + 2))) as [c2|]; [|discriminate].
  destruct (nth_error data (Z.to_nat (idx + 3))) as [c3|]; [|discriminate].
  cbv zeta. destruct (FromString_packet _); [|discriminate].
  intros H.
  assert (idx' = idx + 4 + Z.lor (Z.shiftl (int_of_byte c2) 8) (int_of_byte c3))
    as -> by congruence.
  pose proof (int_of_byte_range c2). pose proof (int_of_byte_range c3).
  rewrite lor_shiftl_8 by assumption. lia.
Qed.

(** Fuel above the number of bytes left is always enough. *)
Lemma decode_mesh_packets_fuel (fuel : nat) :
  forall (data : bytes) (idx : Z) (result : list MeshPacket),
    Z.max 0 (len data - idx) < Z.of_nat fuel ->
    exists r, decode_mesh_packets_loop fuel data idx result = Some r.
Proof.
  induction fuel as [|fuel IH]; intros data idx result Hfuel; [lia|].
  cbn [decode_mesh_packets_loop].
  destruct (Z.ltb_spec idx (len data)) as [Hidx | Hidx]; [|eauto].
  destruct (decode_mesh_packets_iteration data idx result)
    as [[idx' result'] | e] eqn:Hit; [|eauto].
  apply decode_mesh_packets_iteration_advances in Hit.
  apply IH. lia.
Qed.

Lemma decode_mesh_packets_more_fuel (fuel : nat) :
  forall (fuel' : nat) (data : bytes) (idx : Z) (result : list MeshPacket) r,
    decode_mesh_packets_loop fuel data idx result = Some r ->
    (fuel <= fuel')%nat ->
    decode_mesh_packets_loop fuel' data idx result = Some r.
Proof.
  induction fuel as [|fuel IH]; intros fuel' data idx result r Hrun Hle;
    [discriminate|].
  destruct fuel' as [|fuel']; [lia|].
  cbn [decode_mesh_packets_loop] in *.
  destruct (idx <? len data); [|assumption].
  destruct (decode_mesh_packets_iteration data idx result)
    as [[idx' result'] | e]; [|assumption].
  apply IH; [assumption | lia].
Qed.

(** The call on whole frames followed by [tail], brought to the point
    where the loop stands at [tail]. *)
Lemma decode_mesh_packets_after_frames (inners : list bytes)
    (packets : list MeshPacket) (tail : bytes) (r : attempt (list MeshPacket)) :
  Forall2 framed inners packets ->
  decode_mesh_packets_loop (S (length tail))
    (concat (map wire_frame inners) ++ tail)
    (len (concat (map wire_frame inners))) packets = Some r ->
  decode_mesh_packets (concat (map wire_frame inners) ++ tail) = r.
Proof.
  intros Hall Hrun. unfold decode_mesh_packets.
  pose proof (decode_mesh_packets_loop_frames inners packets Hall [] tail
                (S (length tail)) []) as Hfr.
  cbn [app len length Z.of_nat Z.add] in Hfr. rewrite Hrun in Hfr.
  rewrite (decode_mesh_packets_more_fuel _ _ _ _ _ _ Hfr); [reflexivity|].
  rewrite length_app. pose proof (length_concat_frames inners). lia.
Qed.

Lemma decode_mesh_packets_whole (inners : list bytes)
    (packets : list MeshPacket) :
  Forall2 framed inners packets ->
  decode_mesh_packets (concat (map wire_frame inners)) = Success packets.
Proof.
  intros Hall.
  rewrite <- (app_nil_r (concat (map wire_frame inners))).
  apply (decode_mesh_packets_after_frames inners packets [] _ Hall).
  rewrite app_nil_r. cbn [decode_mesh_packets_loop].
  destruct (Z.ltb_spec (len (concat (map wire_frame inners)))
              (len (concat (map wire_frame inners)))); [lia | reflexivity].
Qed.

(** The stateless decoder on whole frames: a byte string made of
    complete frames, inner messages of length 0 included, decodes to
    exactly their packets, in order. *)
Theorem decode_mesh_packets_frames (inners : list bytes)
    (packets : list MeshPacket) :
  Forall2 framed inners packets ->
  decode_mesh_packets (concat (map wire_frame inners)) = Success packets.
Proof.
  intros Hall.
  pose proof (decode_mesh_packets_loop_frames inners packets Hall [] [] 1 [])
    as Hrun.
  rewrite !app_nil_r in Hrun. cbn [app len length Z.of_nat Z.add] in Hrun.
  cbn [decode_mesh_packets_loop] in Hrun.
  rewrite Z.ltb_irrefl in Hrun.
  unfold decode_mesh_packets.
  rewrite (decode_mesh_packets_more_fuel _ _ _ _ _ _ Hrun); [reflexivity|].
  pose proof (length_concat_frames inners). lia.
Qed.

(** A header cut off at the end of the data: when the bytes end one,
    two or three bytes into a frame, after any number of whole frames,
    the stateless decoder indexes past the end and the call ends in
    [IndexError]; the packets decoded before are not returned. *)
Theorem decode_mesh_packets_cut_header (inners : list bytes)
    (packets : list MeshPacket) (inner : bytes) (k : nat) :
  Forall2 framed inners packets ->
  len inner < 65536 ->
  (1 <= k <= 3)%nat ->
  decode_mesh_packets
    (concat (map wire_frame inners) ++ firstn k (wire_frame inner))
  = Failure IndexError.
Proof.
  intros Hall Hlen Hk.
  apply (decode_mesh_packets_after_frames inners packets _ _ Hall).
  set (stream := concat (map wire_frame inners)).
  set (tail := firstn k (wire_frame inner)).
  assert (Htl : length tail = k)
    by (apply firstn_length_le; rewrite length_wire_frame; lia).
  cbn [decode_mesh_packets_loop].
  assert (Hidx : len stream < len (stream ++ tail))
    by (rewrite len_app; unfold len; lia).
  destruct (Z.ltb_spec (len stream) (len (stream ++ tail))); [|lia].
  assert (Hit : decode_mesh_packets_iteration (stream ++ tail) (len stream) packets
                = Failure IndexError).
  { pose proof (len_nonneg inner) as Hpos.
    destruct (getitem_header (len inner) inner ltac:(lia)) as (H0 & H1 & H2 & _).
    unfold decode_mesh_packets_iteration.
    assert (Hget : forall j : nat,
               (j < k)%nat ->
               getitem (stream ++ tail) (len stream + Z.of_nat j)
               = getitem (wire_frame inner) (Z.of_nat j)).
    { intros j Hj. rewrite getitem_app. unfold getitem, tail.
      rewrite Nat2Z.id.
      assert (Hn : forall d, nth j (firstn k (wire_frame inner)) d
                             = nth j (wire_frame inner) d).
      { intros d. rewrite nth_firstn.
        destruct (Nat.ltb_spec j k); [reflexivity | lia]. }
      rewrite !(nth_error_nth' _ x00)
        by (rewrite ?length_firstn, length_wire_frame; lia).
      rewrite Hn. reflexivity. }
    assert (Hpast : forall j : nat,
               (k <= j)%nat ->
               getitem (stream ++ tail) (len stream + Z.of_nat j)
               = Failure IndexError).
    { intros j Hj. apply getitem_past. rewrite len_app. unfold len. lia. }
    rewrite <- (Z.add_0_r (len stream)) at 1.
    change 0 with (Z.of_nat 0) at 1. change 1 with (Z.of_nat 1) at 1.
    change 2 with (Z.of_nat 2) at 1. change 3 with (Z.of_nat 3) at 1.
    unfold wire_frame in Hget. cbv zeta in Hget.
    rewrite (Hget 0%nat), H0, Z.eqb_refl by lia.
    destruct (Nat.le_gt_cases k 1).
    - rewrite (Hpast 1%nat) by lia. reflexivity.
    - rewrite (Hget 1%nat), H1, Z.eqb_refl by lia.
      destruct (Nat.le_gt_cases k 2).
      + rewrite (Hpast 2%nat) by lia. reflexivity.
      + rewrite (Hget 2%nat), H2 by lia.
        rewrite (Hpast 3%nat) by lia. reflexivity. }
  rewrite Hit. reflexivity.
Qed.

(** A frame cut off at the end of the data: when the bytes end inside
    the inner message of a frame, the stateless decoder does not wait
    for the rest; it hands the codec the part that is there and
    returns its packet after those of the whole frames, or ends in the
    codec's [DecodeError]. *)
Theorem decode_mesh_packets_cut_frame (inners : list bytes)
    (packets : list MeshPacket) (inner : bytes) (k : nat) :
  Forall2 framed inners packets ->
  len inner < 65536 ->
  (4 <= k < length (wire_frame inner))%nat ->
  decode_mesh_packets
    (concat (map wire_frame inners) ++ firstn k (wire_frame inner))
  = match FromString_packet (firstn (k - 4) inner) with
    | Some p => Success (packets ++ [p])
    | None => Failure (Builtin DecodeError)
    end.
Proof.
  intros Hall Hlen Hk.
  apply (decode_mesh_packets_after_frames inners packets _ _ Hall).
  set (stream := concat (map wire_frame inners)).
  set (tail := firstn k (wire_frame inner)).
  assert (Htl : length tail = k) by (apply firstn_length_le; lia).
  rewrite Htl. destruct k as [|k]; [lia|].
  cbn [decode_mesh_packets_loop].
  assert (Hidx : len stream < len (stream ++ tail))
    by (rewrite len_app; unfold len; lia).
  destruct (Z.ltb_spec (len stream) (len (stream ++ tail))); [|lia].
  pose proof (len_nonneg inner) as Hpos.
  destruct (length_prefix_split (len inner) ltac:(lia)) as (Hhi & Hlo & Hsum).
  destruct (getitem_header (len inner) inner ltac:(lia)) as (H0 & H1 & H2 & H3).
  assert (Hget : forall j : nat,
             (j < 4)%nat ->
             getitem (stream ++ tail) (len stream + Z.of_nat j)
             = getitem (wire_frame inner) (Z.of_nat j)).
  { intros j Hj. rewrite getitem_app. unfold getitem, tail.
    rewrite Nat2Z.id.
    assert (Hn : forall d, nth j (firstn (S k) (wire_frame inner)) d
                           = nth j (wire_frame inner) d).
    { intros d. rewrite nth_firstn.
      destruct (Nat.ltb_spec j (S k)); [reflexivity | lia]. }
    rewrite !(nth_error_nth' _ x00) by (rewrite ?length_firstn; lia).
    rewrite Hn. reflexivity. }
  assert (Hslice : slice (stream ++ tail) (len stream + 4)
                     (len stream + 4 + len inner)
                   = firstn (S k - 4) inner).
  { unfold slice, len.
    replace (Z.to_nat (Z.of_nat (length stream) + 4 + Z.of_nat (length inner)
                       - (Z.of_nat (length stream) + 4)))
      with (length inner) by lia.
    replace (Z.to_nat (Z.of_nat (length stream) + 4))
      with (length stream + 4)%nat by lia.
    rewrite skipn_app.
    replace (length stream + 4 - length stream)%nat with 4%nat by lia.
    rewrite skipn_all2 by lia. cbn [app].
    unfold tail. replace (S k) with (4 + (S k - 4))%nat at 1 by lia.
    rewrite <- firstn_skipn_comm.
    change (skipn 4 (wire_frame inner)) with inner.
    rewrite firstn_firstn. f_equal.
    rewrite length_wire_frame in Hk. lia. }
  unfold decode_mesh_packets_iteration.
  rewrite <- (Z.add_0_r (len stream)) at 1.
  change 0 with (Z.of_nat 0) at 1. change 1 with (Z.of_nat 1) at 1.
  change 2 with (Z.of_nat 2) at 1. change 3 with (Z.of_nat 3) at 1.
  unfold wire_frame in Hget. cbv zeta in Hget.
  rewrite !Hget, H0, H1, H2, H3, !Z.eqb_refl by lia.
  cbv zeta. rewrite lor_shiftl_8, Hsum, Hslice by assumption.
  destruct (FromString_packet (firstn (S k - 4) inner)) as [p|];
    [|reflexivity].
  destruct k as [|k]; [lia|]. cbn [decode_mesh_packets_loop].
  destruct (Z.ltb_spec (len stream + 4 + len inner) (len (stream ++ tail)));
    [|reflexivity].
  exfalso. rewrite len_app in *. unfold len in *.
  rewrite length_wire_frame in Hk. lia.
Qed.

(** *** The stateless encoder *)

Lemma create_mesh_packet_loop_packets (data : bytes) (mesh_channel portnum : Z)
    (starts : list Z) :
  forall (drawn : nat) (result : bytes),
    create_mesh_packet_loop data mesh_channel portnum drawn starts result
    = result
      ++ concat (map frame_of
                   (utils_packets_from data mesh_channel portnum drawn starts)).
Proof.
  induction starts as [|s starts IH]; intros drawn result;
    cbn [create_mesh_packet_loop utils_packets_from map concat].
  - rewrite app_nil_r. reflexivity.
  - rewrite IH, <- app_assoc. reflexivity.
Qed.

Lemma utils_packets_from_payloads (data : bytes) (mesh_channel portnum : Z)
    (starts : list Z) :
  forall drawn : nat,
    map decoded_payload
      (utils_packets_from data mesh_channel portnum drawn starts)
    = map (fun s => slice data s (s + MAX_MESH_PACKET)) starts.
Proof.
  induction starts as [|s starts IH]; intros drawn; [reflexivity|].
  cbn [utils_packets_from map]. rewrite IH. reflexivity.
Qed.

Lemma utils_packets_from_ids (data : bytes) (mesh_channel portnum : Z)
    (starts : list Z) :
  forall drawn : nat,
    map id (utils_packets_from data mesh_channel portnum drawn starts)
    = map randint (seq drawn (length starts)).
Proof.
  induction starts as [|s starts IH]; intros drawn; [reflexivity|].
  cbn [utils_packets_from map length seq]. rewrite IH. reflexivity.
Qed.

Lemma chunks_cover {A : Type} (data : list A) (M : Z) :
  0 < M ->
  concat (map (fun s => slice data s (s + M))
              (map (fun i => Z.of_nat i * M)
                   (seq 0 (Z.to_nat ((len data + M - 1) / M)))))
  = data.
Proof.
  intros HM. rewrite map_map.
  rewrite (map_ext _ (fun i => firstn (Z.to_nat M)
                                 (skipn (i * Z.to_nat M) data)))
    by (intros i; apply slice_chunk; assumption).
  rewrite concat_chunks. cbn [Nat.mul skipn].
  apply firstn_all2.
  pose proof (Z.div_mod (len data + M - 1) M ltac:(lia)) as Hdm.
  pose proof (Z.mod_pos_bound (len data + M - 1) M HM) as Hr.
  assert (0 <= (len data + M - 1) / M)
    by (apply Z.div_pos; [pose proof (len_nonneg data)|]; lia).
  unfold len in *. nia.
Qed.

Lemma utils_packets_from_length (data : bytes) (mesh_channel portnum : Z)
    (starts : list Z) :
  forall drawn : nat,
    length (utils_packets_from data mesh_channel portnum drawn starts)
    = length starts.
Proof.
  induction starts as [|s starts IH]; intros drawn; [reflexivity|].
  cbn [utils_packets_from length]. rewrite IH. reflexivity.
Qed.

Lemma create_mesh_packet_shape (drawn : nat) (data : bytes)
    (mesh_channel portnum : Z) :
  0 < MAX_MESH_PACKET ->
  let packets := utils_packets drawn data mesh_channel portnum in
  create_mesh_packet drawn data mesh_channel portnum
  = Returned (concat (map frame_of packets)) /\
  len packets = (len data + MAX_MESH_PACKET - 1) / MAX_MESH_PACKET /\
  concat (map decoded_payload packets) = data /\
  Forall (fun p =>
            to p = MESH_DEST_ADDR /\ want_ack p = false /\
            mesh_pb2.channel p = mesh_channel /\
            exists d, decoded p = Some d /\ mesh_pb2.portnum d = portnum /\
                      len (payload d) <= MAX_MESH_PACKET)
         packets.
Proof.
  intros HM packets.
  unfold create_mesh_packet, packets, utils_packets, py_range.
  destruct (Z.eqb_spec MAX_MESH_PACKET 0); [lia|].
  destruct (Z.ltb_spec MAX_MESH_PACKET 0); [lia|].
  set (starts := map (fun i => Z.of_nat i * MAX_MESH_PACKET)
                     (seq 0 (Z.to_nat ((len data + MAX_MESH_PACKET - 1)
                                       / MAX_MESH_PACKET)))).
  assert (Hcount : 0 <= (len data + MAX_MESH_PACKET - 1) / MAX_MESH_PACKET)
    by (apply Z.div_pos; [pose proof (len_nonneg data)|]; lia).
  split; [rewrite create_mesh_packet_loop_packets; reflexivity|].
  split.
  { unfold len at 1. rewrite utils_packets_from_length. unfold starts.
    rewrite length_map, length_seq. lia. }
  split.
  { rewrite utils_packets_from_payloads. apply chunks_cover. assumption. }
  generalize starts drawn. intros s. induction s as [|x s IH]; intros d;
    cbn [utils_packets_from]; constructor; [|apply IH].
  cbn. repeat split. eexists. split; [reflexivity|]. cbn.
  split; [reflexivity|].
  unfold slice, len. rewrite length_firstn. lia.
Qed.

(** [create_mesh_packet] cuts the data into ceil(len / MAX_MESH_PACKET)
    frames whose payloads, in order, make up the data; every packet
    carries the port number given, none is marked as last, each has
    an id drawn afresh, and empty data gives the empty byte string. *)
Theorem create_mesh_packet_fragments (drawn : nat) (data : bytes)
    (mesh_channel portnum : Z) :
  0 < MAX_MESH_PACKET ->
  let packets := utils_packets drawn data mesh_channel portnum in
  create_mesh_packet drawn data mesh_channel portnum
  = Returned (concat (map frame_of packets)) /\
  len packets = (len data + MAX_MESH_PACKET - 1) / MAX_MESH_PACKET /\
  concat (map decoded_payload packets) = data /\
  Forall (fun p =>
            to p = MESH_DEST_ADDR /\ want_ack p = false /\
            mesh_pb2.channel p = mesh_channel /\
            exists d, decoded p = Some d /\ mesh_pb2.portnum d = portnum /\
                      len (payload d) <= MAX_MESH_PACKET)
         packets /\
  map id packets = map randint (seq drawn (length packets)) /\
  (data = [] -> create_mesh_packet drawn data mesh_channel portnum = Returned []).
Proof.
  intros HM packets.
  destruct (create_mesh_packet_shape drawn data mesh_channel portnum HM)
    as (Hcreate & Hcount & Hdata & Hshape).
  fold packets in Hcreate, Hcount, Hdata, Hshape.
  split; [exact Hcreate|]. split; [exact Hcount|].
  split; [exact Hdata|]. split; [exact Hshape|].
  split.
  - unfold packets, utils_packets.
    destruct (py_range (len data) MAX_MESH_PACKET) as [starts | e];
      [|reflexivity].
    rewrite utils_packets_from_ids, utils_packets_from_length. reflexivity.
  - intros ->. unfold create_mesh_packet, py_range.
    destruct (Z.eqb_spec MAX_MESH_PACKET 0); [lia|].
    destruct (Z.ltb_spec MAX_MESH_PACKET 0); [lia|].
    cbn [len length Z.of_nat Z.add].
    replace ((MAX_MESH_PACKET - 1) / MAX_MESH_PACKET) with 0
      by (symmetry; apply Z.div_small; lia).
    reflexivity.
Qed.

(** The channel filter of the tools, on packets with the same content. *)
Lemma same_content_filter (mesh_channel : Z) (ps qs : list MeshPacket) :
  Forall2 same_content ps qs ->
  let wanted (packet : MeshPacket) :=
    match decoded packet with
    | Some _ => mesh_pb2.channel packet =? mesh_channel
    | None => false
    end in
  map decoded_payload (filter wanted qs)
  = map decoded_payload (filter wanted ps).
Proof.
  intros Hall wanted. subst wanted.
  induction Hall as [|p q ps qs [Hch Hd] _ IH]; [reflexivity|].
  cbn [filter]. rewrite <- Hd, <- Hch.
  destruct (decoded p) as [d|] eqn:Hp; [|exact IH].
  destruct (mesh_pb2.channel p =? mesh_channel); [|exact IH].
  cbn [map]. rewrite IH. f_equal.
  unfold decoded_payload. rewrite <- Hd, Hp. reflexivity.
Qed.

Lemma utils_packets_wanted (mesh_channel port : Z)
    (packets : list MeshPacket) :
  Forall (fun p =>
            to p = MESH_DEST_ADDR /\ want_ack p = false /\
            mesh_pb2.channel p = mesh_channel /\
            exists d, decoded p = Some d /\ mesh_pb2.portnum d = port /\
                      len (payload d) <= MAX_MESH_PACKET)
         packets ->
  forall ch : Z,
    filter (fun packet =>
              match decoded packet with
              | Some _ => mesh_pb2.channel packet =? ch
              | None => false
              end) packets
    = if mesh_channel =? ch then packets else [].
Proof.
  intros Hshape ch.
  induction Hshape as [|p ps Hp _ IH];
    [destruct (mesh_channel =? ch); reflexivity|].
  cbn [filter]. destruct Hp as (_ & _ & Hch & d & Hd & _).
  rewrite Hd, Hch, IH. destruct (mesh_channel =? ch); reflexivity.
Qed.

Lemma read_back_empty_framed (ps : list MeshPacket) :
  Forall read_back_empty ps ->
  exists qs : list MeshPacket,
    Forall2 framed (map (fun p => SerializeToString (TR_packet p)) ps) qs /\
    Forall (fun q => decoded q = None) qs.
Proof.
  intros Hall. destruct (read_back_empty_packets ps Hall) as (qs & Hqs & Hnone).
  exists qs. split; [|exact Hnone].
  clear - Hqs. induction Hqs as [|inner q inners qs [Hlen Hq] _ IH];
    constructor; [split; [lia | exact Hq] | exact IH].
Qed.

Lemma filter_undecoded (mesh_channel : Z) (qs : list MeshPacket) :
  Forall (fun q => decoded q = None) qs ->
  filter (fun packet =>
            match decoded packet with
            | Some _ => mesh_pb2.channel packet =? mesh_channel
            | None => false
            end) qs = [].
Proof.
  induction 1 as [|q qs Hq _ IH]; [reflexivity|].
  cbn [filter]. rewrite Hq. exact IH.
Qed.

(** The bridge end to end: [create_mesh_packet] frames its packets,
    and frames that carry packets with the channel and the application
    payload of those packets, read in one piece by a bridge on the same
    channel, are decoded and written to [stdout] as exactly the data; a
    bridge on another channel writes nothing.  A frame carries a packet
    when the codec reads its inner message, of fewer than 65536 bytes,
    as that packet.  The bytes of [create_mesh_packet] themselves hold
    [ToRadio] messages: read back by a codec that finds no application
    payload in them, they are decoded and nothing is written. *)
Theorem bridge_roundtrip (drawn : nat) (data : bytes)
    (mesh_channel portnum : Z) (inners : list bytes)
    (received : list MeshPacket) :
  0 < MAX_MESH_PACKET ->
  let packets := utils_packets drawn data mesh_channel portnum in
  Forall2 framed inners received ->
  Forall2 same_content packets received ->
  let sent := concat (map frame_of packets) in
  let heard := concat (map wire_frame inners) in
  create_mesh_packet drawn data mesh_channel portnum = Returned sent /\
  decode_mesh_packets heard = Success received /\
  bridge_stdout heard mesh_channel = Success data /\
  (forall other : Z,
      other <> mesh_channel -> bridge_stdout heard other = Success []) /\
  (Forall read_back_empty packets ->
   bridge_stdout sent mesh_channel = Success []).
Proof.
  intros HM packets Hframed Hsame sent heard.
  destruct (create_mesh_packet_shape drawn data mesh_channel portnum HM)
    as (Hcreate & _ & Hdata & Hshape).
  fold packets in Hcreate, Hdata, Hshape. fold sent in Hcreate.
  pose proof (decode_mesh_packets_whole inners received Hframed) as Hdec.
  fold heard in Hdec.
  pose proof (utils_packets_wanted mesh_channel portnum packets Hshape)
    as Hwanted.
  split; [exact Hcreate|]. split; [exact Hdec|].
  split; [|split].
  - unfold bridge_stdout. rewrite Hdec.
    rewrite (same_content_filter mesh_channel packets received Hsame).
    rewrite Hwanted, Z.eqb_refl, Hdata. reflexivity.
  - intros other Hother. unfold bridge_stdout. rewrite Hdec.
    rewrite (same_content_filter other packets received Hsame).
    rewrite Hwanted.
    destruct (Z.eqb_spec mesh_channel other); [congruence | reflexivity].
  - intros Hback.
    destruct (read_back_empty_framed packets Hback) as (qs & Hqs & Hnone).
    unfold bridge_stdout, sent, frame_of.
    rewrite <- (map_map (fun p => SerializeToString (TR_packet p)) wire_frame).
    rewrite (decode_mesh_packets_whole _ qs Hqs).
    rewrite (filter_undecoded mesh_channel qs Hnone). reflexivity.
Qed.

(** ** Construction of the interface *)

(** Without a name the construction ends in [KeyError]; with a name
    but without a host or without a channel it ends in [ValueError],
    whatever the other keys hold. *)
Theorem init_rejects_incomplete_configuration (ifconf : ConfigObj) :
  (ifconf "name"%string = None -> __init__ ifconf = Failure KeyError) /\
  (ifconf "name"%string <> None ->
   ifconf "host"%string = None \/ ifconf "channel"%string = None ->
   __init__ ifconf = Failure (Builtin ValueError)).
Proof.
  unfold __init__, int_or. split.
  - intros ->. reflexivity.
  - intros Hname Hmiss.
    destruct (ifconf "name"%string) as [n|]; [|congruence].
    destruct (ifconf "port"%string) as [ps|];
      [destruct (int ps); [|reflexivity]|];
      (destruct (ifconf "channel"%string) as [cs|];
       [destruct (int cs); [|reflexivity]|]);
      destruct (ifconf "host"%string);
      try reflexivity; destruct Hmiss; discriminate.
Qed.


(** ** The wait for a path in the LXMF proxy *)

Lemma within_timeout_0 : within_timeout 0 = true.
Proof. reflexivity. Qed.

Lemma wait_for_path_unknown (n : nat) :
  forall (w : PathWait) (fuel : nat),
    (forall i : nat, (i < n)%nat -> has_path (polls w + i) = false) ->
    wait_for_path (n + fuel) 0 w
    = wait_for_path fuel 0
        {| polls := polls w + n;
           path_requests := path_requests w + n;
           seconds_slept := seconds_slept w + 6 * Z.of_nat n |}.
Proof.
  induction n as [|n IH]; intros w fuel Hno.
  - cbn [Nat.add]. destruct w. cbn.
    rewrite !Nat.add_0_r, Z.add_0_r. reflexivity.
  - cbn [Nat.add wait_for_path].
    rewrite <- (Nat.add_0_r (polls w)) at 1. rewrite Hno by lia.
    rewrite within_timeout_0. cbn [negb andb].
    rewrite IH.
    + cbn [polls path_requests seconds_slept]. do 2 f_equal; lia.
    + intros i Hi. cbn [polls].
      replace (S (polls w) + i)%nat with (polls w + S i)%nat by lia.
      apply Hno. lia.
Qed.

(** The wait for a path has no time limit in effect: [timeout] stays 0,
    so as long as the path is unknown the loop goes on, past any
    number of rounds of one request and six seconds each, also beyond
    the [MAX_ROUTE_TIMEOUT_MINS] minutes; it ends at the first poll
    that finds the path. *)
Theorem path_wait_never_times_out (n : nat) :
  (forall i : nat, (i < n)%nat -> has_path i = false) ->
  init_rns_wait n
  = StillWaiting {| polls := n; path_requests := n;
                    seconds_slept := 6 * Z.of_nat n |} /\
  (has_path n = true ->
   forall extra : nat,
     init_rns_wait (S n + extra)
     = Exited {| polls := S n; path_requests := n;
                 seconds_slept := 6 * Z.of_nat n |}).
Proof.
  intros Hno. unfold init_rns_wait. split.
  - rewrite <- (Nat.add_0_r n) at 1.
    rewrite wait_for_path_unknown by exact Hno. reflexivity.
  - intros Hyes extra.
    replace (S n + extra)%nat with (n + S extra)%nat by lia.
    rewrite wait_for_path_unknown by exact Hno.
    cbn [wait_for_path polls path_requests seconds_slept Nat.add Z.add].
    rewrite Hyes. reflexivity.
Qed.

(** ** Termination of the stateless decoder, and the two tools together *)

(** The stateless decoder ends on every input: each pass of its loop
    that does not raise moves [idx] forward, by one byte or past a
    frame, so the loop has its answer with any fuel above the number
    of bytes left. *)
Theorem decode_mesh_packets_terminates :
  (forall (data : bytes) (idx idx' : Z) (result result' : list MeshPacket),
      decode_mesh_packets_iteration data idx result = Success (idx', result') ->
      idx < idx') /\
  (forall (data : bytes) (idx : Z) (result : list MeshPacket),
      exists r : attempt (list MeshPacket),
        forall fuel : nat,
          Z.max 0 (len data - idx) < Z.of_nat fuel ->
          decode_mesh_packets_loop fuel data idx result = Some r) /\
  (forall data : bytes,
      decode_mesh_packets_loop (S (length data)) data 0 []
      = Some (decode_mesh_packets data)).
Proof.
  split; [exact decode_mesh_packets_iteration_advances|].
  assert (Hex : forall (data : bytes) (idx : Z) (result : list MeshPacket),
             exists r : attempt (list MeshPacket),
               forall fuel : nat,
                 Z.max 0 (len data - idx) < Z.of_nat fuel ->
                 decode_mesh_packets_loop fuel data idx result = Some r).
  { intros data idx result.
    destruct (decode_mesh_packets_fuel
                (S (Z.to_nat (Z.max 0 (len data - idx)))) data idx result)
      as (r & Hr); [lia|].
    exists r. intros fuel Hfuel.
    apply (decode_mesh_packets_more_fuel _ _ _ _ _ _ Hr). lia. }
  split; [exact Hex|].
  intros data. unfold decode_mesh_packets.
  destruct (decode_mesh_packets_fuel (S (length data)) data 0 [])
    as (r & Hr); [unfold len; lia|].
  rewrite Hr. reflexivity.
Qed.

(** The tools' frames at an interface: what [create_mesh_packet] sends
    with the interface's own port base is taken up by an interface on
    that channel fragment by fragment, but none of it carries the
    sentinel, so it is only added to the waiting fragments and nothing
    is delivered upstream. *)
Theorem interface_never_delivers_tool_frames (drawn : nat) (data : bytes)
    (rx : MeshtasticInterface) :
  0 < MAX_MESH_PACKET ->
  let packets := utils_packets drawn data (channel rx) (mesh_port_num rx) in
  fold_left accept_packet packets rx
  = set_recv_partial_msg rx (_recv_partial_msg rx ++ packets) /\
  inbound (fold_left accept_packet packets rx) = inbound rx /\
  rxb (fold_left accept_packet packets rx) = rxb rx.
Proof.
  intros HM packets.
  destruct (create_mesh_packet_shape drawn data (channel rx) (mesh_port_num rx) HM)
    as (_ & _ & _ & Hshape).
  fold packets in Hshape.
  assert (Hbuf : fold_left accept_packet packets rx
                 = set_recv_partial_msg rx (_recv_partial_msg rx ++ packets)).
  { apply accept_packets_buffer.
    revert Hshape. apply Forall_impl.
    intros p (_ & _ & Hch & d & Hd & Hport & _).
    exists d. repeat split; try assumption. lia. }
  rewrite Hbuf. repeat split.
Qed.

(** ** Text through [MeshtasticHandle] *)

(** A text sent with [send_text] is reported fragment by fragment:
    when frames that carry packets with the channel and the application
    payload of the packets sent are read in one piece by a handle on
    the same channel, the callback is called once for every fragment,
    in order, with the decoding of that fragment's bytes alone; the
    fragments' bytes together are the encoded text, and a text that
    fits one fragment is reported in one call as the decoding of its
    encoding.  The bytes of [send_text] themselves hold [ToRadio]
    messages: read back by a codec that finds no application payload
    in them, they give no call at all. *)
Theorem send_text_reported_by_fragment (drawn : nat) (mesh_channel : Z)
    (text : String.string) (inners : list bytes)
    (received : list MeshPacket) :
  0 < MAX_MESH_PACKET ->
  let packets :=
    utils_packets drawn (encode_utf8 text) mesh_channel TEXT_MESSAGE_APP in
  Forall2 framed inners received ->
  Forall2 same_content packets received ->
  let sent := concat (map frame_of packets) in
  let heard := concat (map wire_frame inners) in
  send_text drawn mesh_channel text = Returned sent /\
  _recv_loop_callbacks heard mesh_channel
  = Success (map decode_utf8 (map decoded_payload packets)) /\
  concat (map decoded_payload packets) = encode_utf8 text /\
  (encode_utf8 text <> [] ->
   len (encode_utf8 text) <= MAX_MESH_PACKET ->
   _recv_loop_callbacks heard mesh_channel
   = Success [decode_utf8 (encode_utf8 text)]) /\
  (Forall read_back_empty packets ->
   _recv_loop_callbacks sent mesh_channel = Success []).
Proof.
  intros HM packets Hframed Hsame sent heard.
  destruct (create_mesh_packet_shape drawn (encode_utf8 text) mesh_channel
              TEXT_MESSAGE_APP HM)
    as (Hcreate & Hcount & Hdata & Hshape).
  fold packets in Hcreate, Hcount, Hdata, Hshape. fold sent in Hcreate.
  pose proof (decode_mesh_packets_whole inners received Hframed) as Hdec.
  fold heard in Hdec.
  pose proof (utils_packets_wanted mesh_channel TEXT_MESSAGE_APP packets
                Hshape mesh_channel) as Hwanted.
  rewrite Z.eqb_refl in Hwanted.
  assert (Hcb : _recv_loop_callbacks heard mesh_channel
                = Success (map decode_utf8 (map decoded_payload packets))).
  { unfold _recv_loop_callbacks. rewrite Hdec.
    rewrite <- (map_map decoded_payload decode_utf8).
    rewrite (same_content_filter mesh_channel packets received Hsame).
    rewrite Hwanted. reflexivity. }
  split; [exact Hcreate|]. split; [exact Hcb|]. split; [exact Hdata|].
  split.
  - intros Hne Hfit. rewrite Hcb.
    assert (Hone : (len (encode_utf8 text) + MAX_MESH_PACKET - 1)
                   / MAX_MESH_PACKET = 1).
    { assert (0 < len (encode_utf8 text)).
      { destruct (encode_utf8 text); [congruence|].
        unfold len. cbn [length]. lia. }
      symmetry.
      apply (Z.div_unique _ _ 1 (len (encode_utf8 text) - 1)); lia. }
    rewrite Hone in Hcount.
    destruct packets as [|p [|q ps]]; unfold len in Hcount;
      cbn [length] in Hcount; try lia.
    cbn [map concat] in *. rewrite app_nil_r in Hdata. rewrite Hdata.
    reflexivity.
  - intros Hback.
    destruct (read_back_empty_framed packets Hback) as (qs & Hqs & Hnone).
    unfold _recv_loop_callbacks, sent, frame_of.
    rewrite <- (map_map (fun p => SerializeToString (TR_packet p)) wire_frame).
    rewrite (decode_mesh_packets_whole _ qs Hqs).
    rewrite (filter_undecoded mesh_channel qs Hnone). reflexivity.
Qed.

End Interface.

(** ** The claims on concrete inputs *)

(** C1 on the code.  At the empty payload no frame is produced, the
    decoder sees no byte and the reassembly delivers no message, even
    with a codec that reads its own messages back.  At a payload of one
    byte, with a codec that keeps [ToRadio] and [FromRadio] messages
    apart, the frame of the encoder is decoded to a packet without
    application payload, and no message is delivered either. *)
Lemma roundtrip_fails_empty_and_read_back :
  ~ round_trips 237 Sample.SerializeToString Sample.FromString_packet
      (Sample.iface true) (Sample.iface true) [] /\
  ~ round_trips 237 Sample.to_radio Sample.from_radio_packet
      (Sample.iface true) (Sample.iface true) [x41].
Proof.
  split; intros (frames & rx1 & packets & Hc & Hd & Hi);
    vm_compute in Hc; inversion Hc; subst frames;
    vm_compute in Hd; inversion Hd; subst rx1 packets;
    vm_compute in Hi; discriminate Hi.
Qed.

(** C1 on a payload of [MAX_LEN + 1] = 234 bytes, with 233-byte
    fragments, whose two packets arrive in the frames of the receiving
    device. *)
Lemma roundtrip_nonempty_payload_witness :
  let packets := fragment_packets 237 (Sample.iface true) Sample.payload234 in
  let stream := concat (map wire_frame (map Sample.from_radio packets)) in
  len packets = 2 /\
  read_iteration Sample.from_radio_packet (Sample.iface true) stream
  = Continue (process_incoming (Sample.iface true) Sample.payload234) /\
  inbound (process_incoming (Sample.iface true) Sample.payload234)
  = [Sample.payload234].
Proof.
  intros packets stream. split; [reflexivity|].
  destruct (roundtrip_nonempty_payload 237 Sample.to_radio
              Sample.from_radio_packet (Sample.iface true) (Sample.iface true)
              Sample.payload234 (map Sample.from_radio packets)
              (map Sample.heard packets))
    as (_ & _ & _ & Hread & Hin & _).
  - reflexivity.
  - discriminate.
  - let l1 := eval vm_compute in (map Sample.from_radio packets) in
    let l2 := eval vm_compute in (map Sample.heard packets) in
    change (Forall2 (carried Sample.from_radio_packet) l1 l2).
    repeat constructor.
  - let l1 := eval vm_compute in packets in
    let l2 := eval vm_compute in (map Sample.heard packets) in
    change (Forall2 same_content l1 l2).
    repeat constructor.
  - reflexivity.
  - reflexivity.
  - reflexivity.
  - reflexivity.
  - split; [exact Hread | exact Hin].
Defined.

(** C2 on the code: the empty payload gives an empty list of frames,
    not a list of one. *)
Lemma empty_payload_gives_no_frame :
  _create_mesh_packets 237 Sample.SerializeToString (Sample.iface true) []
  = Returned [] /\
  ~ exists frame : bytes,
      _create_mesh_packets 237 Sample.SerializeToString (Sample.iface true) []
      = Returned [frame].
Proof.
  split; [reflexivity|].
  intros (frame & H). vm_compute in H. discriminate H.
Qed.

(** C3 on 600 bytes with 200-byte fragments. *)
Lemma create_mesh_packets_fragments_witness :
  exists packets : list MeshPacket,
    _create_mesh_packets 204 Sample.SerializeToString (Sample.iface true)
      Sample.payload600
    = Returned (map (frame_of Sample.SerializeToString) packets) /\
    len packets = 3 /\
    map (fun p => option_map portnum (decoded p)) packets
    = [Some 256; Some 256; Some 257].
Proof.
  destruct (create_mesh_packets_fragments 204 Sample.SerializeToString
              (Sample.iface true) Sample.payload600)
    as (packets & Hc & Hn & _ & _ & _ & _ & Hports).
  - reflexivity.
  - discriminate.
  - exists packets. split; [exact Hc|]. split; [exact Hn|].
    apply Hports; reflexivity.
Defined.

(** C4 on the code: a lone 0x94 byte holds no magic pair and stays in
    the buffer. *)
Lemma lone_magic_byte_stays_buffered :
  has_magic_pair [x94] = false /\
  _recvbuf (Sample.iface true) = [] /\
  _decode_mesh_packets Sample.FromString_packet (Sample.iface true) [x94]
  = (set_recvbuf (Sample.iface true) [x94], Returned []) /\
  _recvbuf (set_recvbuf (Sample.iface true) [x94]) <> [].
Proof.
  repeat split; discriminate.
Qed.

(** C4 as amended, on seven bytes without the pair: the four last
    bytes stay buffered. *)
Lemma decode_without_magic_pair_witness :
  _decode_mesh_packets Sample.FromString_packet (Sample.iface true)
    [x01; x94; x02; x03; x04; x05; x06]
  = (set_recvbuf (Sample.iface true) [x03; x04; x05; x06], Returned []).
Proof.
  apply (decode_without_magic_pair Sample.FromString_packet (Sample.iface true)
           [x01; x94; x02; x03; x04; x05; x06]); reflexivity.
Defined.

(** C5 on the code: the frame with an empty inner message is a valid
    frame for the sample codec, and fed in two halves it gives no
    packet at all. *)
Lemma split_empty_frame_decodes_nothing :
  Sample.FromString_packet [] = Some Sample.default_packet /\
  ~ exists (self1 self2 : MeshtasticInterface) (first second : list MeshPacket),
      _decode_mesh_packets Sample.FromString_packet (Sample.iface true)
        (firstn 2 (wire_frame [])) = (self1, Returned first) /\
      _decode_mesh_packets Sample.FromString_packet self1
        (skipn 2 (wire_frame [])) = (self2, Returned second) /\
      length (first ++ second) = 1%nat.
Proof.
  split; [reflexivity|].
  intros (self1 & self2 & first & second & H1 & H2 & H3).
  vm_compute in H1. inversion H1; subst self1 first.
  vm_compute in H2. inversion H2; subst self2 second.
  discriminate H3.
Qed.

(** C5 as amended, on a five-byte inner message cut after 3 bytes. *)
Lemma split_frame_decodes_once_witness :
  let inner := Sample.SerializeToString (TR_packet Sample.last_fragment) in
  exists (self1 : MeshtasticInterface) (first second : list MeshPacket),
    _decode_mesh_packets Sample.FromString_packet (Sample.iface true)
      (firstn 3 (wire_frame inner)) = (self1, Returned first) /\
    _decode_mesh_packets Sample.FromString_packet self1
      (skipn 3 (wire_frame inner))
    = (set_recvbuf (Sample.iface true) [], Returned second) /\
    first ++ second = [Sample.last_fragment] /\
    ((3 < length (wire_frame inner))%nat ->
     first = [] /\ _recvbuf self1 = firstn 3 (wire_frame inner)).
Proof.
  intros inner.
  apply (split_frame_decodes_once Sample.FromString_packet (Sample.iface true)
           inner Sample.last_fragment 3).
  - reflexivity.
  - repeat split.
  - cbn. lia.
Defined.


(** C7 on a sentinel packet of channel 5 at an interface subscribed to
    channel 2. *)
Lemma accept_packet_filters_witness :
  accept_packet (Sample.iface true) Sample.foreign_sentinel = Sample.iface true.
Proof.
  refine (proj1 (accept_packet_filters (Sample.iface true)
                   Sample.foreign_sentinel _)).
  right. discriminate.
Defined.

(** C8 on a one-byte payload: dropped when offline, written and counted
    when online. *)
Lemma process_outgoing_online_only_witness :
  process_outgoing 237 Sample.SerializeToString Sample.accepts
    (Sample.iface false) [x41]
  = (Sample.iface false, Returned tt) /\
  exists pieces : list bytes,
    process_outgoing 237 Sample.SerializeToString Sample.accepts
      (Sample.iface true) [x41]
    = (sent_state (Sample.iface true) pieces, Returned tt) /\
    Returned pieces
    = _create_mesh_packets 237 Sample.SerializeToString (Sample.iface true)
        [x41].
Proof.
  split.
  - apply (proj1 (process_outgoing_online_only 237 Sample.SerializeToString
                    Sample.accepts (Sample.iface false) [x41])).
    reflexivity.
  - destruct (proj2 (process_outgoing_online_only 237 Sample.SerializeToString
                       Sample.accepts (Sample.iface true) [x41])
                eq_refl _ eq_refl)
      as (pieces & out & Hrun & _ & _ & Hfull).
    destruct (Hfull (fun w d => eq_refl)) as [Hp Ho].
    exists pieces. split.
    + rewrite Hrun, Ho. reflexivity.
    + rewrite Hp. reflexivity.
Defined.

(** C9 with a device that refuses two connections and takes the third. *)
Lemma zero_length_read_reconnects_witness :
  exists up : MeshtasticInterface,
    read_loop Sample.SerializeToString Sample.FromString_packet Sample.accepts
      Sample.connect_ok 5 (Sample.iface true) [[]]
    = Done up (Returned tt) /\
    online up = true /\ connects up = 3%nat /\ readers up = 1%nat /\
    slept up = 15550.
Proof.
  destruct (zero_length_read_reconnects Sample.SerializeToString
              Sample.FromString_packet Sample.accepts Sample.connect_ok
              (Sample.iface true))
    as (Hread & _ & _ & Hup & _).
  destruct (Hup 2%nat 7%nat 1%nat) as (Hrun & Hon & Hc & Hr & Hs).
  - intros [|[|i]] Hi; [reflexivity | reflexivity | lia].
  - reflexivity.
  - reflexivity.
  - eexists. split; [|split; [|split; [|split]]].
    + rewrite Hread. exact Hrun.
    + exact Hon.
    + exact Hc.
    + exact Hr.
    + exact Hs.
Defined.

(** C10 on a fresh interface that reads the four bytes 94 C3 00 00 and
    then one more byte. *)
Lemma empty_frame_waits_for_next_byte_witness :
  _decode_mesh_packets Sample.FromString_packet (Sample.iface true)
    [x94; xc3; x00; x00]
  = (set_recvbuf (Sample.iface true) [x94; xc3; x00; x00], Returned []) /\
  _decode_mesh_packets Sample.FromString_packet
    (set_recvbuf (Sample.iface true) [x94; xc3; x00; x00]) [x07]
  = (set_recvbuf (Sample.iface true) [x07], Returned [Sample.default_packet]).
Proof.
  destruct (empty_frame_waits_for_next_byte Sample.FromString_packet
              (Sample.iface true) [x94; xc3; x00; x00] Sample.default_packet
              eq_refl eq_refl)
    as (Hnow & _ & _ & _ & Hnext).
  split; [exact Hnow | exact (Hnext x07)].
Defined.

(** ** The further properties on concrete inputs *)

(** A two-byte packet at a 237-byte hardware payload: one frame, marked
    final. *)
Lemma hw_mtu_payload_single_frame_witness :
  _create_mesh_packets 237 Sample.SerializeToString (Sample.iface true)
    [x41; x42]
  = Returned [frame_of Sample.SerializeToString
                (fragment (Sample.iface true) 257 [x41; x42])].
Proof.
  apply (hw_mtu_payload_single_frame 237 Sample.SerializeToString
           (Sample.iface true) [x41; x42]).
  - discriminate.
  - unfold HW_MTU. cbn. lia.
Defined.

(** Three stray bytes, one of them 0x94, in front of a frame. *)
Lemma decode_skips_stray_bytes_witness :
  _decode_mesh_packets Sample.FromString_packet (Sample.iface true)
    ([x01; x94; x02] ++ concat (map wire_frame [Sample.last_inner]))
  = (set_recvbuf (Sample.iface true) [], Returned [Sample.last_fragment]).
Proof.
  apply (decode_skips_stray_bytes Sample.FromString_packet (Sample.iface true)
           [x01; x94; x02] [Sample.last_inner] [Sample.last_fragment]).
  - reflexivity.
  - reflexivity.
  - discriminate.
  - constructor; [|constructor]. repeat split.
Defined.

(** One frame arriving as two bytes, nothing, three bytes and the rest. *)
Lemma decode_chunks_stream_witness :
  decode_chunks Sample.FromString_packet (Sample.iface true)
    [firstn 2 Sample.last_frame; []; firstn 3 (skipn 2 Sample.last_frame);
     skipn 5 Sample.last_frame]
  = (set_recvbuf (Sample.iface true) [], Returned [Sample.last_fragment]).
Proof.
  apply (decode_chunks_stream Sample.FromString_packet (Sample.iface true)
           _ [Sample.last_inner] [Sample.last_fragment]).
  - reflexivity.
  - constructor; [|constructor]. repeat split.
  - reflexivity.
Defined.

(** A final fragment and a sentinel of another channel: one message of
    one byte is delivered and counted. *)
Lemma accept_packets_conserve_witness :
  exists delivered : list bytes,
    inbound (fold_left accept_packet
               [Sample.last_fragment; Sample.foreign_sentinel]
               (Sample.iface true))
    = delivered /\
    rxb (fold_left accept_packet
           [Sample.last_fragment; Sample.foreign_sentinel]
           (Sample.iface true))
    = len (concat delivered) /\
    Forall (fun q => is_sentinel (Sample.iface true) q = false)
      (_recv_partial_msg
         (fold_left accept_packet
            [Sample.last_fragment; Sample.foreign_sentinel]
            (Sample.iface true))).
Proof.
  destruct (accept_packets_conserve
              [Sample.last_fragment; Sample.foreign_sentinel]
              (Sample.iface true))
    as (delivered & Hin & Hrxb & _ & Hsent & _).
  exists delivered. split; [exact Hin|]. split; [exact Hrxb|].
  apply Hsent. constructor.
Defined.

(** Two messages whose frames arrive as three bytes and the rest. *)
Lemma read_loop_delivers_messages_witness :
  let packets :=
    flat_map (fragment_packets 237 (Sample.iface true)) [[x41]; [x42; x43]] in
  let stream := concat (map wire_frame (map Sample.from_radio packets)) in
  exists rx' : MeshtasticInterface,
    read_loop Sample.to_radio Sample.from_radio_packet Sample.accepts
      Sample.connect_ok 0 (Sample.iface true)
      [firstn 3 stream; skipn 3 stream]
    = Looping rx' /\
    inbound rx' = [[x41]; [x42; x43]] /\ rxb rx' = 3 /\ slept rx' = 150 /\
    _recvbuf rx' = [] /\ _recv_partial_msg rx' = [].
Proof.
  intros packets stream.
  destruct (read_loop_delivers_messages 237 Sample.to_radio
              Sample.from_radio_packet Sample.accepts Sample.connect_ok
              (Sample.iface true) (Sample.iface true) [[x41]; [x42; x43]]
              (map Sample.from_radio packets) (map Sample.heard packets)
              [firstn 3 stream; skipn 3 stream] 0)
    as (rx' & Hrun & Hrx & Hin & Hrxb & Hbuf & Hpart).
  - reflexivity.
  - repeat constructor; discriminate.
  - let l1 := eval vm_compute in (map Sample.from_radio packets) in
    let l2 := eval vm_compute in (map Sample.heard packets) in
    change (Forall2 (carried Sample.from_radio_packet) l1 l2).
    repeat constructor.
  - let l1 := eval vm_compute in packets in
    let l2 := eval vm_compute in (map Sample.heard packets) in
    change (Forall2 same_content l1 l2).
    repeat constructor.
  - reflexivity.
  - reflexivity.
  - reflexivity.
  - reflexivity.
  - repeat constructor; vm_compute; discriminate.
  - apply firstn_skipn.
  - exists rx'. split; [exact Hrun|]. split; [exact Hin|].
    split; [exact Hrxb|]. split; [rewrite Hrx; reflexivity|].
    split; [exact Hbuf | exact Hpart].
Defined.

(** A 234-byte message whose second, final fragment is lost, followed
    by a one-byte message. *)
Lemma lost_sentinel_merges_messages_witness :
  let received :=
    removelast (fragment_packets 237 (Sample.iface true) Sample.payload234) in
  fold_left accept_packet received (Sample.iface true)
  = set_recv_partial_msg (Sample.iface true) received /\
  fold_left accept_packet
    (received ++ fragment_packets 237 (Sample.iface true) [x42])
    (Sample.iface true)
  = process_incoming (Sample.iface true)
      (concat (map decoded_payload received) ++ [x42]).
Proof.
  apply (lost_sentinel_merges_messages 237 (Sample.iface true)
           (Sample.iface true) Sample.payload234 [x42]);
    try reflexivity; discriminate.
Defined.

(** One byte sent by an online interface, and the bytes written read
    back by an interface, with a codec that keeps [ToRadio] and
    [FromRadio] messages apart. *)
Lemma own_frames_deliver_nothing_witness :
  exists (tx' : MeshtasticInterface) (sent : bytes),
    process_outgoing 237 Sample.to_radio Sample.accepts
      (Sample.iface true) [x41] = (tx', Returned tt) /\
    wire (_sock tx') = sent /\
    txb tx' = len sent /\
    4 < len sent /\
    read_iteration Sample.from_radio_packet (Sample.iface true) sent
    = Continue (Sample.iface true).
Proof.
  destruct (own_frames_deliver_nothing 237 Sample.to_radio
              Sample.from_radio_packet Sample.accepts Sample.connect_ok
              (Sample.iface true) (Sample.iface true) [x41])
    as (tx' & sent & Hsend & Hwire & Htxb & Hlen & Hread & _);
    try reflexivity.
  - discriminate.
  - let l := eval vm_compute in
        (fragment_packets 237 (Sample.iface true) [x41]) in
    change (Forall (read_back_empty Sample.to_radio
                      Sample.from_radio_packet) l).
    constructor; [|constructor].
    exists Sample.default_packet. repeat split.
  - exists tx', sent. auto.
Defined.

(** An empty frame followed by a frame with a payload, in one piece. *)
Lemma decode_mesh_packets_frames_witness :
  decode_mesh_packets Sample.FromString_packet
    (concat (map wire_frame [[]; Sample.last_inner]))
  = Success [Sample.default_packet; Sample.last_fragment].
Proof.
  apply (decode_mesh_packets_frames Sample.FromString_packet
           [[]; Sample.last_inner]
           [Sample.default_packet; Sample.last_fragment]).
  repeat constructor.
Defined.

(** Data that ends with a lone 0x94 after a whole frame. *)
Lemma decode_mesh_packets_cut_header_witness :
  decode_mesh_packets Sample.FromString_packet
    (concat (map wire_frame [Sample.last_inner]) ++ [x94])
  = Failure IndexError.
Proof.
  apply (decode_mesh_packets_cut_header Sample.FromString_packet
           [Sample.last_inner] [Sample.last_fragment] [] 1).
  - repeat constructor.
  - reflexivity.
  - lia.
Defined.

(** A frame whose last byte, the payload, has not arrived: the packet
    comes out with an empty payload. *)
Lemma decode_mesh_packets_cut_frame_witness :
  decode_mesh_packets Sample.FromString_packet (firstn 8 Sample.last_frame)
  = Success [fragment (Sample.iface true) 257 []].
Proof.
  apply (decode_mesh_packets_cut_frame Sample.FromString_packet [] []
           Sample.last_inner 8).
  - constructor.
  - reflexivity.
  - cbn. lia.
Defined.

(** Three bytes cut into fragments of two. *)
Lemma create_mesh_packet_fragments_utils_witness :
  let packets := utils_packets 3 Sample.randint 0 [x41; x42; x43] 2 256 in
  len packets = 2 /\
  concat (map decoded_payload packets) = [x41; x42; x43] /\
  map id packets = [Sample.randint 0; Sample.randint 1].
Proof.
  destruct (create_mesh_packet_fragments 3 Sample.SerializeToString_id
              Sample.randint 0 [x41; x42; x43] 2 256)
    as (_ & Hn & Hdata & _ & Hids & _).
  - reflexivity.
  - split; [exact Hn|]. split; [exact Hdata | exact Hids].
Defined.

(** Three bytes through the bridge, in fragments of two bytes: the
    frames of the receiving device are written out as the three bytes,
    and the bytes sent themselves, read back, as nothing. *)
Lemma bridge_roundtrip_witness :
  let packets := utils_packets 3 Sample.randint 0 [x41; x42; x43] 2 256 in
  let sent := concat (map (frame_of Sample.to_radio) packets) in
  let heard := concat (map wire_frame (map Sample.from_radio packets)) in
  create_mesh_packet 3 Sample.to_radio Sample.randint 0 [x41; x42; x43] 2 256
  = Returned sent /\
  bridge_stdout Sample.from_radio_packet heard 2 = Success [x41; x42; x43] /\
  bridge_stdout Sample.from_radio_packet heard 5 = Success [] /\
  bridge_stdout Sample.from_radio_packet sent 2 = Success [].
Proof.
  intros packets sent heard.
  destruct (bridge_roundtrip 3 Sample.to_radio Sample.from_radio_packet
              Sample.randint 0 [x41; x42; x43] 2 256
              (map Sample.from_radio packets) (map Sample.heard packets))
    as (Hcreate & _ & Hout & Hother & Hback).
  - reflexivity.
  - let l1 := eval vm_compute in (map Sample.from_radio packets) in
    let l2 := eval vm_compute in (map Sample.heard packets) in
    change (Forall2 (framed Sample.from_radio_packet) l1 l2).
    repeat constructor.
  - let l1 := eval vm_compute in packets in
    let l2 := eval vm_compute in (map Sample.heard packets) in
    change (Forall2 same_content l1 l2).
    repeat constructor.
  - split; [exact Hcreate|]. split; [exact Hout|].
    split; [apply Hother; discriminate|].
    apply Hback.
    let l := eval vm_compute in packets in
    change (Forall (read_back_empty Sample.to_radio
                      Sample.from_radio_packet) l).
    repeat (constructor; [exists Sample.default_packet; repeat split|]).
    constructor.
Defined.

(** A configuration without a host. *)
Lemma init_rejects_incomplete_configuration_witness :
  __init__ 237 Sample.SerializeToString Sample.accepts Sample.connect_always
    Sample.int 256 Sample.ifconf_no_host
  = Failure (Builtin ValueError).
Proof.
  apply (proj2 (init_rejects_incomplete_configuration 237
                  Sample.SerializeToString Sample.accepts
                  Sample.connect_always Sample.int 256
                  Sample.ifconf_no_host)).
  - discriminate.
  - left. reflexivity.
Defined.


(** A path that stays unknown for 700 polls: after 4200 seconds, more
    than the 60 minutes, the loop is still waiting, and the 701st poll
    ends it. *)
Lemma path_wait_never_times_out_witness :
  init_rns_wait Sample.has_path 700
  = StillWaiting {| polls := 700; path_requests := 700;
                    seconds_slept := 4200 |} /\
  init_rns_wait Sample.has_path 701
  = Exited {| polls := 701; path_requests := 700; seconds_slept := 4200 |}.
Proof.
  destruct (path_wait_never_times_out Sample.has_path 700) as [Hwait Hexit].
  - intros i Hi. apply Nat.leb_gt. exact Hi.
  - split; [exact Hwait|].
    exact (Hexit eq_refl 0%nat).
Defined.

(** The stateless decoder on five bytes that hold no frame. *)
Lemma decode_mesh_packets_terminates_witness :
  decode_mesh_packets_loop Sample.FromString_packet 6
    [x00; x94; x01; x02; x03] 0 []
  = Some (decode_mesh_packets Sample.FromString_packet
            [x00; x94; x01; x02; x03]).
Proof.
  exact (proj2 (proj2 (decode_mesh_packets_terminates
                         Sample.FromString_packet))
           [x00; x94; x01; x02; x03]).
Defined.

(** Three bytes from the tool on channel 2 with port 256, at an
    interface on channel 2 with port base 256. *)
Lemma interface_never_delivers_tool_frames_witness :
  let packets := utils_packets 3 Sample.randint 0 [x41; x42; x43] 2 256 in
  fold_left accept_packet packets (Sample.iface true)
  = set_recv_partial_msg (Sample.iface true) packets /\
  inbound (fold_left accept_packet packets (Sample.iface true)) = [] /\
  rxb (fold_left accept_packet packets (Sample.iface true)) = 0.
Proof.
  apply (interface_never_delivers_tool_frames 3 Sample.SerializeToString_id
           Sample.randint 0 [x41; x42; x43] (Sample.iface true)).
  reflexivity.
Defined.

(** The text "hey" with fragments of two bytes: two calls, "he" and
    "y", for the frames of the receiving device. *)
Lemma send_text_reported_by_fragment_witness :
  let packets :=
    utils_packets 3 Sample.randint 0 (Sample.encode_utf8 "hey"%string) 2 1 in
  let sent := concat (map (frame_of Sample.to_radio) packets) in
  let heard := concat (map wire_frame (map Sample.from_radio packets)) in
  send_text 3 Sample.to_radio Sample.randint Sample.encode_utf8 1 0 2
    "hey"%string = Returned sent /\
  _recv_loop_callbacks Sample.from_radio_packet Sample.decode_utf8 heard 2
  = Success ["he"%string; "y"%string].
Proof.
  intros packets sent heard.
  destruct (send_text_reported_by_fragment 3 Sample.to_radio
              Sample.from_radio_packet Sample.randint
              Sample.encode_utf8 Sample.decode_utf8 1 0 2 "hey"%string
              (map Sample.from_radio packets) (map Sample.heard packets))
    as (Hsend & Hcb & _).
  - reflexivity.
  - let l1 := eval vm_compute in (map Sample.from_radio packets) in
    let l2 := eval vm_compute in (map Sample.heard packets) in
    change (Forall2 (framed Sample.from_radio_packet) l1 l2).
    repeat constructor.
  - let l1 := eval vm_compute in packets in
    let l2 := eval vm_compute in (map Sample.heard packets) in
    change (Forall2 same_content l1 l2).
    repeat constructor.
  - split; [exact Hsend | exact Hcb].
Defined.
